(** * hfile_cip: the encrypting / decrypting stream backend

    A shallow embedding of [hfile_cip.c] and the verification of its
    behaviour: scheme stripping, session open, chunked read and write,
    seek rejection and the multi-stage close.

    The backend is a filter between a caller and an underlying stream.
    Everything it calls but does not define (the underlying [hFILE]
    layer, the C library, OpenSSL or CommonCrypto) is a parameter of the
    model: a [platform] record of operations on an explicit external
    state.  The model threads that state, [errno] and a trace of the
    external calls through a small state monad. *)

From Stdlib Require Import ZArith List String Ascii Lia Bool.
Import ListNotations.
Local Open Scope Z_scope.

(** ** C-level constants *)

(** Bytes are 8-bit values carried in [Z]. *)
Definition byte := Z.

(** [<errno.h>] values (Linux numbering).  The code only stores, copies
    and tests them against zero. *)
Definition EPERM : Z := 1.
Definition EBADF : Z := 9.
Definition ENOMEM : Z := 12.
Definition EINVAL : Z := 22.
Definition ENOSPC : Z := 28.
Definition ESPIPE : Z := 29.
Definition EDOM : Z := 33.
Definition ERANGE : Z := 34.
Definition ENOSYS : Z := 38.
Definition EOVERFLOW : Z := 75.

(** [<fcntl.h>] access modes. *)
Definition O_RDONLY : Z := 0.
Definition O_WRONLY : Z := 1.
Definition O_ACCMODE : Z := 3.

(** [BLOCKSIZE] is [AES_BLOCK_SIZE] or [kCCBlockSizeAES128]: 16 in both
    libraries. *)
Definition BLOCKSIZE : Z := 16.

(** [sizeof iv] in [hopen_cip]. *)
Definition IV_SIZE : Z := 16.

(** [size_t] is taken to be 64 bits wide; unsigned subtraction wraps. *)
Definition SIZE_MODULUS : Z := 2 ^ 64.
Definition size_sub (a b : Z) : Z := (a - b) mod SIZE_MODULUS.

(** The PBKDF2 salt of [hopen_cip]. *)
Definition salt : list byte := [244; 34; 1; 0; 158; 223; 78; 21].

(** ** C strings *)

Definition char_code (c : ascii) : Z := Z.of_nat (nat_of_ascii c).

(** [strncmp]: compares at most [n] characters; the end of a string
    plays the role of the terminating NUL. *)
Fixpoint strncmp (s1 s2 : string) (n : nat) {struct n} : Z :=
  match n with
  | O => 0
  | S n' =>
      match s1, s2 with
      | EmptyString, EmptyString => 0
      | EmptyString, String c2 _ => 0 - char_code c2
      | String c1 _, EmptyString => char_code c1
      | String c1 r1, String c2 r2 =>
          if Ascii.eqb c1 c2 then strncmp r1 r2 n'
          else char_code c1 - char_code c2
      end
  end.

(** [filename += n]. *)
Fixpoint advance (n : nat) (s : string) : string :=
  match n with
  | O => s
  | S n' => match s with
            | EmptyString => EmptyString
            | String _ r => advance n' r
            end
  end.

(** [strip_cip_scheme] (hfile_cip.c, lines 246-252). *)
Definition strip_cip_scheme (filename : string) : string :=
  if strncmp filename "cip://localhost/" 16 =? 0 then advance 15 filename
  else if strncmp filename "cip:///" 7 =? 0 then advance 6 filename
  else if strncmp filename "cip:" 4 =? 0 then advance 4 filename
  else filename.

(** ** The external world *)

(** The state the backend does not own: [errno] and the state of the
    libraries and of the system behind them. *)
Record ext (S : Type) : Type := Ext { errno : Z; sys : S }.
Arguments Ext {S} _ _.
Arguments errno {S} _.
Arguments sys {S} _.

(** An external operation may read and change all of it. *)
Definition ext_op (S A : Type) : Type := ext S -> A * ext S.

(** [CCStatus] of CommonCrypto, as far as [cc_errno] tells its values
    apart. *)
Inductive CCStatus : Type :=
| kCCSuccess
| kCCParamError
| kCCBufferTooSmall
| kCCMemoryFailure
| kCCAlignmentError
| kCCDecodeError
| kCCUnimplemented
| kCCOverflow
| kCCRNGFailure
| kCCUnspecifiedError
| kCCCallSequenceError
| kCCOtherStatus (code : Z).

Definition is_kCCSuccess (st : CCStatus) : bool :=
  match st with kCCSuccess => true | _ => false end.

Inductive CCOperation : Type := kCCEncrypt | kCCDecrypt.

(** OpenSSL, as called by the file.  [C] is the cipher context
    ([EVP_CIPHER_CTX], held inside the handle).  The cipher is
    [EVP_aes_128_ctr], the PRF [EVP_sha1].  Operations that fill a
    caller buffer return the bytes they stored. *)
Record openssl_lib (S C : Type) : Type := {
  ERR_get_error : ext_op S Z;
  RAND_bytes : Z -> ext_op S (Z * list byte);
  PKCS5_PBKDF2_HMAC :
    string -> Z -> list byte -> Z -> Z -> Z -> ext_op S (Z * list byte);
  EVP_CIPHER_CTX_init : ext_op S C;
  EVP_CipherInit_ex : C -> list byte -> list byte -> Z -> ext_op S (Z * C);
  EVP_CipherUpdate : C -> list byte -> ext_op S (Z * list byte * C);
  EVP_CipherFinal : C -> ext_op S (Z * list byte * C);
  EVP_CIPHER_CTX_cleanup : C -> ext_op S (Z * C)
}.
Arguments ERR_get_error {S C} _ _.
Arguments RAND_bytes {S C} _ _ _.
Arguments PKCS5_PBKDF2_HMAC {S C} _ _ _ _ _ _ _ _.
Arguments EVP_CIPHER_CTX_init {S C} _ _.
Arguments EVP_CipherInit_ex {S C} _ _ _ _ _ _.
Arguments EVP_CipherUpdate {S C} _ _ _ _.
Arguments EVP_CipherFinal {S C} _ _ _.
Arguments EVP_CIPHER_CTX_cleanup {S C} _ _ _.

(** CommonCrypto, as called by the file.  [C] is the cryptor behind the
    [CCCryptorRef]; the handle owns it alone, so it is threaded as a
    value.  The mode is [kCCModeCTR] over [kCCAlgorithmAES]. *)
Record commoncrypto_lib (S C : Type) : Type := {
  CCRandomGenerateBytes : Z -> ext_op S (CCStatus * list byte);
  CCKeyDerivationPBKDF :
    string -> Z -> list byte -> Z -> Z -> Z -> ext_op S (CCStatus * list byte);
  CCCryptorCreateWithMode :
    CCOperation -> list byte -> list byte -> Z -> ext_op S (CCStatus * C);
  CCCryptorUpdate : C -> list byte -> Z -> ext_op S (CCStatus * list byte * C);
  CCCryptorFinal : C -> Z -> ext_op S (CCStatus * list byte * C);
  CCCryptorRelease : C -> ext_op S CCStatus
}.
Arguments CCRandomGenerateBytes {S C} _ _ _.
Arguments CCKeyDerivationPBKDF {S C} _ _ _ _ _ _ _ _.
Arguments CCCryptorCreateWithMode {S C} _ _ _ _ _ _.
Arguments CCCryptorUpdate {S C} _ _ _ _ _.
Arguments CCCryptorFinal {S C} _ _ _ _.
Arguments CCCryptorRelease {S C} _ _ _.

(** The build-time choice [#if defined HAVE_OPENSSL ... #elif defined
    HAVE_COMMONCRYPTO]. *)
Inductive crypto_lib (S C : Type) : Type :=
| HAVE_OPENSSL (o : openssl_lib S C)
| HAVE_COMMONCRYPTO (cc : commoncrypto_lib S C).
Arguments HAVE_OPENSSL {S C} _.
Arguments HAVE_COMMONCRYPTO {S C} _.

(** Everything else the file calls.  [H] is an underlying stream handle
    ([hFILE *]).
    - [hread] yields [None] for a negative return value and otherwise
      the bytes it stored, whose number is the value returned;
    - [hwrite], [hclose] return what the C functions return;
    - [hfile_init] tells whether the handle was allocated;
    - [malloc] yields the initial contents of the block (allocation
      failure, which the code does not check, is outside the model). *)
Record platform (S H C : Type) : Type := {
  getenv : string -> ext_op S (option string);
  hfile_init : string -> Z -> ext_op S bool;
  hfile_destroy : ext_op S unit;
  hfile_oflags : string -> Z;
  hopen : string -> string -> ext_op S (option H);
  hread : H -> Z -> ext_op S (option (list byte));
  hwrite : H -> list byte -> ext_op S Z;
  hclose : H -> ext_op S Z;
  hclose_abruptly : H -> ext_op S unit;
  malloc : Z -> ext_op S (list byte);
  free : ext_op S unit;
  crypto : crypto_lib S C
}.
Arguments getenv {S H C} _ _ _.
Arguments hfile_init {S H C} _ _ _ _.
Arguments hfile_destroy {S H C} _ _.
Arguments hfile_oflags {S H C} _ _.
Arguments hopen {S H C} _ _ _ _.
Arguments hread {S H C} _ _ _ _.
Arguments hwrite {S H C} _ _ _ _.
Arguments hclose {S H C} _ _ _.
Arguments hclose_abruptly {S H C} _ _ _.
Arguments malloc {S H C} _ _ _.
Arguments free {S H C} _ _.
Arguments crypto {S H C} _.

(** The external calls, in the order they happen. *)
Inductive event (H : Type) : Type :=
| Call_getenv (name : string)
| Call_hfile_init (mode : string)
| Call_hfile_destroy
| Call_hopen (name mode : string)
| Call_hread (h : H) (n : Z)
| Call_hwrite (h : H) (data : list byte)
| Call_hclose (h : H)
| Call_hclose_abruptly (h : H)
| Call_malloc (n : Z)
| Call_free
| Call_random (n : Z)
| Call_error_queue
| Call_key_derivation
| Call_cipher_ctx_init
| Call_cipher_init (encrypt : bool)
| Call_cipher_update (n : Z)
| Call_cipher_final
| Call_cipher_release.
Arguments Call_getenv {H} _.
Arguments Call_hfile_init {H} _.
Arguments Call_hfile_destroy {H}.
Arguments Call_hopen {H} _ _.
Arguments Call_hread {H} _ _.
Arguments Call_hwrite {H} _ _.
Arguments Call_hclose {H} _.
Arguments Call_hclose_abruptly {H} _.
Arguments Call_malloc {H} _.
Arguments Call_free {H}.
Arguments Call_random {H} _.
Arguments Call_error_queue {H}.
Arguments Call_key_derivation {H}.
Arguments Call_cipher_ctx_init {H}.
Arguments Call_cipher_init {H} _.
Arguments Call_cipher_update {H} _.
Arguments Call_cipher_final {H}.
Arguments Call_cipher_release {H}.

(** Calls that touch an underlying stream. *)
Definition is_stream_call {H : Type} (ev : event H) : bool :=
  match ev with
  | Call_hopen _ _ | Call_hread _ _ | Call_hwrite _ _
  | Call_hclose _ | Call_hclose_abruptly _ => true
  | _ => false
  end.

(** Calls that derive a key or create or drive cipher state. *)
Definition is_cipher_call {H : Type} (ev : event H) : bool :=
  match ev with
  | Call_key_derivation | Call_cipher_ctx_init | Call_cipher_init _
  | Call_cipher_update _ | Call_cipher_final | Call_cipher_release => true
  | _ => false
  end.

(** The bytes handed to [hwrite], in order. *)
Fixpoint written_bytes {H : Type} (tr : list (event H)) : list byte :=
  match tr with
  | [] => []
  | Call_hwrite _ data :: tr' => data ++ written_bytes tr'
  | _ :: tr' => written_bytes tr'
  end.

(** ** The state monad of the model *)

Record world (S H : Type) : Type :=
  World { w_ext : ext S; trace : list (event H) }.
Arguments World {S H} _ _.
Arguments w_ext {S H} _.
Arguments trace {S H} _.

Definition M (S H A : Type) : Type := world S H -> A * world S H.

Definition ret {S H A : Type} (a : A) : M S H A := fun w => (a, w).

Definition bind {S H A B : Type} (m : M S H A) (k : A -> M S H B) : M S H B :=
  fun w => let (a, w') := m w in k a w'.

Notation "x <- m ;; k" := (bind m (fun x => k))
  (at level 61, m at next level, right associativity).
Notation "' pat <- m ;; k" := (bind m (fun x => match x with pat => k end))
  (at level 61, pat pattern, m at next level, right associativity).
Notation "m ;; k" := (bind m (fun _ => k))
  (at level 61, right associativity).

(** One external call: run it on the external state and log it. *)
Definition call {S H A : Type} (ev : event H) (op : ext_op S A) : M S H A :=
  fun w => let (a, e) := op (w_ext w) in (a, World e (trace w ++ [ev])).

(** [errno] as an lvalue. *)
Definition get_errno {S H : Type} : M S H Z :=
  fun w => (errno (w_ext w), w).

Definition set_errno {S H : Type} (e : Z) : M S H unit :=
  fun w => (tt, World (Ext e (sys (w_ext w))) (trace w)).

(** ** The handle *)

(** [hFILE_cip] without its [base] member, which belongs to the generic
    layer.  [buffer] is the contents of the scratch block, [ctx] the
    [ctx] or [cryptor] member. *)
Record hFILE_cip (H C : Type) : Type := mk_hFILE_cip {
  is_write : bool;
  buffer : list byte;
  bufsize : Z;
  rawfp : H;
  ctx : C
}.
Arguments mk_hFILE_cip {H C} _ _ _ _ _.
Arguments is_write {H C} _.
Arguments buffer {H C} _.
Arguments bufsize {H C} _.
Arguments rawfp {H C} _.
Arguments ctx {H C} _.

Definition with_buffer {H C : Type} (fp : hFILE_cip H C) (b : list byte)
  : hFILE_cip H C :=
  mk_hFILE_cip (is_write fp) b (bufsize fp) (rawfp fp) (ctx fp).

Definition with_ctx {H C : Type} (fp : hFILE_cip H C) (c : C)
  : hFILE_cip H C :=
  mk_hFILE_cip (is_write fp) (buffer fp) (bufsize fp) (rawfp fp) c.

(** Storing [data] at the start of a block. *)
Definition store (data block : list byte) : list byte :=
  data ++ skipn (List.length data) block.

(** The first [n] bytes of a block. *)
Definition take (n : Z) (block : list byte) : list byte :=
  firstn (Z.to_nat n) block.

Definition drop (n : Z) (block : list byte) : list byte :=
  skipn (Z.to_nat n) block.

Definition len (l : list byte) : Z := Z.of_nat (List.length l).

(** [cc_errno] (lines 112-133); the diagnostic on [stderr] is not
    modelled. *)
Definition cc_errno (status : CCStatus) : Z :=
  match status with
  | kCCSuccess => 0
  | kCCParamError => EINVAL
  | kCCBufferTooSmall => ENOSPC
  | kCCMemoryFailure => ENOMEM
  | kCCAlignmentError => ERANGE
  | kCCDecodeError => ERANGE
  | kCCUnimplemented => ENOSYS
  | kCCOverflow => EOVERFLOW
  | kCCRNGFailure => ERANGE
  | kCCUnspecifiedError => ERANGE
  | kCCCallSequenceError => EBADF
  | kCCOtherStatus _ => EINVAL
  end.

Section Backend.

Context {S H C : Type} (P : platform S H C).

Abbreviation M := (M S H).
Abbreviation handle := (hFILE_cip H C).

(** [ssl_errno] (lines 69-84): takes the pending OpenSSL error off the
    queue and yields [EINVAL]; the diagnostic on [stderr] is not
    modelled. *)
Definition ssl_errno (o : openssl_lib S C) : M Z :=
  _ <- call Call_error_queue (ERR_get_error o) ;;
  ret EINVAL.

(** [gen_random] (lines 86-91 and 135-141): the value returned and the
    bytes stored. *)
Definition gen_random (length : Z) : M (Z * list byte) :=
  match crypto P with
  | HAVE_OPENSSL o =>
      '(r, bytes) <- call (Call_random length) (RAND_bytes o length) ;;
      if r <=? 0 then
        e <- ssl_errno o ;; set_errno e ;; ret (-1, bytes)
      else ret (0, bytes)
  | HAVE_COMMONCRYPTO cc =>
      '(st, bytes) <- call (Call_random length)
                           (CCRandomGenerateBytes cc length) ;;
      if negb (is_kCCSuccess st) then
        set_errno (cc_errno st) ;; ret (-1, bytes)
      else ret (0, bytes)
  end.

(** [cipher_update] (lines 93-100 and 143-151): the value returned, the
    bytes stored in [out] and the context afterwards. *)
Definition cipher_update (c : C) (input : list byte)
  : M (Z * list byte * C) :=
  match crypto P with
  | HAVE_OPENSSL o =>
      '(r, out, c') <- call (Call_cipher_update (len input))
                            (EVP_CipherUpdate o c input) ;;
      if r =? 0 then
        e <- ssl_errno o ;; set_errno e ;; ret (-1, out, c')
      else ret (len out, out, c')
  | HAVE_COMMONCRYPTO cc =>
      '(st, out, c') <- call (Call_cipher_update (len input))
                             (CCCryptorUpdate cc c input (len input)) ;;
      if negb (is_kCCSuccess st) then
        set_errno (cc_errno st) ;; ret (-1, out, c')
      else ret (len out, out, c')
  end.

(** [cipher_final] (lines 102-108 and 153-160). *)
Definition cipher_final (c : C) (length : Z) : M (Z * list byte * C) :=
  match crypto P with
  | HAVE_OPENSSL o =>
      '(r, out, c') <- call Call_cipher_final (EVP_CipherFinal o c) ;;
      if r =? 0 then
        e <- ssl_errno o ;; set_errno e ;; ret (-1, out, c')
      else ret (len out, out, c')
  | HAVE_COMMONCRYPTO cc =>
      '(st, out, c') <- call Call_cipher_final
                             (CCCryptorFinal cc c length) ;;
      if negb (is_kCCSuccess st) then
        set_errno (cc_errno st) ;; ret (-1, out, c')
      else ret (len out, out, c')
  end.

(** [cip_read] (lines 164-185).  [nbytes] is what is left to read,
    [out] the bytes stored in the caller's buffer so far.  The cipher
    stores straight into the caller's buffer, so what an update stored
    is there whether or not the update succeeded.  The result is the
    value returned, the caller's bytes and the handle; [None] when
    [fuel] iterations did not finish the loop. *)
Fixpoint cip_read_loop (fuel : nat) (fp : handle) (nbytes total : Z)
    (out : list byte) : M (option (Z * list byte * handle)) :=
  if 0 <? nbytes then
    match fuel with
    | O => ret None
    | Datatypes.S fuel' =>
        let n := if nbytes <? bufsize fp then nbytes else bufsize fp in
        r <- call (Call_hread (rawfp fp) n) (hread P (rawfp fp) n) ;;
        match r with
        | None => ret (Some (-1, out, fp))
        | Some data =>
            let nread := len data in
            let fp1 := with_buffer fp (store data (buffer fp)) in
            if nread =? 0 then ret (Some (total, out, fp1))
            else
              '(nout, produced, c') <-
                 cipher_update (ctx fp1) (take nread (buffer fp1)) ;;
              let fp2 := with_ctx fp1 c' in
              if nout <? 0 then ret (Some (-1, out ++ produced, fp2))
              else cip_read_loop fuel' fp2 (size_sub nbytes nout)
                                 (total + nout) (out ++ produced)
        end
    end
  else ret (Some (total, out, fp)).

Definition cip_read (fuel : nat) (fp : handle) (nbytes : Z)
  : M (option (Z * list byte * handle)) :=
  cip_read_loop fuel fp nbytes 0 [].

(** [cip_write] (lines 187-206).  [data] is what is left of the caller's
    buffer, so [nbytes] is its length. *)
Fixpoint cip_write_loop (fuel : nat) (fp : handle) (data : list byte)
    (total : Z) : M (option (Z * handle)) :=
  let nbytes := len data in
  if 0 <? nbytes then
    match fuel with
    | O => ret None
    | Datatypes.S fuel' =>
        let n := if nbytes <? bufsize fp then nbytes else bufsize fp in
        '(nout, produced, c') <- cipher_update (ctx fp) (take n data) ;;
        let fp1 := with_ctx (with_buffer fp (store produced (buffer fp))) c' in
        if nout <? 0 then ret (Some (-1, fp1))
        else
          w <- call (Call_hwrite (rawfp fp1) (take nout (buffer fp1)))
                    (hwrite P (rawfp fp1) (take nout (buffer fp1))) ;;
          if negb (w =? nout) then ret (Some (-1, fp1))
          else cip_write_loop fuel' fp1 (drop n data) (total + n)
    end
  else ret (Some (total, fp)).

Definition cip_write (fuel : nat) (fp : handle) (data : list byte)
  : M (option (Z * handle)) :=
  cip_write_loop fuel fp data 0.

(** [cip_seek] (lines 208-212). *)
Definition cip_seek (fp : handle) (offset whence : Z) : M (Z * handle) :=
  set_errno ESPIPE ;; ret (-1, fp).

(** An assignment to [err] that a stage of [cip_close] may make. *)
Definition assign (r : option Z) (err : Z) : Z :=
  match r with Some e => e | None => err end.

(** First stage of [cip_close] (lines 219-225): on a write handle,
    finalize and write out what the cipher still held.  Yields the value
    assigned to [err], if any, and the handle afterwards. *)
Definition close_flush (fp : handle) : M (option Z * handle) :=
  if is_write fp then
    '(nout, out, c') <- cipher_final (ctx fp) (bufsize fp) ;;
    let fp1 := with_ctx (with_buffer fp (store out (buffer fp))) c' in
    if 0 <? nout then
      w <- call (Call_hwrite (rawfp fp1) (take nout (buffer fp1)))
                (hwrite P (rawfp fp1) (take nout (buffer fp1))) ;;
      if negb (w =? nout) then e <- get_errno ;; ret (Some e, fp1)
      else ret (None, fp1)
    else if nout <? 0 then e <- get_errno ;; ret (Some e, fp1)
    else ret (None, fp1)
  else ret (None, fp).

(** Second stage (lines 227-233): release the cipher. *)
Definition close_release (fp : handle) : M (option Z) :=
  match crypto P with
  | HAVE_OPENSSL o =>
      '(r, _) <- call Call_cipher_release
                      (EVP_CIPHER_CTX_cleanup o (ctx fp)) ;;
      if r =? 0 then e <- ssl_errno o ;; ret (Some e) else ret None
  | HAVE_COMMONCRYPTO cc =>
      st <- call Call_cipher_release (CCCryptorRelease cc (ctx fp)) ;;
      if negb (is_kCCSuccess st) then ret (Some (cc_errno st)) else ret None
  end.

(** Third stage (line 235): close the underlying stream. *)
Definition close_raw (fp : handle) : M (option Z) :=
  r <- call (Call_hclose (rawfp fp)) (hclose P (rawfp fp)) ;;
  if r <? 0 then e <- get_errno ;; ret (Some e) else ret None.

(** [cip_close] (lines 214-239). *)
Definition cip_close (fp : handle) : M Z :=
  let err := 0 in
  '(r1, fp1) <- close_flush fp ;;
  let err := assign r1 err in
  r2 <- close_release fp1 ;;
  let err := assign r2 err in
  r3 <- close_raw fp1 ;;
  let err := assign r3 err in
  if negb (err =? 0) then set_errno err ;; ret (-1) else ret 0.

(** The members of a handle under construction that the [error:] block
    of [hopen_cip] looks at. *)
Record partial_handle : Type := mk_partial {
  p_rawfp : option H;
  p_buffer : option (list byte)
}.

(** The [error:] block of [hopen_cip] (lines 323-331); [fp] is [None]
    while no handle is allocated.  [free (NULL)] does nothing and is not
    logged. *)
Definition open_error (fp : option partial_handle) : M (option handle) :=
  save <- get_errno ;;
  match fp with
  | Some p =>
      match p_rawfp p with
      | Some h => call (Call_hclose_abruptly h) (hclose_abruptly P h)
      | None => ret tt
      end ;;
      match p_buffer p with
      | Some _ => call Call_free (free P)
      | None => ret tt
      end ;;
      call Call_hfile_destroy (hfile_destroy P)
  | None => ret tt
  end ;;
  set_errno save ;;
  ret None.

(** Key derivation and cipher initialisation in [hopen_cip] (lines
    290-318): the context, or [None] after [errno] is set for the jump to
    [error:]. *)
Definition cipher_setup (key : string) (iv : list byte) (accmode : Z)
  : M (option C) :=
  match crypto P with
  | HAVE_OPENSSL o =>
      '(r, secret) <- call Call_key_derivation
                           (PKCS5_PBKDF2_HMAC o key (-1) salt (len salt)
                                              1024 16) ;;
      if r =? 0 then e <- ssl_errno o ;; set_errno e ;; ret None
      else
        c0 <- call Call_cipher_ctx_init (EVP_CIPHER_CTX_init o) ;;
        let enc := accmode =? O_WRONLY in
        '(r, c) <- call (Call_cipher_init enc)
                        (EVP_CipherInit_ex o c0 secret iv (Z.b2z enc)) ;;
        if r =? 0 then e <- ssl_errno o ;; set_errno e ;; ret None
        else ret (Some c)
  | HAVE_COMMONCRYPTO cc =>
      '(st, secret) <- call Call_key_derivation
                            (CCKeyDerivationPBKDF cc key
                               (Z.of_nat (String.length key))
                               salt (len salt) 1024 16) ;;
      if negb (is_kCCSuccess st) then set_errno (cc_errno st) ;; ret None
      else
        let operation :=
          if accmode =? O_RDONLY then kCCDecrypt else kCCEncrypt in
        '(st, c) <- call (Call_cipher_init
                            (match operation with
                             | kCCEncrypt => true
                             | kCCDecrypt => false
                             end))
                         (CCCryptorCreateWithMode cc operation iv secret 16) ;;
        if negb (is_kCCSuccess st) then set_errno (cc_errno st) ;; ret None
        else ret (Some c)
  end.

(** The header step of [hopen_cip] (lines 276-288): the IV and the
    direction, or [None] for the jump to [error:].  The array [iv] is
    taken to hold what [hread] or the random source stored in it. *)
Definition open_header (raw : H) (accmode : Z)
  : M (option (list byte * bool)) :=
  if accmode =? O_RDONLY then
    r <- call (Call_hread raw IV_SIZE) (hread P raw IV_SIZE) ;;
    match r with
    | None => ret None
    | Some iv =>
        if len iv <? IV_SIZE then set_errno EDOM ;; ret None
        else ret (Some (iv, false))
    end
  else if accmode =? O_WRONLY then
    '(r, iv) <- gen_random IV_SIZE ;;
    if r <? 0 then ret None
    else
      w <- call (Call_hwrite raw iv) (hwrite P raw iv) ;;
      if negb (w =? IV_SIZE) then ret None
      else ret (Some (iv, true))
  else set_errno EINVAL ;; ret None.

(** [hopen_cip] (lines 254-332). *)
Definition hopen_cip (filename mode : string) : M (option handle) :=
  key <- call (Call_getenv "HTS_CIP_KEY") (getenv P "HTS_CIP_KEY") ;;
  match key with
  | None => set_errno EPERM ;; open_error None
  | Some key =>
      allocated <- call (Call_hfile_init mode) (hfile_init P mode 0) ;;
      if negb allocated then open_error None
      else
        let target := strip_cip_scheme filename in
        raw <- call (Call_hopen target mode) (hopen P target mode) ;;
        match raw with
        | None => open_error (Some (mk_partial None None))
        | Some raw =>
            let size := 8192 * BLOCKSIZE in
            block <- call (Call_malloc size) (malloc P size) ;;
            let fp := Some (mk_partial (Some raw) (Some block)) in
            let accmode := Z.land (hfile_oflags P mode) O_ACCMODE in
            hdr <- open_header raw accmode ;;
            match hdr with
            | None => open_error fp
            | Some (iv, writing) =>
                c <- cipher_setup key iv accmode ;;
                match c with
                | None => open_error fp
                | Some c =>
                    ret (Some (mk_hFILE_cip writing block size raw c))
                end
            end
        end
  end.

(** [cip_isremote] follows the sessions below: it needs nothing of the
    platform but [hisremote]. *)

End Backend.

(** ** Sessions, as a caller drives them *)

Section Sessions.

Context {S H C : Type} (P : platform S H C).

Abbreviation M := (M S H).
Abbreviation handle := (hFILE_cip H C).

(** Successive [write] calls on one handle; stops at the first call that
    does not return the length it was given. *)
Fixpoint cip_write_all (fuel : nat) (fp : handle) (chunks : list (list byte))
  : M (option handle) :=
  match chunks with
  | [] => ret (Some fp)
  | data :: rest =>
      r <- cip_write P fuel fp data ;;
      match r with
      | Some (k, fp') =>
          if k =? len data then cip_write_all fuel fp' rest else ret None
      | None => ret None
      end
  end.

(** Read to end of stream: [read (n)] until it returns 0.  [None] when a
    call fails or [rounds] calls did not reach the end. *)
Fixpoint read_to_eof (rounds fuel : nat) (fp : handle) (n : Z)
    (acc : list byte) : M (option (list byte * handle)) :=
  match rounds with
  | O => ret None
  | Datatypes.S rounds' =>
      r <- cip_read P fuel fp n ;;
      match r with
      | Some (k, out, fp') =>
          if k <? 0 then ret None
          else if k =? 0 then ret (Some (acc, fp'))
          else read_to_eof rounds' fuel fp' n (acc ++ out)
      | None => ret None
      end
  end.

(** Open for writing, write [data], close: the value [close] returned. *)
Definition write_session (fuel : nat) (filename : string) (data : list byte)
  : M (option Z) :=
  fp <- hopen_cip P filename "w" ;;
  match fp with
  | None => ret None
  | Some fp =>
      r <- cip_write_all fuel fp [data] ;;
      match r with
      | None => ret None
      | Some fp' => rc <- cip_close P fp' ;; ret (Some rc)
      end
  end.

(** Open for reading, read to end of stream in calls of [n] bytes,
    close: the bytes read. *)
Definition read_session (rounds fuel : nat) (filename : string) (n : Z)
  : M (option (list byte)) :=
  fp <- hopen_cip P filename "r" ;;
  match fp with
  | None => ret None
  | Some fp =>
      r <- read_to_eof rounds fuel fp n [] ;;
      match r with
      | None => ret None
      | Some (data, fp') => _ <- cip_close P fp' ;; ret (Some data)
      end
  end.

End Sessions.

(** ** Notions the specification is stated with *)

(** The error of the first stage that recorded one. *)
Definition first_recorded (r1 r2 r3 : option Z) : option Z :=
  match r1, r2, r3 with
  | Some e, _, _ => Some e
  | None, Some e, _ => Some e
  | None, None, r => r
  end.

(** The error of the last stage that recorded one. *)
Definition last_recorded (r1 r2 r3 : option Z) : option Z :=
  match r3, r2, r1 with
  | Some e, _, _ => Some e
  | None, Some e, _ => Some e
  | None, None, r => r
  end.

(** Counter mode, as far as lengths go: a successful update yields as
    many bytes as it was given, a successful finalisation none, and the
    random source as many bytes as were asked for (a non-negative
    number). *)
Definition counter_mode {S H C : Type} (P : platform S H C) : Prop :=
  match crypto P with
  | HAVE_OPENSSL o =>
      (forall c input e r out c' e',
          EVP_CipherUpdate o c input e = (r, out, c', e') ->
          r <> 0 -> len out = len input) /\
      (forall c e r out c' e',
          EVP_CipherFinal o c e = (r, out, c', e') -> r <> 0 -> out = []) /\
      (forall n e r bytes e',
          RAND_bytes o n e = (r, bytes, e') ->
          0 <= n -> 0 < r -> len bytes = n)
  | HAVE_COMMONCRYPTO cc =>
      (forall c input n e out c' e',
          CCCryptorUpdate cc c input n e = (kCCSuccess, out, c', e') ->
          len out = len input) /\
      (forall c n e out c' e',
          CCCryptorFinal cc c n e = (kCCSuccess, out, c', e') -> out = []) /\
      (forall n e bytes e',
          CCRandomGenerateBytes cc n e = (kCCSuccess, bytes, e') ->
          0 <= n -> len bytes = n)
  end.

(** The events logged between two worlds. *)
Definition events_since {S H : Type} (w w' : world S H) : list (event H) :=
  skipn (List.length (trace w)) (trace w').

(** [w'] extends the trace of [w] by calls that write [bytes]. *)
Definition writes {S H : Type} (w w' : world S H) (bytes : list byte) : Prop :=
  exists evs, trace w' = trace w ++ evs /\ written_bytes evs = bytes.


(** ** A reference platform

    An in-memory store for the underlying streams, a counter-mode cipher
    over an arbitrary keystream, and switches that make single
    operations fail.  It instantiates either crypto branch. *)

Module Mock.

(** [<errno.h>] and [<fcntl.h>] values the store uses. *)
Definition ENOENT : Z := 2.
Definition EIO : Z := 5.
Definition O_RDWR : Z := 2.
Definition O_CREAT : Z := 64.
Definition O_EXCL : Z := 128.
Definition O_TRUNC : Z := 512.
Definition O_APPEND : Z := 1024.
Definition O_CLOEXEC : Z := 524288.

(** The generic layer's [hfile_oflags]: the last of [r], [w], [a], [+]
    gives the access mode, the others add flags. *)
Fixpoint oflags_scan (mode : string) (rdwr flags : Z) : Z :=
  match mode with
  | EmptyString => Z.lor rdwr flags
  | String c rest =>
      if Ascii.eqb c "r" then oflags_scan rest O_RDONLY flags
      else if Ascii.eqb c "w" then
        oflags_scan rest O_WRONLY (Z.lor flags (Z.lor O_CREAT O_TRUNC))
      else if Ascii.eqb c "a" then
        oflags_scan rest O_WRONLY (Z.lor flags (Z.lor O_CREAT O_APPEND))
      else if Ascii.eqb c "+" then oflags_scan rest O_RDWR flags
      else if Ascii.eqb c "e" then oflags_scan rest rdwr (Z.lor flags O_CLOEXEC)
      else if Ascii.eqb c "x" then oflags_scan rest rdwr (Z.lor flags O_EXCL)
      else oflags_scan rest rdwr flags
  end.

Definition oflags (mode : string) : Z := oflags_scan mode 0 0.

(** Which operations fail. *)
Record faults : Type := mk_faults {
  read_fault : nat -> option Z;
  capacity : option nat;
  close_fault : option Z;
  final_fault : bool;
  release_fault : bool
}.

Definition no_faults : faults :=
  mk_faults (fun _ => None) None None false false.

(** A counter-mode context: key, IV and the number of bytes processed. *)
Record cipher : Type := mk_cipher {
  c_key : list byte;
  c_iv : list byte;
  c_offset : nat;
  c_encrypt : bool
}.

Record state : Type := mk_state {
  environment : option string;
  files : string -> option (list byte);
  position : nat;
  entropy : list byte;
  plan : faults
}.

Definition with_files (s : state) (name : string) (content : list byte)
    (pos : nat) : state :=
  mk_state (environment s)
           (fun n => if String.eqb n name then Some content else files s n)
           pos (entropy s) (plan s).

Definition with_position (s : state) (pos : nat) : state :=
  mk_state (environment s) (files s) pos (entropy s) (plan s).

Definition with_entropy (s : state) (l : list byte) : state :=
  mk_state (environment s) (files s) (position s) l (plan s).

Definition failing (e : ext state) (code : Z) : ext state :=
  Ext code (sys e).

Definition moving (e : ext state) (s : state) : ext state :=
  Ext (errno e) s.

(** Exclusive-or with the keystream from position [pos] on. *)
Fixpoint ctr (k : nat -> byte) (pos : nat) (data : list byte) : list byte :=
  match data with
  | [] => []
  | b :: rest => Z.lxor b (k pos) :: ctr k (Datatypes.S pos) rest
  end.

Section Functions.

(** The key-stretching function and the block cipher's keystream. *)
Variable kdf : string -> list byte -> list byte.
Variable keystream : list byte -> list byte -> nat -> byte.

Definition transform (c : cipher) (data : list byte) : list byte :=
  ctr (keystream (c_key c) (c_iv c)) (c_offset c) data.

Definition advanced (c : cipher) (n : nat) : cipher :=
  mk_cipher (c_key c) (c_iv c) (c_offset c + n) (c_encrypt c).

Definition m_getenv (name : string) : ext_op state (option string) :=
  fun e =>
    (if String.eqb name "HTS_CIP_KEY" then environment (sys e) else None, e).

Definition m_hopen (name mode : string) : ext_op state (option string) :=
  fun e =>
    let fl := oflags mode in
    if Z.land fl O_CREAT =? 0 then
      match files (sys e) name with
      | None => (None, failing e ENOENT)
      | Some _ => (Some name, moving e (with_position (sys e) 0))
      end
    else
      let content :=
        if Z.land fl O_TRUNC =? 0 then
          match files (sys e) name with Some l => l | None => [] end
        else [] in
      (Some name, moving e (with_files (sys e) name content 0)).

Definition m_hread (h : string) (n : Z) : ext_op state (option (list byte)) :=
  fun e =>
    match read_fault (plan (sys e)) (position (sys e)) with
    | Some code => (None, failing e code)
    | None =>
        match files (sys e) h with
        | None => (None, failing e EBADF)
        | Some content =>
            let data := firstn (Z.to_nat n) (skipn (position (sys e)) content) in
            (Some data,
             moving e (with_position (sys e)
                                     (position (sys e) + List.length data)))
        end
    end.

Definition m_hwrite (h : string) (data : list byte) : ext_op state Z :=
  fun e =>
    match files (sys e) h with
    | None => (-1, failing e EBADF)
    | Some content =>
        let room :=
          match capacity (plan (sys e)) with
          | Some cap => (cap - List.length content)%nat
          | None => List.length data
          end in
        if (room <? List.length data)%nat then
          let fits := firstn room data in
          (len fits,
           Ext ENOSPC (with_files (sys e) h (content ++ fits)
                                  (position (sys e))))
        else
          (len data,
           moving e (with_files (sys e) h (content ++ data)
                                (position (sys e))))
    end.

Definition m_hclose (h : string) : ext_op state Z :=
  fun e =>
    match close_fault (plan (sys e)) with
    | Some code => (-1, failing e code)
    | None => (0, e)
    end.

Definition m_random (n : Z) : ext_op state (option (list byte)) :=
  fun e =>
    let k := Z.to_nat n in
    if (List.length (entropy (sys e)) <? k)%nat then (None, e)
    else (Some (firstn k (entropy (sys e))),
          moving e (with_entropy (sys e) (skipn k (entropy (sys e))))).

Definition m_openssl : openssl_lib state cipher := {|
  ERR_get_error := fun e => (0, e);
  RAND_bytes := fun n e =>
    match m_random n e with
    | (Some bytes, e') => (1, bytes, e')
    | (None, e') => (0, [], e')
    end;
  PKCS5_PBKDF2_HMAC := fun key _ slt _ _ _ e => (1, kdf key slt, e);
  EVP_CIPHER_CTX_init := fun e => (mk_cipher [] [] 0 false, e);
  EVP_CipherInit_ex := fun _ secret iv enc e =>
    (1, mk_cipher secret iv 0 (negb (enc =? 0)), e);
  EVP_CipherUpdate := fun c input e =>
    (1, transform c input, advanced c (List.length input), e);
  EVP_CipherFinal := fun c e =>
    (if final_fault (plan (sys e)) then 0 else 1, [], c, e);
  EVP_CIPHER_CTX_cleanup := fun c e =>
    (if release_fault (plan (sys e)) then 0 else 1, c, e)
|}.

Definition m_commoncrypto : commoncrypto_lib state cipher := {|
  CCRandomGenerateBytes := fun n e =>
    match m_random n e with
    | (Some bytes, e') => (kCCSuccess, bytes, e')
    | (None, e') => (kCCRNGFailure, [], e')
    end;
  CCKeyDerivationPBKDF := fun key _ slt _ _ _ e =>
    (kCCSuccess, kdf key slt, e);
  CCCryptorCreateWithMode := fun op iv secret _ e =>
    (kCCSuccess,
     mk_cipher secret iv 0
               (match op with kCCEncrypt => true | kCCDecrypt => false end),
     e);
  CCCryptorUpdate := fun c input _ e =>
    (kCCSuccess, transform c input, advanced c (List.length input), e);
  CCCryptorFinal := fun c _ e =>
    (if final_fault (plan (sys e)) then kCCUnspecifiedError else kCCSuccess,
     [], c, e);
  CCCryptorRelease := fun c e =>
    (if release_fault (plan (sys e)) then kCCParamError else kCCSuccess, e)
|}.

Inductive backend : Type := OpenSSL | CommonCrypto.

Definition zeros (n : Z) : list byte := repeat 0 (Z.to_nat n).
Arguments zeros : simpl never.

Definition mock (b : backend) : platform state string cipher := {|
  getenv := m_getenv;
  hfile_init := fun _ _ e => (true, e);
  hfile_destroy := fun e => (tt, e);
  hfile_oflags := oflags;
  hopen := m_hopen;
  hread := m_hread;
  hwrite := m_hwrite;
  hclose := m_hclose;
  hclose_abruptly := fun _ e => (tt, e);
  malloc := fun n e => (zeros n, e);
  free := fun e => (tt, e);
  crypto := match b with
            | OpenSSL => HAVE_OPENSSL m_openssl
            | CommonCrypto => HAVE_COMMONCRYPTO m_commoncrypto
            end
|}.

End Functions.

(** A world that has seen no call yet. *)
Definition boot (s : state) : world state string := World (Ext 0 s) [].

(** A store with one secret, the given files and random bytes. *)
Definition setup (secret : option string)
    (fs : string -> option (list byte)) (rnd : list byte) (f : faults)
  : state :=
  mk_state secret fs 0 rnd f.

(** The store is sound (a secret is configured, nothing is set to fail)
    and holds [content] under the name [h], with the read position at
    [pos]. *)
Definition stores (e : ext state) (secret h : string) (content : list byte)
    (pos : nat) : Prop :=
  environment (sys e) = Some secret /\
  plan (sys e) = no_faults /\
  files (sys e) h = Some content /\
  position (sys e) = pos.

End Mock.

(** The values the three stages of [cip_close] assign to [err]. *)
Definition close_stages {S H C : Type} (P : platform S H C)
    (fp : hFILE_cip H C) (w : world S H)
  : option Z * option Z * option Z :=
  let '(r1, fp1, w1) := close_flush P fp w in
  let '(r2, w2) := close_release P fp1 w1 in
  let '(r3, _) := close_raw P fp1 w2 in
  (r1, r2, r3).

(** A stage that records an error records a non-zero one. *)
Definition records_error (r : option Z) : Prop :=
  forall e, r = Some e -> e <> 0.

(** The claim that [cip_close] reports the error of the first stage that
    recorded one. *)
Definition close_reports_first {S H C : Type} (P : platform S H C)
    (fp : hFILE_cip H C) (w : world S H) : Prop :=
  let '(r1, r2, r3) := close_stages P fp w in
  forall e, first_recorded r1 r2 r3 = Some e ->
            errno (w_ext (snd (cip_close P fp w))) = e.

(** ** Concrete scenarios on the reference platform *)

Module Examples.

Definition kdf (key : string) (slt : list byte) : list byte :=
  map (fun x => Z.lxor x (Z.of_nat (String.length key))) slt.

Definition keystream (key iv : list byte) (i : nat) : byte :=
  Z.lxor (nth (i mod 8) key 0) (nth (i mod 16) iv 0 + Z.of_nat i) mod 256.

Definition reference (b : Mock.backend)
  : platform Mock.state string Mock.cipher :=
  Mock.mock kdf keystream b.

Definition entropy : list byte :=
  [17; 34; 51; 68; 85; 102; 119; 136; 153; 170; 187; 204; 221; 238; 255; 0;
   9; 8; 7].

Definition no_file : string -> option (list byte) := fun _ => None.

Definition one_file (name : string) (content : list byte)
  : string -> option (list byte) :=
  fun n => if String.eqb n name then Some content else None.

(** A configured secret and an empty store. *)
Definition fresh : world Mock.state string :=
  Mock.boot (Mock.setup (Some "secret"%string) no_file entropy Mock.no_faults).

(** No secret configured. *)
Definition unconfigured : world Mock.state string :=
  Mock.boot (Mock.setup None (one_file "reads.bam" [1; 2; 3]) entropy
                        Mock.no_faults).

(** A target of three bytes. *)
Definition short_target : world Mock.state string :=
  Mock.boot (Mock.setup (Some "secret"%string) (one_file "reads.bam" [1; 2; 3])
                        entropy Mock.no_faults).

(** Finalisation and the underlying close both fail. *)
Definition failing_close : world Mock.state string :=
  Mock.boot (Mock.setup (Some "secret"%string) (one_file "reads.bam" [])
                        entropy
                        (Mock.mk_faults (fun _ => None) None (Some Mock.EIO)
                                        true false)).

(** The read position is at the end of a target of three bytes. *)
Definition at_end : world Mock.state string :=
  Mock.boot (Mock.mk_state (Some "secret"%string)
                           (one_file "reads.bam" [1; 2; 3]) 3 entropy
                           Mock.no_faults).

(** Every read fails. *)
Definition failing_read : world Mock.state string :=
  Mock.boot (Mock.setup (Some "secret"%string)
                        (one_file "reads.bam" [1; 2; 3; 4; 5]) entropy
                        (Mock.mk_faults (fun _ => Some Mock.EIO)
                                        None None false false)).


(** A handle on [reads.bam] with a scratch block of four bytes. *)
Definition handle (writing : bool) : hFILE_cip string Mock.cipher :=
  mk_hFILE_cip writing (Mock.zeros 4) 4 "reads.bam"%string
               (Mock.mk_cipher [1; 2] [3; 4] 0 writing).

End Examples.

(** ** Further notions: resources, bounds, the remaining entry point *)

(** Calls that give a resource back. *)
Definition is_release_call {H : Type} (ev : event H) : bool :=
  match ev with
  | Call_hclose _ | Call_hclose_abruptly _ | Call_free
  | Call_hfile_destroy => true
  | _ => false
  end.

Definition keeps_resources {H : Type} (ev : event H) : bool :=
  negb (is_release_call ev).

(** Calls through which bytes leave for the underlying stream or the
    cipher is finalised. *)
Definition is_flush_call {H : Type} (ev : event H) : bool :=
  match ev with
  | Call_hwrite _ _ | Call_cipher_final => true
  | _ => false
  end.

(** [w'] extends the trace of [w] by calls that all satisfy [ok]. *)
Definition calls_only {S H : Type} (ok : event H -> bool) (w w' : world S H)
  : Prop :=
  exists evs, trace w' = trace w ++ evs /\ forallb ok evs = true.

(** The contract of [hread]: it stores at most the number of bytes asked
    for. *)
Definition bounded_reads {S H C : Type} (P : platform S H C) : Prop :=
  forall h n e data e',
    0 <= n -> hread P h n e = (Some data, e') -> len data <= n.

(** A string without an embedded NUL, as every C string literal is. *)
Fixpoint no_nul (s : string) : bool :=
  match s with
  | EmptyString => true
  | String c r => negb (Ascii.eqb c Ascii.zero) && no_nul r
  end.

(** [cip_isremote] (lines 334-337); [hisremote] belongs to the generic
    layer. *)
Definition cip_isremote (hisremote : string -> Z) (filename : string) : Z :=
  hisremote (strip_cip_scheme filename).

(** Open for writing, write the pieces one call each, close: the value
    [close] returned. *)
Definition write_session_pieces {S H C : Type} (P : platform S H C)
    (fuel : nat) (filename : string) (pieces : list (list byte))
  : M S H (option Z) :=
  fp <- hopen_cip P filename "w" ;;
  match fp with
  | None => ret None
  | Some fp =>
      r <- cip_write_all P fuel fp pieces ;;
      match r with
      | None => ret None
      | Some fp' => rc <- cip_close P fp' ;; ret (Some rc)
      end
  end.

(** ** hfile_mmap: the memory-mapped backend

    The transfer functions of [hfile_mmap.c].  The mapping is the list
    of its bytes; [size_t] arithmetic wraps as in [size_sub]. *)

Module Mmap.

(** [<stdio.h>] origins. *)
Definition SEEK_SET : Z := 0.
Definition SEEK_CUR : Z := 1.
Definition SEEK_END : Z := 2.

Definition size_add (a b : Z) : Z := (a + b) mod SIZE_MODULUS.

(** Conversion of a [size_t] to [ssize_t] or [off_t]. *)
Definition to_signed (x : Z) : Z :=
  if x <? 2 ^ 63 then x else x - SIZE_MODULUS.

(** [hFILE_mmap] without its [base] member. *)
Record hFILE_mmap : Type := mk_hFILE_mmap {
  buffer : list byte;
  length : Z;
  pos : Z;
  fd : Z
}.

(** [fp->buffer + at], for [n] bytes. *)
Definition region (fp : hFILE_mmap) (at_ n : Z) : list byte :=
  take n (drop at_ (buffer fp)).

(** [memcpy (fp->buffer + at, data, n)]. *)
Definition patch (block : list byte) (at_ n : Z) (data : list byte)
  : list byte :=
  take at_ block ++ take n data ++ drop (at_ + n) block.

(** [mmap_read] (lines 40-48): the value returned, the bytes stored in
    the caller's buffer and the handle afterwards. *)
Definition mmap_read (fp : hFILE_mmap) (nbytes : Z)
  : Z * list byte * hFILE_mmap :=
  let avail := size_sub (length fp) (pos fp) in
  let nbytes := if avail <? nbytes then avail else nbytes in
  (to_signed nbytes,
   region fp (pos fp) nbytes,
   mk_hFILE_mmap (buffer fp) (length fp) (size_add (pos fp) nbytes) (fd fp)).

(** [mmap_write] (lines 50-58); [data] is the caller's buffer, so
    [nbytes] is its length. *)
Definition mmap_write (fp : hFILE_mmap) (data : list byte)
  : Z * hFILE_mmap :=
  let nbytes := len data in
  let avail := size_sub (length fp) (pos fp) in
  let nbytes := if avail <? nbytes then avail else nbytes in
  (to_signed nbytes,
   mk_hFILE_mmap (patch (buffer fp) (pos fp) nbytes data) (length fp)
                 (size_add (pos fp) nbytes) (fd fp)).

(** [mmap_seek] (lines 60-81), with [errno] passed through: the value
    returned, the handle and [errno] afterwards. *)
Definition mmap_seek (fp : hFILE_mmap) (offset whence : Z) (errno : Z)
  : Z * hFILE_mmap * Z :=
  let absoffset := (if 0 <=? offset then offset else - offset)
                     mod SIZE_MODULUS in
  let origin :=
    if whence =? SEEK_SET then Some 0
    else if whence =? SEEK_CUR then Some (pos fp)
    else if whence =? SEEK_END then Some (length fp)
    else None in
  match origin with
  | None => (-1, fp, EINVAL)
  | Some origin =>
      if ((offset <? 0) && (origin <? absoffset))
         || ((0 <=? offset) && (size_sub (length fp) origin <? absoffset))
      then (-1, fp, EINVAL)
      else
        let fp' := mk_hFILE_mmap (buffer fp) (length fp)
                                 (size_add origin (offset mod SIZE_MODULUS))
                                 (fd fp) in
        (to_signed (pos fp'), fp', errno)
  end.

(** What [hopen_mmap] establishes: the position is inside the mapping,
    whose size is the file size, an [off_t]. *)
Definition well_formed (fp : hFILE_mmap) : Prop :=
  0 <= pos fp <= length fp /\ length fp = len (buffer fp) /\
  length fp < 2 ^ 63.

End Mmap.

(** ** Further scenarios *)

Module MoreExamples.

(** The reference platform with an allocator that has no memory left for
    the handle. *)
Definition no_memory : platform Mock.state string Mock.cipher :=
  let P := Examples.reference Mock.OpenSSL in
  {| getenv := getenv P;
     hfile_init := fun _ _ e => (false, Ext ENOMEM (sys e));
     hfile_destroy := hfile_destroy P;
     hfile_oflags := hfile_oflags P;
     hopen := hopen P;
     hread := hread P;
     hwrite := hwrite P;
     hclose := hclose P;
     hclose_abruptly := hclose_abruptly P;
     malloc := malloc P;
     free := free P;
     crypto := crypto P |}.

(** The reference platform with a CommonCrypto whose key derivation and
    whose update fail. *)
Definition broken_cipher : platform Mock.state string Mock.cipher :=
  let P := Examples.reference Mock.CommonCrypto in
  let cc := Mock.m_commoncrypto Examples.kdf Examples.keystream in
  {| getenv := getenv P;
     hfile_init := hfile_init P;
     hfile_destroy := hfile_destroy P;
     hfile_oflags := hfile_oflags P;
     hopen := hopen P;
     hread := hread P;
     hwrite := hwrite P;
     hclose := hclose P;
     hclose_abruptly := hclose_abruptly P;
     malloc := malloc P;
     free := free P;
     crypto :=
       HAVE_COMMONCRYPTO
         {| CCRandomGenerateBytes := CCRandomGenerateBytes cc;
            CCKeyDerivationPBKDF :=
              fun _ _ _ _ _ _ e => (kCCParamError, [], e);
            CCCryptorCreateWithMode := CCCryptorCreateWithMode cc;
            CCCryptorUpdate :=
              fun c _ _ e => (kCCAlignmentError, [], c, e);
            CCCryptorFinal := CCCryptorFinal cc;
            CCCryptorRelease := CCCryptorRelease cc |} |}.

(** The reference platform with a CommonCrypto whose update stores two
    bytes and then fails. *)
Definition storing_cipher : platform Mock.state string Mock.cipher :=
  let P := Examples.reference Mock.CommonCrypto in
  let cc := Mock.m_commoncrypto Examples.kdf Examples.keystream in
  {| getenv := getenv P;
     hfile_init := hfile_init P;
     hfile_destroy := hfile_destroy P;
     hfile_oflags := hfile_oflags P;
     hopen := hopen P;
     hread := hread P;
     hwrite := hwrite P;
     hclose := hclose P;
     hclose_abruptly := hclose_abruptly P;
     malloc := malloc P;
     free := free P;
     crypto :=
       HAVE_COMMONCRYPTO
         {| CCRandomGenerateBytes := CCRandomGenerateBytes cc;
            CCKeyDerivationPBKDF := CCKeyDerivationPBKDF cc;
            CCCryptorCreateWithMode := CCCryptorCreateWithMode cc;
            CCCryptorUpdate :=
              fun c _ _ e => (kCCAlignmentError, [99; 98], c, e);
            CCCryptorFinal := CCCryptorFinal cc;
            CCCryptorRelease := CCCryptorRelease cc |} |}.

(** A target of five bytes, the read position at its start. *)
Definition five_bytes : world Mock.state string :=
  Mock.boot (Mock.setup (Some "secret"%string)
                        (Examples.one_file "reads.bam" [1; 2; 3; 4; 5])
                        Examples.entropy Mock.no_faults).

(** A stand-in for [hisremote]: names of the [http:] scheme are
    remote. *)
Definition is_http (name : string) : Z :=
  if prefix "http:" name then 1 else 0.

(** A mapping of five bytes with the position at offset 2. *)
Definition mapping : Mmap.hFILE_mmap :=
  Mmap.mk_hFILE_mmap [10; 20; 30; 40; 50] 5 2 3.

End MoreExamples.

(** * Running the monad *)

Ltac run := unfold bind, call, ret, get_errno, set_errno; simpl.

Lemma events_since_app {S H : Type} (w : world S H) (e : ext S)
    (evs : list (event H)) :
  events_since w (World e (trace w ++ evs)) = evs.
Proof.
  unfold events_since. simpl.
  rewrite skipn_app, skipn_all, Nat.sub_diag. reflexivity.
Qed.

Ltac flatten_trace := rewrite <- ?app_assoc; simpl app.

Ltac writes_now :=
  match goal with
  | |- writes ?w _ _ =>
      eexists; split;
      [cbn [trace]; rewrite <- ?app_assoc; reflexivity
      |simpl; rewrite ?app_nil_r; reflexivity]
  end.

Section BackendFacts.

Context {S H C : Type} (P : platform S H C).

(** ** Seek *)

(** C6.  [cip_seek] fails whatever the handle, the offset and [whence]:
    it returns -1 with [errno] set to [ESPIPE].  The handle (direction,
    scratch block, cipher context) is returned as it was, the state
    behind the platform, which holds the position of the underlying
    stream, is untouched, and no external call is made. *)
Theorem cip_seek_rejected (fp : hFILE_cip H C) (offset whence : Z)
    (w : world S H) :
  cip_seek fp offset whence w
  = (-1, fp, World (Ext ESPIPE (sys (w_ext w))) (trace w)).
Proof. reflexivity. Qed.

(** ** Open *)

(** C4.  When [getenv] finds no [HTS_CIP_KEY], [hopen_cip] returns no
    handle, leaves [errno] at [EPERM], and the lookup is its only
    external call: no underlying stream is opened, read, written or
    closed. *)
Theorem hopen_cip_missing_secret (filename mode : string) (w : world S H)
    (e1 : ext S) :
  getenv P "HTS_CIP_KEY" (w_ext w) = (None, e1) ->
  let r := hopen_cip P filename mode w in
  fst r = None /\
  errno (w_ext (snd r)) = EPERM /\
  events_since w (snd r) = [Call_getenv "HTS_CIP_KEY"] /\
  existsb is_stream_call (events_since w (snd r)) = false.
Proof.
  intros Hkey. unfold hopen_cip, open_error. run. rewrite Hkey. simpl.
  rewrite events_since_app. auto.
Qed.

(** C5.  A read-only open whose header read yields fewer than 16 bytes
    (none included) returns no handle and leaves [errno] at [EDOM].  The
    underlying stream is closed abruptly and the handle released; no key
    is derived and no cipher context is created. *)
Theorem hopen_cip_truncated_header (filename mode key : string)
    (w : world S H) (e1 e2 e3 e4 e5 : ext S) (raw : H)
    (block header : list byte) :
  getenv P "HTS_CIP_KEY" (w_ext w) = (Some key, e1) ->
  hfile_init P mode 0 e1 = (true, e2) ->
  hopen P (strip_cip_scheme filename) mode e2 = (Some raw, e3) ->
  malloc P (8192 * BLOCKSIZE) e3 = (block, e4) ->
  Z.land (hfile_oflags P mode) O_ACCMODE = O_RDONLY ->
  hread P raw IV_SIZE e4 = (Some header, e5) ->
  len header < IV_SIZE ->
  let r := hopen_cip P filename mode w in
  fst r = None /\
  errno (w_ext (snd r)) = EDOM /\
  events_since w (snd r)
  = [Call_getenv "HTS_CIP_KEY"; Call_hfile_init mode;
     Call_hopen (strip_cip_scheme filename) mode;
     Call_malloc (8192 * BLOCKSIZE); Call_hread raw IV_SIZE;
     Call_hclose_abruptly raw; Call_free; Call_hfile_destroy] /\
  existsb is_cipher_call (events_since w (snd r)) = false.
Proof.
  intros Hkey Hinit Hopen Hmalloc Hmode Hread Hshort r. subst r.
  apply Z.ltb_lt in Hshort.
  change (8192 * BLOCKSIZE) with 131072 in *.
  unfold hopen_cip, open_header, open_error. run.
  rewrite Hkey. simpl. rewrite Hinit. simpl. rewrite Hopen. simpl.
  rewrite Hmalloc, Hmode. simpl. rewrite Hread. simpl. rewrite Hshort. simpl.
  destruct (hclose_abruptly P raw _) as [[] x1]. simpl.
  destruct (free P x1) as [[] x2]. simpl.
  destruct (hfile_destroy P x2) as [[] x3]. simpl.
  flatten_trace. rewrite events_since_app. auto.
Qed.

(** C10.  An open whose access mode is neither [O_RDONLY] nor
    [O_WRONLY] gets as far as opening the underlying stream and
    allocating the scratch block, then returns no handle with [errno]
    at [EINVAL]: the stream is closed abruptly, the block and the handle
    are freed, nothing is read or written, and no key is derived and no
    cipher context created. *)
Theorem hopen_cip_bad_mode (filename mode key : string)
    (w : world S H) (e1 e2 e3 e4 : ext S) (raw : H) (block : list byte) :
  getenv P "HTS_CIP_KEY" (w_ext w) = (Some key, e1) ->
  hfile_init P mode 0 e1 = (true, e2) ->
  hopen P (strip_cip_scheme filename) mode e2 = (Some raw, e3) ->
  malloc P (8192 * BLOCKSIZE) e3 = (block, e4) ->
  Z.land (hfile_oflags P mode) O_ACCMODE <> O_RDONLY ->
  Z.land (hfile_oflags P mode) O_ACCMODE <> O_WRONLY ->
  let r := hopen_cip P filename mode w in
  fst r = None /\
  errno (w_ext (snd r)) = EINVAL /\
  events_since w (snd r)
  = [Call_getenv "HTS_CIP_KEY"; Call_hfile_init mode;
     Call_hopen (strip_cip_scheme filename) mode;
     Call_malloc (8192 * BLOCKSIZE);
     Call_hclose_abruptly raw; Call_free; Call_hfile_destroy] /\
  existsb is_cipher_call (events_since w (snd r)) = false.
Proof.
  intros Hkey Hinit Hopen Hmalloc Hrd Hwr r. subst r.
  apply Z.eqb_neq in Hrd, Hwr.
  change (8192 * BLOCKSIZE) with 131072 in *.
  unfold hopen_cip, open_header, open_error. run.
  rewrite Hkey. simpl. rewrite Hinit. simpl. rewrite Hopen. simpl.
  rewrite Hmalloc, Hrd, Hwr. simpl.
  destruct (hclose_abruptly P raw _) as [[] x1]. simpl.
  destruct (free P x1) as [[] x2]. simpl.
  destruct (hfile_destroy P x2) as [[] x3]. simpl.
  flatten_trace. rewrite events_since_app. auto.
Qed.

(** ** Close *)

Lemma cc_errno_failure (st : CCStatus) :
  is_kCCSuccess st = false -> cc_errno st <> 0.
Proof.
  destruct st; simpl; intros E; try discriminate;
    unfold EINVAL, ENOSPC, ENOMEM, ERANGE, ENOSYS, EOVERFLOW, EBADF; lia.
Qed.

Lemma close_release_records_error (fp : hFILE_cip H C) (w : world S H) :
  records_error (fst (close_release P fp w)).
Proof.
  unfold close_release, records_error, ssl_errno. run.
  destruct (crypto P) as [o|cc].
  - destruct (EVP_CIPHER_CTX_cleanup o (ctx fp) (w_ext w)) as [[r c] e1].
    simpl. destruct (r =? 0); simpl.
    + destruct (ERR_get_error o e1). simpl. intros x E.
      injection E as <-. unfold EINVAL. lia.
    + discriminate.
  - destruct (CCCryptorRelease cc (ctx fp) (w_ext w)) as [st e1]. simpl.
    destruct (is_kCCSuccess st) eqn:Est; simpl.
    + discriminate.
    + intros x E. injection E as <-. now apply cc_errno_failure.
Qed.

(** What makes the first and the third stage record an error. *)
Lemma close_flush_read_handle (fp : hFILE_cip H C) (w : world S H) :
  is_write fp = false -> close_flush P fp w = (None, fp, w).
Proof. intros Hr. unfold close_flush. now rewrite Hr. Qed.

Lemma close_raw_records (fp : hFILE_cip H C) (w : world S H) (r : Z)
    (e : ext S) :
  hclose P (rawfp fp) (w_ext w) = (r, e) ->
  fst (close_raw P fp w) = if r <? 0 then Some (errno e) else None.
Proof.
  intros Hc. unfold close_raw. run. rewrite Hc. simpl.
  destruct (r <? 0); reflexivity.
Qed.

(** C1, as the code has it.  Whatever the three stages of [cip_close]
    record, provided a failing flush and a failing underlying close
    leave a non-zero [errno]: the call returns 0 exactly when no stage
    recorded an error, and otherwise returns -1 with [errno] set to the
    error of the last stage that recorded one.  So when the flush and
    the underlying close both fail, it is the error of the close that is
    reported. *)
Theorem cip_close_reports_last (fp : hFILE_cip H C) (w : world S H)
    (r1 r2 r3 : option Z) :
  close_stages P fp w = (r1, r2, r3) ->
  records_error r1 ->
  records_error r3 ->
  let r := cip_close P fp w in
  (fst r = 0 <-> r1 = None /\ r2 = None /\ r3 = None) /\
  (forall e, last_recorded r1 r2 r3 = Some e ->
             fst r = -1 /\ errno (w_ext (snd r)) = e).
Proof.
  intros Hst N1 N3 r. subst r.
  unfold close_stages in Hst. unfold cip_close, bind.
  destruct (close_flush P fp w) as [[q1 fp1] w1].
  pose proof (close_release_records_error fp1 w1) as N2.
  destruct (close_release P fp1 w1) as [q2 w2].
  destruct (close_raw P fp1 w2) as [q3 w3].
  injection Hst as -> -> ->. simpl in N2.
  unfold records_error in *.
  destruct r3 as [e3|]; [specialize (N3 e3 eq_refl)|];
    (destruct r2 as [e2|]; [specialize (N2 e2 eq_refl)|]);
    (destruct r1 as [e1|]; [specialize (N1 e1 eq_refl)|]);
    simpl; unfold set_errno, ret;
    repeat match goal with
           | Hn : ?x <> 0 |- context [?x =? 0] =>
               rewrite (proj2 (Z.eqb_neq x 0) Hn)
           end; simpl;
    (split; [split; [intros A; try discriminate A; auto
                    |intros (A1 & A2 & A3); try discriminate; auto]
            |intros e E; try discriminate E; injection E as <-; auto]).
Qed.

(** ** Read *)

(** C7.  At any iteration of the loop of [cip_read], that is for any
    count and bytes accumulated so far: when the underlying read stores
    no byte the call returns the count accumulated, with the bytes
    produced so far, and [errno] as the read left it; when the
    underlying read fails the call returns -1 at once, whatever had been
    accumulated, and makes no further call. *)
Theorem cip_read_eof_and_failure (fuel : nat) (fp : hFILE_cip H C)
    (nbytes total : Z) (out : list byte) (w : world S H) :
  0 < nbytes ->
  let n := if nbytes <? bufsize fp then nbytes else bufsize fp in
  (forall e,
      hread P (rawfp fp) n (w_ext w) = (Some [], e) ->
      cip_read_loop P (Datatypes.S fuel) fp nbytes total out w
      = (Some (total, out, fp),
         World e (trace w ++ [Call_hread (rawfp fp) n]))) /\
  (forall e,
      hread P (rawfp fp) n (w_ext w) = (None, e) ->
      cip_read_loop P (Datatypes.S fuel) fp nbytes total out w
      = (Some (-1, out, fp),
         World e (trace w ++ [Call_hread (rawfp fp) n]))).
Proof.
  intros Hpos n. apply Z.ltb_lt in Hpos.
  split; intros e Hread; simpl; rewrite Hpos; run; fold n;
    rewrite Hread; simpl; [destruct fp|]; reflexivity.
Qed.

(** ** Write *)

Lemma len_nonneg (l : list byte) : 0 <= len l.
Proof. unfold len. lia. Qed.

Lemma take_len_store (produced block : list byte) :
  take (len produced) (store produced block) = produced.
Proof.
  unfold take, store, len. rewrite Nat2Z.id.
  rewrite firstn_app, Nat.sub_diag, firstn_all. simpl. apply app_nil_r.
Qed.

Lemma len_drop (n : Z) (l : list byte) :
  0 <= n <= len l -> len (drop n l) = len l - n.
Proof.
  unfold len, drop. intros Hn. rewrite length_skipn. lia.
Qed.

(** The helper returns -1 or the number of bytes it produced. *)
Lemma cipher_update_result (c c' : C) (input produced : list byte) (nout : Z)
    (w w1 : world S H) :
  cipher_update P c input w = (nout, produced, c', w1) ->
  nout = -1 \/ nout = len produced.
Proof.
  unfold cipher_update, ssl_errno. run.
  destruct (crypto P) as [o|cc].
  - destruct (EVP_CipherUpdate o c input (w_ext w)) as [[[r out] c1] e1].
    simpl. destruct (r =? 0); simpl.
    + destruct (ERR_get_error o e1). simpl. intros E.
      injection E as <- _ _ _. now left.
    + intros E. injection E as <- <- _ _. now right.
  - destruct (CCCryptorUpdate cc c input (len input) (w_ext w))
      as [[[st out] c1] e1].
    simpl. destruct (is_kCCSuccess st); simpl.
    + intros E. injection E as <- <- _ _. now right.
    + intros E. injection E as <- _ _ _. now left.
Qed.


Lemma cip_write_loop_step (fuel : nat) (fp : hFILE_cip H C)
    (data produced : list byte) (total nout k : Z) (c' : C)
    (w w1 : world S H) (e2 : ext S) :
  0 < len data ->
  let n := if len data <? bufsize fp then len data else bufsize fp in
  let fp1 := with_ctx (with_buffer fp (store produced (buffer fp))) c' in
  let w2 := World e2 (trace w1 ++ [Call_hwrite (rawfp fp) produced]) in
  cipher_update P (ctx fp) (take n data) w = (nout, produced, c', w1) ->
  0 <= nout ->
  hwrite P (rawfp fp) produced (w_ext w1) = (k, e2) ->
  cip_write_loop P (Datatypes.S fuel) fp data total w
  = if k =? nout
    then cip_write_loop P fuel fp1 (drop n data) (total + n) w2
    else (Some (-1, fp1), w2).
Proof.
  intros Hpos n fp1 w2 Hup Hnn Hw.
  destruct (cipher_update_result _ _ _ _ _ _ _ Hup) as [->| ->]; [lia|].
  apply Z.ltb_lt in Hpos.
  cbn [cip_write_loop]. rewrite Hpos. unfold bind at 1. fold n. rewrite Hup.
  assert (Hn : (len produced <? 0) = false) by (apply Z.ltb_ge; lia).
  rewrite Hn. unfold bind at 1. unfold call at 1.
  cbn [rawfp buffer with_ctx with_buffer].
  rewrite take_len_store, Hw.
  destruct (k =? len produced); reflexivity.
Qed.


(** ** What reaches the underlying stream *)

Lemma written_bytes_app (tr tr' : list (event H)) :
  written_bytes (tr ++ tr') = written_bytes tr ++ written_bytes tr'.
Proof.
  induction tr as [|ev tr IH]; [reflexivity|].
  destruct ev; simpl; rewrite ?IH, ?app_assoc; reflexivity.
Qed.


Lemma writes_trans (w1 w2 w3 : world S H) (a b : list byte) :
  writes w1 w2 a -> writes w2 w3 b -> writes w1 w3 (a ++ b).
Proof.
  intros (t1 & E1 & B1) (t2 & E2 & B2). exists (t1 ++ t2).
  rewrite E2, E1, app_assoc, written_bytes_app, B1, B2. auto.
Qed.

Lemma writes_events_since (w w' : world S H) (bytes : list byte) :
  writes w w' bytes -> written_bytes (events_since w w') = bytes.
Proof.
  intros (t & E & B). unfold events_since. rewrite E.
  rewrite skipn_app, skipn_all, Nat.sub_diag. exact B.
Qed.

Lemma gen_random_writes (n : Z) (w : world S H) :
  0 <= n ->
  writes w (snd (gen_random P n w)) [] /\
  (counter_mode P -> 0 <= fst (fst (gen_random P n w)) ->
   len (snd (fst (gen_random P n w))) = n).
Proof.
  intros Hn. unfold gen_random, counter_mode, ssl_errno. run.
  destruct (crypto P) as [o|cc].
  - destruct (RAND_bytes o n (w_ext w)) as [[r bytes] e1] eqn:E. simpl.
    destruct (r <=? 0) eqn:Hr; simpl.
    + destruct (ERR_get_error o e1). simpl. split; [writes_now|]. lia.
    + split; [writes_now|]. intros (_ & _ & HR) _.
      apply Z.leb_gt in Hr. exact (HR _ _ _ _ _ E Hn Hr).
  - destruct (CCRandomGenerateBytes cc n (w_ext w)) as [[st bytes] e1] eqn:E.
    simpl. destruct (is_kCCSuccess st) eqn:Hs; simpl.
    + split; [writes_now|]. intros (_ & _ & HR) _.
      destruct st; try discriminate. exact (HR _ _ _ _ E Hn).
    + split; [writes_now|]. lia.
Qed.

Lemma cipher_update_writes (c : C) (input : list byte) (w : world S H) :
  writes w (snd (cipher_update P c input w)) [] /\
  (counter_mode P -> 0 <= fst (fst (fst (cipher_update P c input w))) ->
   len (snd (fst (fst (cipher_update P c input w)))) = len input).
Proof.
  unfold cipher_update, counter_mode, ssl_errno. run.
  destruct (crypto P) as [o|cc].
  - destruct (EVP_CipherUpdate o c input (w_ext w)) as [[[r out] c1] e1] eqn:E.
    simpl. destruct (r =? 0) eqn:Hr; simpl.
    + destruct (ERR_get_error o e1). simpl. split; [writes_now|]. lia.
    + split; [writes_now|]. intros (HU & _ & _) _.
      apply Z.eqb_neq in Hr. exact (HU _ _ _ _ _ _ _ E Hr).
  - destruct (CCCryptorUpdate cc c input (len input) (w_ext w))
      as [[[st out] c1] e1] eqn:E.
    simpl. destruct (is_kCCSuccess st) eqn:Hs; simpl.
    + split; [writes_now|]. intros (HU & _ & _) _.
      destruct st; try discriminate. exact (HU _ _ _ _ _ _ _ E).
    + split; [writes_now|]. lia.
Qed.


Lemma cipher_setup_writes (key : string) (iv : list byte) (accmode : Z)
    (w : world S H) :
  writes w (snd (cipher_setup P key iv accmode w)) [].
Proof.
  unfold cipher_setup, ssl_errno. run.
  destruct (crypto P) as [o|cc].
  - destruct (PKCS5_PBKDF2_HMAC o key (-1) salt (len salt) 1024 16 (w_ext w))
      as [[r secret] e1].
    simpl. destruct (r =? 0); simpl.
    + destruct (ERR_get_error o e1). simpl. writes_now.
    + destruct (EVP_CIPHER_CTX_init o e1) as [c0 e2]. simpl.
      destruct (EVP_CipherInit_ex o c0 secret iv _ e2) as [[r' c1] e3].
      simpl. destruct (r' =? 0); simpl.
      * destruct (ERR_get_error o e3). simpl. writes_now.
      * writes_now.
  - destruct (CCKeyDerivationPBKDF cc key _ salt (len salt) 1024 16 (w_ext w))
      as [[st secret] e1].
    simpl. destruct (is_kCCSuccess st); simpl.
    + destruct (CCCryptorCreateWithMode cc _ iv secret 16 e1) as [[st' c1] e2].
      simpl. destruct (is_kCCSuccess st'); simpl; writes_now.
    + writes_now.
Qed.

Lemma open_error_none (fp : option (partial_handle (H:=H)))
    (w : world S H) :
  fst (open_error P fp w) = None.
Proof.
  unfold open_error. run.
  destruct fp as [[[h|] [b|]]|]; simpl;
    repeat match goal with
           | |- context [hclose_abruptly P ?h ?e] =>
               destruct (hclose_abruptly P h e) as [[] ?]; simpl
           | |- context [free P ?e] => destruct (free P e) as [[] ?]; simpl
           | |- context [hfile_destroy P ?e] =>
               destruct (hfile_destroy P e) as [[] ?]; simpl
           end; reflexivity.
Qed.

Lemma open_header_writes (raw : H) (accmode : Z) (w w' : world S H)
    (iv : list byte) (writing : bool) :
  open_header P raw accmode w = (Some (iv, writing), w') ->
  writes w w' (if writing then iv else []) /\
  (counter_mode P -> writing = true -> len iv = IV_SIZE).
Proof.
  unfold open_header.
  destruct (accmode =? O_RDONLY).
  - run. destruct (hread P raw IV_SIZE (w_ext w)) as [[data|] e1]; simpl.
    + destruct (len data <? IV_SIZE); simpl; intros E; [discriminate|].
      injection E as <- <- <-. split; [writes_now|discriminate].
    + discriminate.
  - destruct (accmode =? O_WRONLY).
    + unfold bind at 1.
      destruct (gen_random_writes IV_SIZE w ltac:(discriminate)) as [Wr Lr].
      destruct (gen_random P IV_SIZE w) as [[r bytes] w1]. simpl in Wr, Lr.
      destruct (r <? 0) eqn:Hr; [discriminate|]. apply Z.ltb_ge in Hr.
      run. destruct (hwrite P raw bytes (w_ext w1)) as [k e2]. simpl.
      destruct (k =? IV_SIZE); simpl; [|discriminate].
      intros E. injection E as <- <- <-. split.
      * apply (writes_trans _ _ _ [] bytes Wr). writes_now.
      * intros HC _. now apply Lr.
    + run. discriminate.
Qed.



Lemma len_app (a b : list byte) : len (a ++ b) = len a + len b.
Proof. unfold len. rewrite length_app. lia. Qed.




(** ** The header and the ciphertext of a write session *)










End BackendFacts.

(** * Scheme stripping *)

Lemma char_code_inj (a b : ascii) : char_code a = char_code b -> a = b.
Proof.
  unfold char_code. intros E. apply Nat2Z.inj in E.
  rewrite <- (ascii_nat_embedding a), <- (ascii_nat_embedding b).
  now rewrite E.
Qed.

Lemma char_code_diff (a b : ascii) :
  Ascii.eqb a b = false -> (char_code a - char_code b =? 0) = false.
Proof.
  intros E. apply Z.eqb_neq. intros D.
  assert (a = b) by (apply char_code_inj; lia).
  subst. rewrite Ascii.eqb_refl in E. discriminate.
Qed.

Lemma strip_localhost_form (path : string) :
  strip_cip_scheme ("cip://localhost/" ++ path) = ("/" ++ path)%string.
Proof. reflexivity. Qed.

Lemma strip_empty_authority_form (path : string) :
  strip_cip_scheme ("cip:///" ++ path) = ("/" ++ path)%string.
Proof. reflexivity. Qed.

Lemma strip_bare_form (path : string) :
  prefix "//" path = false -> strip_cip_scheme ("cip:" ++ path) = path.
Proof.
  intros Hp. unfold strip_cip_scheme.
  destruct path as [|c1 [|c2 r]]; simpl.
  - reflexivity.
  - destruct (Ascii.eqb c1 "/") eqn:E1; simpl; try reflexivity.
    rewrite (char_code_diff _ _ E1). reflexivity.
  - simpl in Hp.
    destruct (Ascii.eqb c1 "/") eqn:E1.
    + apply Ascii.eqb_eq in E1. subst c1.
      destruct (Ascii.eqb c2 "/") eqn:E2.
      * apply Ascii.eqb_eq in E2. subst c2. simpl in Hp. destruct r; discriminate.
      * rewrite (char_code_diff _ _ E2). reflexivity.
    + rewrite (char_code_diff _ _ E1). reflexivity.
Qed.

(** C9, as the code has it.  The two forms with an authority keep the
    slash that starts the path: [cip://localhost/p] and [cip:///p] both
    become [/p].  The bare form [cip:q] becomes [q] itself whenever [q]
    does not start with two slashes.  So the three forms name the same
    target when the bare form carries [/p], not when it carries [p]. *)
Theorem strip_cip_scheme_forms (path : string) :
  strip_cip_scheme ("cip://localhost/" ++ path) = ("/" ++ path)%string /\
  strip_cip_scheme ("cip:///" ++ path) = ("/" ++ path)%string /\
  (prefix "//" path = false -> strip_cip_scheme ("cip:" ++ path) = path) /\
  (prefix "/" path = false ->
   strip_cip_scheme ("cip:" ++ "/" ++ path) = ("/" ++ path)%string).
Proof.
  split; [apply strip_localhost_form|].
  split; [apply strip_empty_authority_form|].
  split; [apply strip_bare_form|].
  intros Hp. apply strip_bare_form.
  destruct path as [|c r]; [reflexivity|].
  change (prefix "//" ("/" ++ String c r))
    with (if ascii_dec "/" "/" then prefix "/" (String c r) else false).
  destruct (ascii_dec "/" "/"); [exact Hp|reflexivity].
Qed.

Lemma strip_cip_scheme_forms_witness :
  strip_cip_scheme ("cip:" ++ "data/reads.bam") = "data/reads.bam"%string /\
  strip_cip_scheme ("cip:" ++ "/" ++ "data/reads.bam")
  = strip_cip_scheme ("cip:///" ++ "data/reads.bam").
Proof.
  destruct (strip_cip_scheme_forms "data/reads.bam") as (_ & B & D & E).
  split.
  - apply D. reflexivity.
  - rewrite B. apply E. reflexivity.
Defined.

Lemma strip_forms_not_equivalent :
  ~ (forall path : string,
        strip_cip_scheme ("cip://localhost/" ++ path)
        = strip_cip_scheme ("cip:///" ++ path) /\
        strip_cip_scheme ("cip:///" ++ path)
        = strip_cip_scheme ("cip:" ++ path)).
Proof.
  intros A. destruct (A "foo"%string) as [_ B]. vm_compute in B. discriminate.
Qed.

(** * The reference platform *)

(** ** Counter mode *)

Lemma ctr_length (k : nat -> byte) (data : list byte) :
  forall pos, List.length (Mock.ctr k pos data) = List.length data.
Proof.
  induction data as [|x data IH]; intros pos; simpl; [|rewrite IH];
    reflexivity.
Qed.

Lemma ctr_app (k : nat -> byte) (a b : list byte) :
  forall pos,
    Mock.ctr k pos (a ++ b)
    = Mock.ctr k pos a ++ Mock.ctr k (pos + List.length a) b.
Proof.
  induction a as [|x a IH]; intros pos; simpl.
  - now rewrite Nat.add_0_r.
  - rewrite IH.
    replace (pos + Datatypes.S (List.length a))%nat
      with (Datatypes.S pos + List.length a)%nat by lia.
    reflexivity.
Qed.

Lemma ctr_involutive (k : nat -> byte) (data : list byte) :
  forall pos, Mock.ctr k pos (Mock.ctr k pos data) = data.
Proof.
  induction data as [|x data IH]; intros pos; simpl; [reflexivity|].
  rewrite IH, Z.lxor_assoc, Z.lxor_nilpotent, Z.lxor_0_r. reflexivity.
Qed.

Section MockFacts.

Variable kdf : string -> list byte -> list byte.
Variable keystream : list byte -> list byte -> nat -> byte.
Variable b : Mock.backend.

Local Abbreviation P := (Mock.mock kdf keystream b).

Lemma transform_app (c : Mock.cipher) (x y : list byte) :
  Mock.transform keystream c (x ++ y)
  = Mock.transform keystream c x
    ++ Mock.transform keystream (Mock.advanced c (List.length x)) y.
Proof. unfold Mock.transform. simpl. apply ctr_app. Qed.

Lemma transform_length (c : Mock.cipher) (x : list byte) :
  len (Mock.transform keystream c x) = len x.
Proof. unfold len, Mock.transform. now rewrite ctr_length. Qed.

(** ** The helpers on the reference platform *)

Lemma mock_cipher_update (c : Mock.cipher) (input : list byte)
    (w : world Mock.state string) :
  exists w',
    cipher_update P c input w
    = (len input, Mock.transform keystream c input,
       Mock.advanced c (List.length input), w') /\
    w_ext w' = w_ext w.
Proof.
  unfold cipher_update. destruct b; simpl; run;
    rewrite transform_length; eexists; split; reflexivity.
Qed.

Lemma mock_cipher_final (c : Mock.cipher) (n : Z)
    (w : world Mock.state string) :
  Mock.plan (sys (w_ext w)) = Mock.no_faults ->
  exists w',
    cipher_final P c n w = (0, [], c, w') /\ w_ext w' = w_ext w.
Proof.
  intros Hp. unfold cipher_final. destruct b; simpl; run; rewrite Hp; simpl;
    eexists; split; reflexivity.
Qed.

Lemma mock_close_release (fp : hFILE_cip string Mock.cipher)
    (w : world Mock.state string) :
  Mock.plan (sys (w_ext w)) = Mock.no_faults ->
  exists w', close_release P fp w = (None, w') /\ w_ext w' = w_ext w.
Proof.
  intros Hp. unfold close_release. destruct b; simpl; run; rewrite Hp; simpl;
    eexists; split; reflexivity.
Qed.

Lemma mock_cipher_setup (key : string) (iv : list byte) (writing : bool)
    (w : world Mock.state string) :
  exists w',
    cipher_setup P key iv (if writing then O_WRONLY else O_RDONLY) w
    = (Some (Mock.mk_cipher (kdf key salt) iv 0 writing), w') /\
    w_ext w' = w_ext w.
Proof.
  unfold cipher_setup. destruct b, writing; simpl; run;
    eexists; split; reflexivity.
Qed.

Lemma advanced_advanced (c : Mock.cipher) (x y : nat) :
  Mock.advanced (Mock.advanced c x) y = Mock.advanced c (x + y).
Proof. unfold Mock.advanced. simpl. now rewrite Nat.add_assoc. Qed.

Lemma advanced_0 (c : Mock.cipher) : Mock.advanced c 0 = c.
Proof. destruct c. unfold Mock.advanced. simpl. now rewrite Nat.add_0_r. Qed.


(** ** The store *)

Lemma mock_hwrite (e : ext Mock.state) (secret h : string)
    (content data : list byte) (pos : nat) :
  Mock.stores e secret h content pos ->
  exists e',
    Mock.m_hwrite h data e = (len data, e') /\
    Mock.stores e' secret h (content ++ data) pos.
Proof.
  intros (He & Hp & Hf & Hpos). unfold Mock.m_hwrite.
  rewrite Hf, Hp. simpl. rewrite Nat.ltb_irrefl.
  eexists. split; [reflexivity|].
  unfold Mock.stores. simpl. rewrite String.eqb_refl. auto.
Qed.

Lemma mock_hread (e : ext Mock.state) (secret h : string)
    (content : list byte) (pos : nat) (n : Z) :
  Mock.stores e secret h content pos ->
  let data := firstn (Z.to_nat n) (skipn pos content) in
  exists e',
    Mock.m_hread h n e = (Some data, e') /\
    Mock.stores e' secret h content (pos + List.length data).
Proof.
  intros (He & Hp & Hf & Hpos) data. unfold Mock.m_hread.
  rewrite Hp, Hf, Hpos. simpl. fold data.
  eexists. split; [reflexivity|].
  unfold Mock.stores. simpl. auto.
Qed.

Lemma mock_hclose (e : ext Mock.state) (secret h : string)
    (content : list byte) (pos : nat) (h' : string) :
  Mock.stores e secret h content pos -> Mock.m_hclose h' e = (0, e).
Proof.
  intros (He & Hp & Hf & Hpos). unfold Mock.m_hclose. now rewrite Hp.
Qed.

(** ** Writing *)

Lemma mock_cip_write_loop (fuel : nat) :
  forall (fp : hFILE_cip string Mock.cipher) (data : list byte) (total : Z)
         (w : world Mock.state string) (secret : string)
         (content : list byte) (pos : nat),
    Mock.stores (w_ext w) secret (rawfp fp) content pos ->
    0 < bufsize fp ->
    (List.length data <= fuel)%nat ->
    exists fp' w',
      cip_write_loop P fuel fp data total w
      = (Some (total + len data, fp'), w') /\
      Mock.stores (w_ext w') secret (rawfp fp)
                  (content ++ Mock.transform keystream (ctx fp) data) pos /\
      rawfp fp' = rawfp fp /\ bufsize fp' = bufsize fp /\
      is_write fp' = is_write fp /\
      ctx fp' = Mock.advanced (ctx fp) (List.length data).
Proof.
  induction fuel as [|fuel IH];
    intros fp data total w secret content pos Hst Hbuf Hfuel;
    (destruct (0 <? len data) eqn:Hpos;
    [apply Z.ltb_lt in Hpos
    |cbn [cip_write_loop]; rewrite Hpos; apply Z.ltb_ge in Hpos;
     assert (data = []) by (destruct data; [reflexivity|unfold len in Hpos;
                                            simpl in Hpos; lia]);
     subst data; exists fp, w; unfold ret, len; simpl;
     rewrite Z.add_0_r, app_nil_r, advanced_0; auto 10]).
  - unfold len in Hpos. lia.
  - set (n := if len data <? bufsize fp then len data else bufsize fp).
    assert (Hn : 0 < n <= len data).
    { unfold n. destruct (len data <? bufsize fp) eqn:E; [lia|].
      apply Z.ltb_ge in E. lia. }
    destruct (mock_cipher_update (ctx fp) (take n data) w)
      as (w1 & Eu & X1).
    rewrite <- X1 in Hst.
    destruct (mock_hwrite _ _ _ _
                (Mock.transform keystream (ctx fp) (take n data)) _ Hst)
      as (e2 & Ew & Hst2).
    rewrite (cip_write_loop_step P fuel fp data _ total _ _ _ w w1 e2
               Hpos Eu (len_nonneg _) Ew).
    rewrite transform_length, Z.eqb_refl. fold n.
    match goal with
    | |- context [cip_write_loop P fuel ?fp1 ?d ?t ?w2] =>
        destruct (IH fp1 d t w2 secret _ pos Hst2 Hbuf) as
          (fp' & w' & E & Hst' & R1 & R2 & R3 & R4)
    end.
    { pose proof (len_drop n data ltac:(lia)) as D.
      unfold len in D, Hn. lia. }
    exists fp', w'. rewrite E.
    cbn [rawfp bufsize is_write ctx with_ctx with_buffer] in *.
    assert (Hsplit : data = take n data ++ drop n data).
    { unfold take, drop. now rewrite firstn_skipn. }
    split; [|split; [|auto]].
    + f_equal. f_equal. f_equal. rewrite (len_drop n data); lia.
    + replace (Mock.transform keystream (ctx fp) data)
        with (Mock.transform keystream (ctx fp) (take n data ++ drop n data))
        by (now rewrite <- Hsplit).
      rewrite transform_app, app_assoc. exact Hst'.
    + repeat split; auto. rewrite R4, advanced_advanced. f_equal.
      rewrite <- length_app. now rewrite <- Hsplit.
Qed.

(** ** Closing *)

Lemma mock_cip_close (fp : hFILE_cip string Mock.cipher)
    (w : world Mock.state string) (secret h : string) (content : list byte)
    (pos : nat) :
  Mock.stores (w_ext w) secret h content pos ->
  exists w', cip_close P fp w = (0, w') /\ w_ext w' = w_ext w.
Proof.
  intros Hst. pose proof Hst as (He & Hp & Hf & Hpos).
  unfold cip_close. unfold bind at 1.
  assert (F : exists fp1 w1,
             close_flush P fp w = (None, fp1, w1) /\ w_ext w1 = w_ext w).
  { unfold close_flush. destruct (is_write fp).
    - unfold bind at 1.
      destruct (mock_cipher_final (ctx fp) (bufsize fp) w Hp) as (w1 & E & X).
      rewrite E. simpl. eexists _, _. split; [reflexivity|exact X].
    - eexists _, _. split; reflexivity. }
  destruct F as (fp1 & w1 & -> & X1).
  unfold bind at 1.
  destruct (mock_close_release fp1 w1) as (w2 & -> & X2); [now rewrite X1|].
  unfold bind at 1. unfold close_raw, bind, call.
  change (hclose P) with Mock.m_hclose.
  rewrite X2, X1, (mock_hclose _ _ _ _ _ (rawfp fp1) Hst). simpl.
  eexists. split; reflexivity.
Qed.

(** ** Opening *)

Lemma mock_gen_random (w : world Mock.state string) (secret h : string)
    (content : list byte) (pos : nat) :
  Mock.stores (w_ext w) secret h content pos ->
  (16 <= List.length (Mock.entropy (sys (w_ext w))))%nat ->
  exists w',
    gen_random P IV_SIZE w
    = (0, firstn 16 (Mock.entropy (sys (w_ext w))), w') /\
    Mock.stores (w_ext w') secret h content pos.
Proof.
  intros (He & Hp & Hf & Hpos) Hrnd.
  assert (R : Mock.m_random IV_SIZE (w_ext w)
              = (Some (firstn 16 (Mock.entropy (sys (w_ext w)))),
                 Mock.moving (w_ext w)
                   (Mock.with_entropy (sys (w_ext w))
                      (skipn 16 (Mock.entropy (sys (w_ext w))))))).
  { unfold Mock.m_random. change (Z.to_nat IV_SIZE) with 16%nat.
    replace (List.length (Mock.entropy (sys (w_ext w))) <? 16)%nat with false
      by (symmetry; apply Nat.ltb_ge; lia).
    reflexivity. }
  unfold gen_random.
  destruct b; cbn [crypto Mock.mock]; unfold bind at 1; unfold call at 1;
    cbn [RAND_bytes CCRandomGenerateBytes Mock.m_openssl Mock.m_commoncrypto];
    rewrite R; cbn [Z.leb Z.compare is_kCCSuccess negb]; unfold ret;
    eexists; (split; [reflexivity|]); unfold Mock.stores; simpl; auto.
Qed.

Lemma mock_hopen_cip_write (filename secret : string)
    (w : world Mock.state string) :
  Mock.environment (sys (w_ext w)) = Some secret ->
  Mock.plan (sys (w_ext w)) = Mock.no_faults ->
  (16 <= List.length (Mock.entropy (sys (w_ext w))))%nat ->
  let iv := firstn 16 (Mock.entropy (sys (w_ext w))) in
  exists fp w',
    hopen_cip P filename "w" w = (Some fp, w') /\
    Mock.stores (w_ext w') secret (strip_cip_scheme filename) iv 0 /\
    rawfp fp = strip_cip_scheme filename /\
    bufsize fp = 8192 * BLOCKSIZE /\
    is_write fp = true /\
    ctx fp = Mock.mk_cipher (kdf secret salt) iv 0 true.
Proof.
  intros He Hp Hrnd iv.
  assert (Hiv : List.length iv = 16%nat).
  { unfold iv. rewrite length_firstn. lia. }
  assert (Hlt : (List.length (Mock.entropy (sys (w_ext w))) <? 16)%nat = false)
    by (apply Nat.ltb_ge; lia).
  unfold hopen_cip.
  change (Z.land (hfile_oflags P "w") O_ACCMODE)
    with (if true then O_WRONLY else O_RDONLY).
  unfold bind at 1. unfold call at 1.
  change (getenv P) with Mock.m_getenv. unfold Mock.m_getenv at 1.
  cbn [String.eqb Ascii.eqb Bool.eqb fst snd]. rewrite He.
  unfold bind at 1. unfold call at 1. cbn [hfile_init P Mock.mock negb].
  unfold bind at 1. unfold call at 1.
  change (hopen P) with Mock.m_hopen. unfold Mock.m_hopen at 1.
  change (Z.land (Mock.oflags "w") Mock.O_CREAT =? 0) with false.
  change (Z.land (Mock.oflags "w") Mock.O_TRUNC =? 0) with false.
  cbv iota.
  unfold bind at 1. unfold call at 1. cbn [malloc P Mock.mock].
  unfold bind at 1. unfold open_header.
  cbn [Z.eqb O_WRONLY O_RDONLY Pos.eqb].
  unfold bind at 1.
  match goal with
  | |- context [gen_random P IV_SIZE ?w0] =>
      destruct (mock_gen_random w0 secret (strip_cip_scheme filename) [] 0)
        as (w1 & G & Hst1)
  end.
  { unfold Mock.stores. simpl. rewrite String.eqb_refl. auto. }
  { exact Hrnd. }
  rewrite G. clear G.
  repeat match goal with
         | |- context [firstn 16 ?x] =>
             progress change (firstn 16 x) with iv
         end.
  cbn [Z.ltb Z.compare].
  unfold bind at 1. unfold call at 1.
  destruct (mock_hwrite _ _ _ _ iv _ Hst1) as (e2 & Ew & Hst2).
  change (hwrite P) with Mock.m_hwrite. rewrite Ew.
  replace (len iv =? IV_SIZE) with true
    by (unfold len, IV_SIZE; rewrite Hiv; reflexivity).
  cbn [negb]. unfold ret at 1.
  unfold bind at 1.
  match goal with
  | |- context [cipher_setup P secret iv _ ?w0] =>
      destruct (mock_cipher_setup secret iv true w0) as (w3 & -> & X3)
  end.
  unfold ret. eexists _, _. split; [reflexivity|].
  rewrite X3. simpl. auto 10.
Qed.

Lemma mock_hopen_cip_read (filename secret : string)
    (w : world Mock.state string) (content : list byte) (pos : nat) :
  Mock.stores (w_ext w) secret (strip_cip_scheme filename) content pos ->
  (16 <= List.length content)%nat ->
  exists fp w',
    hopen_cip P filename "r" w = (Some fp, w') /\
    Mock.stores (w_ext w') secret (strip_cip_scheme filename) content 16 /\
    rawfp fp = strip_cip_scheme filename /\
    bufsize fp = 8192 * BLOCKSIZE /\
    is_write fp = false /\
    ctx fp = Mock.mk_cipher (kdf secret salt) (firstn 16 content) 0 false.
Proof.
  intros Hst Hlen. pose proof Hst as (He & Hp & Hf & Hpos).
  unfold hopen_cip.
  change (Z.land (hfile_oflags P "r") O_ACCMODE)
    with (if false then O_WRONLY else O_RDONLY).
  unfold bind at 1. unfold call at 1.
  change (getenv P) with Mock.m_getenv. unfold Mock.m_getenv at 1.
  cbn [String.eqb Ascii.eqb Bool.eqb fst snd]. rewrite He.
  unfold bind at 1. unfold call at 1. cbn [hfile_init P Mock.mock negb].
  unfold bind at 1. unfold call at 1.
  change (hopen P) with Mock.m_hopen. unfold Mock.m_hopen at 1.
  change (Z.land (Mock.oflags "r") Mock.O_CREAT =? 0) with true.
  cbv iota. cbn [w_ext]. rewrite Hf.
  unfold bind at 1. unfold call at 1. cbn [malloc P Mock.mock].
  unfold bind at 1. unfold open_header.
  cbn [Z.eqb O_RDONLY]. unfold bind at 1. unfold call at 1.
  assert (Hst0 : Mock.stores
                   (Mock.moving (w_ext w) (Mock.with_position (sys (w_ext w)) 0))
                   secret (strip_cip_scheme filename) content 0).
  { unfold Mock.stores. simpl. auto. }
  destruct (mock_hread _ _ _ _ _ IV_SIZE Hst0) as (e2 & Er & Hst2).
  change (hread P) with Mock.m_hread. cbn [w_ext]. rewrite Er.
  change (Z.to_nat IV_SIZE) with 16%nat in *.
  change (skipn 0 content) with content in *.
  assert (Hiv : List.length (firstn 16 content) = 16%nat).
  { rewrite length_firstn. lia. }
  rewrite Hiv in Hst2.
  replace (len (firstn 16 content) <? IV_SIZE) with false
    by (unfold len, IV_SIZE; rewrite Hiv; reflexivity).
  unfold ret at 1. unfold bind at 1.
  match goal with
  | |- context [cipher_setup P secret ?iv _ ?w0] =>
      destruct (mock_cipher_setup secret iv false w0) as (w3 & -> & X3)
  end.
  unfold ret. eexists _, _. split; [reflexivity|].
  rewrite X3. simpl. auto 10.
Qed.

(** ** Reading *)

Lemma firstn_length_firstn (k : nat) (l : list byte) :
  firstn (List.length (firstn k l)) l = firstn k l.
Proof.
  rewrite length_firstn.
  destruct (Nat.le_gt_cases k (List.length l)) as [Hk|Hk].
  - now rewrite Nat.min_l.
  - rewrite Nat.min_r by lia. rewrite firstn_all, firstn_all2 by lia.
    reflexivity.
Qed.

Lemma firstn_add (x y : nat) (l : list byte) :
  firstn (x + y) l = firstn x l ++ firstn y (skipn x l).
Proof.
  revert l. induction x as [|x IH]; intros l; [reflexivity|].
  destruct l as [|z l]; simpl.
  - now rewrite firstn_nil.
  - now rewrite IH.
Qed.

Lemma skipn_add (x y : nat) (l : list byte) :
  skipn (x + y) l = skipn y (skipn x l).
Proof.
  revert l. induction x as [|x IH]; intros l; [reflexivity|].
  destruct l as [|z l]; simpl.
  - now rewrite skipn_nil.
  - now rewrite IH.
Qed.

Lemma mock_cip_read_loop (fuel : nat) :
  forall (fp : hFILE_cip string Mock.cipher) (nbytes total : Z)
         (out : list byte) (w : world Mock.state string) (secret : string)
         (content : list byte) (pos : nat),
    Mock.stores (w_ext w) secret (rawfp fp) content pos ->
    0 < bufsize fp ->
    0 <= nbytes < SIZE_MODULUS ->
    let rest := skipn pos content in
    let m := Nat.min (Z.to_nat nbytes) (List.length rest) in
    (m < fuel)%nat ->
    exists fp' w',
      cip_read_loop P fuel fp nbytes total out w
      = (Some (total + Z.of_nat m,
               out ++ Mock.transform keystream (ctx fp) (firstn m rest), fp'),
         w') /\
      Mock.stores (w_ext w') secret (rawfp fp) content (pos + m) /\
      rawfp fp' = rawfp fp /\ bufsize fp' = bufsize fp /\
      is_write fp' = is_write fp /\
      ctx fp' = Mock.advanced (ctx fp) m.
Proof.
  induction fuel as [|fuel IH];
    intros fp nbytes total out w secret content pos Hst Hbuf Hn rest m Hfuel;
    [lia|].
  cbn [cip_read_loop].
  destruct (0 <? nbytes) eqn:Hpos.
  2:{ apply Z.ltb_ge in Hpos. assert (nbytes = 0) by lia. subst nbytes.
      assert (m = 0%nat) by (unfold m; simpl; lia).
      exists fp, w. unfold ret. rewrite H. simpl.
      rewrite Z.add_0_r, app_nil_r, Nat.add_0_r, advanced_0. auto 10. }
  apply Z.ltb_lt in Hpos.
  set (n := if nbytes <? bufsize fp then nbytes else bufsize fp).
  assert (Hn' : 0 < n <= nbytes).
  { unfold n. destruct (nbytes <? bufsize fp) eqn:E; [lia|].
    apply Z.ltb_ge in E. lia. }
  unfold bind at 1. unfold call at 1.
  destruct (mock_hread _ _ _ _ _ n Hst) as (e1 & Er & Hst1).
  fold rest in Er, Hst1.
  change (hread P) with Mock.m_hread. rewrite Er.
  set (data := firstn (Z.to_nat n) rest) in *.
  assert (Hd : List.length data
               = Nat.min (Z.to_nat n) (List.length rest)).
  { unfold data. apply length_firstn. }
  destruct (len data =? 0) eqn:Hz.
  - apply Z.eqb_eq in Hz. unfold len in Hz.
    assert (Hm : m = 0%nat) by (unfold m; lia).
    unfold ret. eexists _, _. split; [|split; [|split; [|split; [|split]]]].
    + rewrite Hm. simpl. rewrite Z.add_0_r, app_nil_r. reflexivity.
    + rewrite Hm. replace (List.length data) with 0%nat in Hst1 by lia.
      exact Hst1.
    + reflexivity.
    + reflexivity.
    + reflexivity.
    + rewrite Hm, advanced_0. reflexivity.
  - apply Z.eqb_neq in Hz.
    cbn [ctx buffer with_buffer]. rewrite take_len_store.
    unfold bind at 1.
    match goal with
    | |- context [cipher_update P (ctx fp) data ?w0] =>
        destruct (mock_cipher_update (ctx fp) data w0) as (w1 & Eu & X1)
    end.
    rewrite Eu.
    replace (len data <? 0) with false
      by (symmetry; apply Z.ltb_ge; apply len_nonneg).
    set (d := List.length data) in *.
    assert (Hd1 : (1 <= d)%nat) by (unfold len in Hz; fold d in Hz; lia).
    assert (Hsub : size_sub nbytes (len data) = nbytes - Z.of_nat d).
    { unfold size_sub, len. fold d. apply Z.mod_small. lia. }
    rewrite Hsub.
    match goal with
    | |- context [cip_read_loop P fuel ?fp2 ?nb ?t ?o w1] =>
        destruct (IH fp2 nb t o w1 secret content (pos + d)%nat)
          as (fp' & w' & E & Hst' & R1 & R2 & R3 & R4)
    end.
    + rewrite X1. exact Hst1.
    + exact Hbuf.
    + lia.
    + cbv zeta. rewrite skipn_add. fold rest.
      rewrite length_skipn. unfold m in Hfuel. lia.
    + cbv zeta in E, Hst', R4. rewrite skipn_add in E, Hst', R4.
      fold rest in E, Hst', R4. rewrite length_skipn in E, Hst', R4.
      set (m' := Nat.min (Z.to_nat (nbytes - Z.of_nat d))
                         (List.length rest - d)) in *.
      assert (Hm : m = (d + m')%nat) by (unfold m, m'; lia).
      cbn [rawfp bufsize is_write ctx with_ctx with_buffer] in *.
      exists fp', w'. rewrite E.
      split; [|split; [|auto]].
      * assert (A : total + len data + Z.of_nat m' = total + Z.of_nat m)
          by (unfold len; fold d; lia).
        assert (B : (out ++ Mock.transform keystream (ctx fp) data)
                      ++ Mock.transform keystream (Mock.advanced (ctx fp) d)
                           (firstn m' (skipn d rest))
                    = out ++ Mock.transform keystream (ctx fp)
                               (firstn m rest)).
        { rewrite Hm, firstn_add, transform_app, <- app_assoc.
          assert (Hfd : firstn d rest = data).
          { unfold d, data. apply firstn_length_firstn. }
          rewrite Hfd. fold d. reflexivity. }
        rewrite A, B. reflexivity.
      * rewrite Hm, Nat.add_assoc. exact Hst'.
      * repeat split; auto. rewrite R4, advanced_advanced, Hm. reflexivity.
Qed.

Lemma mock_read_to_eof (fuel : nat) (n : Z) (rounds : nat) :
  0 < n < SIZE_MODULUS ->
  forall (fp : hFILE_cip string Mock.cipher) (acc : list byte)
         (w : world Mock.state string) (secret : string)
         (content : list byte) (pos : nat),
    Mock.stores (w_ext w) secret (rawfp fp) content pos ->
    0 < bufsize fp ->
    let rest := skipn pos content in
    (List.length rest < rounds)%nat ->
    (List.length rest < fuel)%nat ->
    exists fp' w',
      read_to_eof P rounds fuel fp n acc w
      = (Some (acc ++ Mock.transform keystream (ctx fp) rest, fp'), w') /\
      Mock.stores (w_ext w') secret (rawfp fp) content
                  (pos + List.length rest).
Proof.
  intros Hn. induction rounds as [|rounds IH];
    intros fp acc w secret content pos Hst Hbuf rest Hrounds Hfuel; [lia|].
  cbn [read_to_eof]. unfold bind at 1. unfold cip_read.
  destruct (mock_cip_read_loop fuel fp n 0 [] w secret content pos Hst Hbuf
              ltac:(lia))
    as (fp1 & w1 & E & Hst1 & R1 & R2 & R3 & R4).
  { cbv zeta. fold rest. lia. }
  cbv zeta in E, Hst1, R4. fold rest in E, Hst1, R4.
  set (m := Nat.min (Z.to_nat n) (List.length rest)) in *.
  rewrite E. cbn [app Z.add].
  replace (Z.of_nat m <? 0) with false by (symmetry; apply Z.ltb_ge; lia).
  destruct (Z.of_nat m =? 0) eqn:Hz.
  - apply Z.eqb_eq in Hz.
    assert (Hr : rest = []).
    { destruct rest; [reflexivity|]. unfold m in Hz. simpl in Hz. lia. }
    unfold ret. exists fp1, w1. rewrite Hr. simpl. rewrite app_nil_r.
    split; [reflexivity|].
    replace m with 0%nat in Hst1 by lia. exact Hst1.
  - apply Z.eqb_neq in Hz.
    rewrite <- R1 in Hst1.
    destruct (IH fp1 (acc ++ Mock.transform keystream (ctx fp) (firstn m rest))
                 w1 secret content (pos + m)%nat Hst1 ltac:(lia))
      as (fp' & w' & E' & Hst').
    + rewrite skipn_add. fold rest. rewrite length_skipn. lia.
    + rewrite skipn_add. fold rest. rewrite length_skipn. lia.
    + rewrite skipn_add in E', Hst'. fold rest in E', Hst'.
      rewrite length_skipn in Hst'.
      exists fp', w'. rewrite E', R4, R1 in *. split.
      * f_equal. f_equal. f_equal.
        transitivity (acc ++ Mock.transform keystream (ctx fp)
                               (firstn m rest ++ skipn m rest)).
        -- rewrite transform_app, length_firstn.
           replace (Nat.min m (List.length rest)) with m by (unfold m; lia).
           now rewrite app_assoc.
        -- now rewrite firstn_skipn.
      * replace (pos + List.length rest)%nat
          with (pos + m + (List.length rest - m))%nat by (unfold m; lia).
        exact Hst'.
Qed.

(** ** Sessions *)

Lemma mock_write_session (fuel : nat) (filename secret : string)
    (data : list byte) (w : world Mock.state string) :
  Mock.environment (sys (w_ext w)) = Some secret ->
  Mock.plan (sys (w_ext w)) = Mock.no_faults ->
  (16 <= List.length (Mock.entropy (sys (w_ext w))))%nat ->
  (List.length data <= fuel)%nat ->
  let iv := firstn 16 (Mock.entropy (sys (w_ext w))) in
  exists w',
    write_session P fuel filename data w = (Some 0, w') /\
    Mock.stores (w_ext w') secret (strip_cip_scheme filename)
                (iv ++ Mock.ctr (keystream (kdf secret salt) iv) 0 data) 0.
Proof.
  intros He Hp Hrnd Hfuel iv.
  unfold write_session. unfold bind at 1.
  destruct (mock_hopen_cip_write filename secret w He Hp Hrnd)
    as (fp & w1 & -> & Hst1 & R1 & R2 & R3 & R4).
  fold iv in Hst1, R4.
  unfold bind at 1. cbn [cip_write_all]. unfold bind at 1. unfold cip_write.
  rewrite <- R1 in Hst1.
  destruct (mock_cip_write_loop fuel fp data 0 w1 secret iv 0%nat Hst1
              ltac:(rewrite R2; unfold BLOCKSIZE; lia) Hfuel)
    as (fp2 & w2 & -> & Hst2 & S1 & S2 & S3 & S4).
  cbn [Z.add]. rewrite Z.eqb_refl. unfold ret at 1.
  unfold bind at 1.
  destruct (mock_cip_close fp2 w2 _ _ _ _ Hst2) as (w3 & -> & X3).
  unfold ret. exists w3. split; [reflexivity|].
  rewrite X3, <- R1. rewrite R4 in Hst2. exact Hst2.
Qed.

Lemma mock_read_session (rounds fuel : nat) (filename secret : string)
    (n : Z) (iv body : list byte) (pos : nat)
    (w : world Mock.state string) :
  Mock.stores (w_ext w) secret (strip_cip_scheme filename) (iv ++ body) pos ->
  List.length iv = 16%nat ->
  0 < n < SIZE_MODULUS ->
  (List.length body < rounds)%nat ->
  (List.length body < fuel)%nat ->
  fst (read_session P rounds fuel filename n w)
  = Some (Mock.ctr (keystream (kdf secret salt) iv) 0 body).
Proof.
  intros Hst Hiv Hn Hrounds Hfuel.
  unfold read_session. unfold bind at 1.
  destruct (mock_hopen_cip_read filename secret w (iv ++ body) pos Hst)
    as (fp & w1 & -> & Hst1 & R1 & R2 & R3 & R4).
  { rewrite length_app. lia. }
  assert (Hrest : skipn 16 (iv ++ body) = body).
  { rewrite <- Hiv. rewrite skipn_app, skipn_all, Nat.sub_diag. reflexivity. }
  assert (Hfirst : firstn 16 (iv ++ body) = iv).
  { rewrite <- Hiv. rewrite firstn_app, firstn_all, Nat.sub_diag. simpl.
    apply app_nil_r. }
  rewrite Hfirst in R4. rewrite <- R1 in Hst1.
  unfold bind at 1.
  destruct (mock_read_to_eof fuel n rounds Hn fp [] w1 secret (iv ++ body)
              16%nat Hst1 ltac:(rewrite R2; unfold BLOCKSIZE; lia))
    as (fp2 & w2 & E & Hst2).
  { cbv zeta. rewrite Hrest. exact Hrounds. }
  { cbv zeta. rewrite Hrest. exact Hfuel. }
  cbv zeta in E. rewrite Hrest, R4 in E. rewrite E.
  unfold bind at 1.
  destruct (cip_close P fp2 w2) as [rc w3]. reflexivity.
Qed.

(** ** Round trip *)

(** C2.  On the reference platform, with either crypto branch, any key
    stretching function and any keystream: writing [data] in a write
    session and closing it, then opening a read session on the same
    target and reading to end of stream in calls of [n] bytes, yields
    [data]. *)
Theorem write_then_read_round_trip (secret filename : string)
    (fs : string -> option (list byte)) (rnd data : list byte) (n : Z)
    (fuel rounds : nat) :
  (16 <= List.length rnd)%nat ->
  0 < n < SIZE_MODULUS ->
  (List.length data < fuel)%nat ->
  (List.length data < rounds)%nat ->
  let w0 := Mock.boot (Mock.setup (Some secret) fs rnd Mock.no_faults) in
  let written := write_session P fuel filename data w0 in
  fst written = Some 0 /\
  fst (read_session P rounds fuel filename n (snd written)) = Some data.
Proof.
  intros Hrnd Hn Hfuel Hrounds w0 written.
  destruct (mock_write_session fuel filename secret data w0
              eq_refl eq_refl Hrnd ltac:(lia))
    as (w1 & E & Hst).
  subst written. rewrite E. split; [reflexivity|].
  cbn [snd]. cbv zeta in Hst.
  change (Mock.entropy (sys (w_ext w0))) with rnd in Hst.
  assert (Hiv : List.length (firstn 16 rnd) = 16%nat).
  { rewrite length_firstn. lia. }
  rewrite (mock_read_session rounds fuel filename secret n _ _ _ w1 Hst Hiv Hn).
  - now rewrite ctr_involutive.
  - now rewrite ctr_length.
  - now rewrite ctr_length.
Qed.

End MockFacts.

(** * The theorems at work on concrete scenarios *)

Lemma hopen_cip_missing_secret_witness :
  let r := hopen_cip (Examples.reference Mock.OpenSSL) "cip:reads.bam" "r"
                     Examples.unconfigured in
  fst r = None /\
  errno (w_ext (snd r)) = EPERM /\
  events_since Examples.unconfigured (snd r) = [Call_getenv "HTS_CIP_KEY"] /\
  existsb is_stream_call (events_since Examples.unconfigured (snd r)) = false.
Proof.
  apply (hopen_cip_missing_secret (Examples.reference Mock.OpenSSL)
           "cip:reads.bam" "r" Examples.unconfigured
           (w_ext Examples.unconfigured)).
  reflexivity.
Defined.

Lemma hopen_cip_truncated_header_witness :
  let r := hopen_cip (Examples.reference Mock.CommonCrypto) "cip:reads.bam" "r"
                     Examples.short_target in
  fst r = None /\ errno (w_ext (snd r)) = EDOM /\
  existsb is_cipher_call (events_since Examples.short_target (snd r)) = false.
Proof.
  pose proof (hopen_cip_truncated_header
                (Examples.reference Mock.CommonCrypto)
                "cip:reads.bam" "r" "secret" Examples.short_target
                (w_ext Examples.short_target) (w_ext Examples.short_target)
                (w_ext Examples.short_target) (w_ext Examples.short_target)
                (snd (Mock.m_hread "reads.bam" IV_SIZE
                        (w_ext Examples.short_target)))
                "reads.bam"%string (Mock.zeros (8192 * BLOCKSIZE)) [1; 2; 3]
                eq_refl eq_refl eq_refl eq_refl eq_refl eq_refl eq_refl) as T.
  cbv zeta in T. cbv zeta. tauto.
Defined.

Lemma hopen_cip_bad_mode_witness :
  let r := hopen_cip (Examples.reference Mock.OpenSSL) "cip:///reads.bam" "r+"
                     (Mock.boot (Mock.setup (Some "secret"%string)
                                   (Examples.one_file "/reads.bam" [1; 2; 3])
                                   Examples.entropy Mock.no_faults)) in
  fst r = None /\ errno (w_ext (snd r)) = EINVAL.
Proof.
  set (w := Mock.boot (Mock.setup (Some "secret"%string)
                         (Examples.one_file "/reads.bam" [1; 2; 3])
                         Examples.entropy Mock.no_faults)).
  pose proof (hopen_cip_bad_mode
                (Examples.reference Mock.OpenSSL)
                "cip:///reads.bam" "r+" "secret" w
                (w_ext w) (w_ext w) (w_ext w) (w_ext w)
                "/reads.bam"%string (Mock.zeros (8192 * BLOCKSIZE))
                eq_refl eq_refl eq_refl eq_refl) as T.
  cbv zeta in T. cbv zeta.
  assert (A : Z.land (hfile_oflags (Examples.reference Mock.OpenSSL) "r+")
                     O_ACCMODE <> O_RDONLY) by (vm_compute; discriminate).
  assert (B : Z.land (hfile_oflags (Examples.reference Mock.OpenSSL) "r+")
                     O_ACCMODE <> O_WRONLY) by (vm_compute; discriminate).
  destruct (T A B) as (T1 & T2 & _). split; [exact T1|exact T2].
Defined.

Lemma cip_close_reports_last_witness :
  let r := cip_close (Examples.reference Mock.OpenSSL) (Examples.handle true)
                     Examples.failing_close in
  fst r = -1 /\ errno (w_ext (snd r)) = Mock.EIO.
Proof.
  assert (N1 : records_error (Some EINVAL))
    by (intros e E; injection E as <-; discriminate).
  assert (N3 : records_error (Some Mock.EIO))
    by (intros e E; injection E as <-; discriminate).
  pose proof (cip_close_reports_last
                (Examples.reference Mock.OpenSSL) (Examples.handle true)
                Examples.failing_close (Some EINVAL) None (Some Mock.EIO)
                eq_refl N1 N3) as T.
  cbv zeta in T. exact (proj2 T Mock.EIO eq_refl).
Defined.

Lemma close_reports_last_not_first :
  ~ close_reports_first (Examples.reference Mock.OpenSSL)
                        (Examples.handle true) Examples.failing_close.
Proof.
  unfold close_reports_first. intros A. vm_compute in A.
  specialize (A 22 eq_refl). discriminate A.
Qed.

Lemma cip_read_eof_and_failure_witness :
  cip_read_loop (Examples.reference Mock.OpenSSL) 1 (Examples.handle false)
                5 3 [7; 8; 9] Examples.at_end
  = (Some (3, [7; 8; 9], Examples.handle false),
     World (w_ext Examples.at_end) [Call_hread "reads.bam"%string 4]) /\
  cip_read_loop (Examples.reference Mock.OpenSSL) 1 (Examples.handle false)
                5 3 [7; 8; 9] Examples.failing_read
  = (Some (-1, [7; 8; 9], Examples.handle false),
     World (Ext Mock.EIO (sys (w_ext Examples.failing_read)))
           [Call_hread "reads.bam"%string 4]).
Proof.
  split.
  - exact (proj1 (cip_read_eof_and_failure
                    (Examples.reference Mock.OpenSSL) 0 (Examples.handle false)
                    5 3 [7; 8; 9] Examples.at_end eq_refl)
                 (w_ext Examples.at_end) eq_refl).
  - exact (proj2 (cip_read_eof_and_failure
                    (Examples.reference Mock.OpenSSL) 0 (Examples.handle false)
                    5 3 [7; 8; 9] Examples.failing_read eq_refl)
                 (Ext Mock.EIO (sys (w_ext Examples.failing_read))) eq_refl).
Defined.


Lemma write_then_read_round_trip_witness :
  let P := Examples.reference Mock.CommonCrypto in
  let written := write_session P 4 "cip:reads.bam" [42; 0; 255] Examples.fresh in
  fst written = Some 0 /\
  fst (read_session P 4 4 "cip:reads.bam" 2 (snd written))
  = Some [42; 0; 255].
Proof.
  apply (write_then_read_round_trip Examples.kdf Examples.keystream
           Mock.CommonCrypto "secret" "cip:reads.bam" Examples.no_file
           Examples.entropy [42; 0; 255] 2 4 4).
  - simpl. lia.
  - split; reflexivity.
  - simpl. lia.
  - simpl. lia.
Defined.


(** * Further properties of the code *)

(** * More on scheme stripping *)

Lemma char_code_zero (c : ascii) :
  Ascii.eqb c Ascii.zero = false -> (0 - char_code c =? 0) = false.
Proof.
  intros E. apply Z.eqb_neq. intros D.
  assert (c = Ascii.zero).
  { apply char_code_inj. change (char_code Ascii.zero) with 0. lia. }
  subst. discriminate.
Qed.

(** On a literal, [strncmp] over its whole length tests for a prefix. *)
Lemma strncmp_prefix (lit : string) :
  no_nul lit = true ->
  forall s, (strncmp s lit (String.length lit) =? 0) = prefix lit s.
Proof.
  induction lit as [|c lit IH]; intros Hn s.
  - destruct s; reflexivity.
  - simpl in Hn. apply andb_true_iff in Hn. destruct Hn as [Hc Hn].
    apply negb_true_iff in Hc.
    destruct s as [|d s]; cbn [strncmp String.length prefix].
    + now apply char_code_zero.
    + destruct (ascii_dec c d) as [->|Hd].
      * rewrite Ascii.eqb_refl. now apply IH.
      * assert (E : Ascii.eqb d c = false).
        { apply Ascii.eqb_neq. congruence. }
        rewrite E. now apply char_code_diff.
Qed.

Lemma prefix_app_l (a b s : string) :
  prefix (a ++ b) s = true -> prefix a s = true.
Proof.
  revert s. induction a as [|c a IH]; intros s.
  - destruct s; reflexivity.
  - destruct s as [|d s]; cbn [append prefix]; [discriminate|].
    destruct (ascii_dec c d); [apply IH|discriminate].
Qed.

(** X1.  [strip_cip_scheme] leaves alone every name that does not start
    with [cip:]: none of its three comparisons matches, so the pointer
    is not advanced. *)
Theorem strip_cip_scheme_other_names (filename : string) :
  prefix "cip:" filename = false -> strip_cip_scheme filename = filename.
Proof.
  intros Hp. unfold strip_cip_scheme.
  assert (A : forall rest, prefix ("cip:" ++ rest) filename = false).
  { intros rest. destruct (prefix ("cip:" ++ rest) filename) eqn:E; [|easy].
    apply prefix_app_l in E. congruence. }
  change 16%nat with (String.length "cip://localhost/").
  change 7%nat with (String.length "cip:///").
  change 4%nat with (String.length "cip:").
  rewrite !strncmp_prefix by reflexivity.
  pose proof (A "//localhost/"%string) as A1.
  pose proof (A "///"%string) as A2.
  cbn [append] in A1, A2. rewrite A1, A2, Hp. reflexivity.
Qed.

(** X2.  After [cip:], only an authority that is [localhost] or empty is
    recognised.  Whatever else follows is the target as it stands: a name
    such as [cip://host/path] becomes [//host/path], both slashes
    kept. *)
Theorem strip_cip_scheme_bare_exact (target : string) :
  prefix "//localhost/" target = false ->
  prefix "///" target = false ->
  strip_cip_scheme ("cip:" ++ target) = target.
Proof.
  intros H1 H2. unfold strip_cip_scheme.
  change (strncmp ("cip:" ++ target) "cip://localhost/" 16)
    with (strncmp target "//localhost/" (String.length "//localhost/")).
  change (strncmp ("cip:" ++ target) "cip:///" 7)
    with (strncmp target "///" (String.length "///")).
  rewrite (strncmp_prefix "//localhost/"), (strncmp_prefix "///")
    by reflexivity.
  rewrite H1, H2. reflexivity.
Qed.

(** X3.  [cip_isremote] answers for the file behind the scheme: for a
    name without the scheme it is [hisremote] of the name, for the bare
    form [hisremote] of what follows [cip:], and for the two forms with
    an authority [hisremote] of the absolute path. *)
Theorem cip_isremote_looks_through_scheme (hisremote : string -> Z) :
  (forall filename,
      prefix "cip:" filename = false ->
      cip_isremote hisremote filename = hisremote filename) /\
  (forall target,
      prefix "//localhost/" target = false ->
      prefix "///" target = false ->
      cip_isremote hisremote ("cip:" ++ target) = hisremote target) /\
  (forall path,
      cip_isremote hisremote ("cip://localhost/" ++ path)
      = hisremote ("/" ++ path)%string /\
      cip_isremote hisremote ("cip:///" ++ path)
      = hisremote ("/" ++ path)%string).
Proof.
  unfold cip_isremote. split; [|split].
  - intros filename Hp. f_equal. unfold strip_cip_scheme.
    assert (A : forall rest, prefix ("cip:" ++ rest) filename = false).
    { intros rest. destruct (prefix ("cip:" ++ rest) filename) eqn:E; [|easy].
      apply prefix_app_l in E. congruence. }
    change 16%nat with (String.length "cip://localhost/").
    change 7%nat with (String.length "cip:///").
    change 4%nat with (String.length "cip:").
    rewrite !strncmp_prefix by reflexivity.
    pose proof (A "//localhost/"%string) as A1.
    pose proof (A "///"%string) as A2.
    cbn [append] in A1, A2. rewrite A1, A2, Hp. reflexivity.
  - intros target H1 H2. f_equal. unfold strip_cip_scheme.
    change (strncmp ("cip:" ++ target) "cip://localhost/" 16)
      with (strncmp target "//localhost/" (String.length "//localhost/")).
    change (strncmp ("cip:" ++ target) "cip:///" 7)
      with (strncmp target "///" (String.length "///")).
    rewrite (strncmp_prefix "//localhost/"), (strncmp_prefix "///")
      by reflexivity.
    rewrite H1, H2. reflexivity.
  - intros path. split; reflexivity.
Qed.

Section MoreOpenFacts.

Context {S H C : Type} (P : platform S H C).

(** ** Opens that fail early *)

(** X4.  When [hfile_init] cannot allocate the handle, [hopen_cip]
    returns NULL with the [errno] that [hfile_init] left, having called
    nothing but [getenv] and [hfile_init]: no stream is opened and, the
    handle being NULL, nothing is released. *)
Theorem hopen_cip_allocation_fails (filename mode key : string)
    (w : world S H) (e1 e2 : ext S) :
  getenv P "HTS_CIP_KEY" (w_ext w) = (Some key, e1) ->
  hfile_init P mode 0 e1 = (false, e2) ->
  let r := hopen_cip P filename mode w in
  fst r = None /\
  w_ext (snd r) = Ext (errno e2) (sys e2) /\
  events_since w (snd r)
  = [Call_getenv "HTS_CIP_KEY"; Call_hfile_init mode].
Proof.
  intros Hkey Hinit r. subst r.
  unfold hopen_cip, open_error. run.
  rewrite Hkey. simpl. rewrite Hinit. simpl.
  flatten_trace. rewrite events_since_app. auto.
Qed.

(** X5.  When the underlying [hopen] fails, [hopen_cip] returns NULL
    with the [errno] of that [hopen], asks for no scratch block, reads no
    header and destroys the handle it had allocated; there is no stream
    to close. *)
Theorem hopen_cip_underlying_open_fails (filename mode key : string)
    (w : world S H) (e1 e2 e3 : ext S) :
  getenv P "HTS_CIP_KEY" (w_ext w) = (Some key, e1) ->
  hfile_init P mode 0 e1 = (true, e2) ->
  hopen P (strip_cip_scheme filename) mode e2 = (None, e3) ->
  let r := hopen_cip P filename mode w in
  fst r = None /\
  errno (w_ext (snd r)) = errno e3 /\
  events_since w (snd r)
  = [Call_getenv "HTS_CIP_KEY"; Call_hfile_init mode;
     Call_hopen (strip_cip_scheme filename) mode; Call_hfile_destroy].
Proof.
  intros Hkey Hinit Hopen r. subst r.
  unfold hopen_cip, open_error. run.
  rewrite Hkey. simpl. rewrite Hinit. simpl. rewrite Hopen. simpl.
  destruct (hfile_destroy P e3) as [[] x1]. simpl.
  flatten_trace. rewrite events_since_app. auto.
Qed.

(** X6.  When reading the 16-byte header fails (as opposed to coming up
    short), [hopen_cip] returns NULL with the [errno] of that [hread],
    not [EDOM], after closing the stream abruptly, freeing the block and
    destroying the handle; no key is derived. *)
Theorem hopen_cip_header_read_error (filename mode key : string)
    (w : world S H) (e1 e2 e3 e4 e5 : ext S) (raw : H) (block : list byte) :
  getenv P "HTS_CIP_KEY" (w_ext w) = (Some key, e1) ->
  hfile_init P mode 0 e1 = (true, e2) ->
  hopen P (strip_cip_scheme filename) mode e2 = (Some raw, e3) ->
  malloc P (8192 * BLOCKSIZE) e3 = (block, e4) ->
  Z.land (hfile_oflags P mode) O_ACCMODE = O_RDONLY ->
  hread P raw IV_SIZE e4 = (None, e5) ->
  let r := hopen_cip P filename mode w in
  fst r = None /\
  errno (w_ext (snd r)) = errno e5 /\
  events_since w (snd r)
  = [Call_getenv "HTS_CIP_KEY"; Call_hfile_init mode;
     Call_hopen (strip_cip_scheme filename) mode;
     Call_malloc (8192 * BLOCKSIZE); Call_hread raw IV_SIZE;
     Call_hclose_abruptly raw; Call_free; Call_hfile_destroy].
Proof.
  intros Hkey Hinit Hopen Hmalloc Hmode Hread r. subst r.
  change (8192 * BLOCKSIZE) with 131072 in *.
  unfold hopen_cip, open_header, open_error. run.
  rewrite Hkey. simpl. rewrite Hinit. simpl. rewrite Hopen. simpl.
  rewrite Hmalloc, Hmode. simpl. rewrite Hread. simpl.
  destruct (hclose_abruptly P raw _) as [[] x1]. simpl.
  destruct (free P x1) as [[] x2]. simpl.
  destruct (hfile_destroy P x2) as [[] x3]. simpl.
  flatten_trace. rewrite events_since_app. auto.
Qed.

End MoreOpenFacts.

(** * Resources held by an open *)

Lemma calls_only_trans {S H : Type} (ok : event H -> bool)
    (w1 w2 w3 : world S H) :
  calls_only ok w1 w2 -> calls_only ok w2 w3 -> calls_only ok w1 w3.
Proof.
  intros (t1 & E1 & B1) (t2 & E2 & B2). exists (t1 ++ t2).
  rewrite E2, E1, app_assoc, forallb_app, B1, B2. auto.
Qed.

Ltac calls_now :=
  match goal with
  | |- calls_only _ ?w _ =>
      first
        [ exists []; split;
          [cbn [trace]; rewrite app_nil_r; reflexivity | reflexivity]
        | eexists; split;
          [cbn [trace]; rewrite <- ?app_assoc; reflexivity | reflexivity] ]
  end.

Section MoreOpenFacts2.

Context {S H C : Type} (P : platform S H C).

Lemma gen_random_keeps (n : Z) (w : world S H) :
  calls_only keeps_resources w (snd (gen_random P n w)).
Proof.
  unfold gen_random, ssl_errno. run.
  destruct (crypto P) as [o|cc].
  - destruct (RAND_bytes o n (w_ext w)) as [[r bytes] e1]. simpl.
    destruct (r <=? 0); simpl; [|calls_now].
    destruct (ERR_get_error o e1). simpl. calls_now.
  - destruct (CCRandomGenerateBytes cc n (w_ext w)) as [[st bytes] e1].
    simpl. destruct (is_kCCSuccess st); simpl; calls_now.
Qed.

Lemma open_header_keeps (raw : H) (accmode : Z) (w : world S H) :
  calls_only keeps_resources w (snd (open_header P raw accmode w)).
Proof.
  unfold open_header.
  destruct (accmode =? O_RDONLY).
  - run. destruct (hread P raw IV_SIZE (w_ext w)) as [[data|] e1]; simpl.
    + destruct (len data <? IV_SIZE); simpl; calls_now.
    + calls_now.
  - destruct (accmode =? O_WRONLY).
    + unfold bind at 1.
      pose proof (gen_random_keeps IV_SIZE w) as K.
      destruct (gen_random P IV_SIZE w) as [[r bytes] w1]. simpl in K.
      destruct (r <? 0); [exact K|].
      run. destruct (hwrite P raw bytes (w_ext w1)) as [k e2]. simpl.
      apply (calls_only_trans _ _ _ _ K).
      destruct (k =? IV_SIZE); simpl; calls_now.
    + run. calls_now.
Qed.

Lemma cipher_setup_keeps (key : string) (iv : list byte) (accmode : Z)
    (w : world S H) :
  calls_only keeps_resources w (snd (cipher_setup P key iv accmode w)).
Proof.
  unfold cipher_setup, ssl_errno. run.
  destruct (crypto P) as [o|cc].
  - destruct (PKCS5_PBKDF2_HMAC o key (-1) salt (len salt) 1024 16 (w_ext w))
      as [[r secret] e1].
    simpl. destruct (r =? 0); simpl.
    + destruct (ERR_get_error o e1). simpl. calls_now.
    + destruct (EVP_CIPHER_CTX_init o e1) as [c0 e2]. simpl.
      destruct (EVP_CipherInit_ex o c0 secret iv _ e2) as [[r' c1] e3].
      simpl. destruct (r' =? 0); simpl.
      * destruct (ERR_get_error o e3). simpl. calls_now.
      * calls_now.
  - destruct (CCKeyDerivationPBKDF cc key _ salt (len salt) 1024 16 (w_ext w))
      as [[st secret] e1].
    simpl. destruct (is_kCCSuccess st); simpl.
    + destruct (CCCryptorCreateWithMode cc _ iv secret 16 e1) as [[st' c1] e2].
      simpl. destruct (is_kCCSuccess st'); simpl; calls_now.
    + calls_now.
Qed.

(** The [error:] block with the stream open and the scratch block
    allocated: what it calls and what it leaves in [errno]. *)
Lemma open_error_cleanup (raw : H) (block : list byte) (w : world S H) :
  let r := open_error P (Some (mk_partial (Some raw) (Some block))) w in
  fst r = None /\
  errno (w_ext (snd r)) = errno (w_ext w) /\
  trace (snd r)
  = trace w ++ [Call_hclose_abruptly raw; Call_free; Call_hfile_destroy].
Proof.
  unfold open_error. run.
  destruct (hclose_abruptly P raw (w_ext w)) as [[] e1]. simpl.
  destruct (free P e1) as [[] e2]. simpl.
  destruct (hfile_destroy P e2) as [[] e3]. simpl.
  flatten_trace. auto.
Qed.

(** [hopen_cip] once the stream is open and the block allocated. *)
Lemma hopen_cip_after_malloc (filename mode key : string) (w : world S H)
    (e1 e2 e3 e4 : ext S) (raw : H) (block : list byte) :
  getenv P "HTS_CIP_KEY" (w_ext w) = (Some key, e1) ->
  hfile_init P mode 0 e1 = (true, e2) ->
  hopen P (strip_cip_scheme filename) mode e2 = (Some raw, e3) ->
  malloc P (8192 * BLOCKSIZE) e3 = (block, e4) ->
  hopen_cip P filename mode w
  = (let fp := Some (mk_partial (Some raw) (Some block)) in
     let accmode := Z.land (hfile_oflags P mode) O_ACCMODE in
     hdr <- open_header P raw accmode ;;
     match hdr with
     | None => open_error P fp
     | Some (iv, writing) =>
         c <- cipher_setup P key iv accmode ;;
         match c with
         | None => open_error P fp
         | Some c =>
             ret (Some (mk_hFILE_cip writing block (8192 * BLOCKSIZE) raw c))
         end
     end)
      (World e4 (trace w ++ [Call_getenv "HTS_CIP_KEY"; Call_hfile_init mode;
                             Call_hopen (strip_cip_scheme filename) mode;
                             Call_malloc (8192 * BLOCKSIZE)])).
Proof.
  intros Hkey Hinit Hopen Hmalloc.
  unfold hopen_cip.
  unfold bind at 1. unfold call at 1. rewrite Hkey.
  unfold bind at 1. unfold call at 1. cbn [w_ext trace]. rewrite Hinit.
  cbn [negb].
  unfold bind at 1. unfold call at 1. cbn [w_ext trace]. rewrite Hopen.
  unfold bind at 1. unfold call at 1. cbn [w_ext trace]. rewrite Hmalloc.
  rewrite <- !app_assoc. reflexivity.
Qed.

(** X7.  Once the underlying stream is open, [hopen_cip] either returns
    a handle that owns that stream and the allocated block, nothing
    having been released, or returns NULL after giving back all three
    resources, each once and in the order stream, block, handle. *)
Theorem hopen_cip_releases_or_returns (filename mode key : string)
    (w : world S H) (e1 e2 e3 e4 : ext S) (raw : H) (block : list byte) :
  getenv P "HTS_CIP_KEY" (w_ext w) = (Some key, e1) ->
  hfile_init P mode 0 e1 = (true, e2) ->
  hopen P (strip_cip_scheme filename) mode e2 = (Some raw, e3) ->
  malloc P (8192 * BLOCKSIZE) e3 = (block, e4) ->
  let r := hopen_cip P filename mode w in
  let opening := [Call_getenv "HTS_CIP_KEY"; Call_hfile_init mode;
                  Call_hopen (strip_cip_scheme filename) mode;
                  Call_malloc (8192 * BLOCKSIZE)] in
  exists mid,
    forallb keeps_resources mid = true /\
    match fst r with
    | Some fp =>
        events_since w (snd r) = opening ++ mid /\
        rawfp fp = raw /\ buffer fp = block
    | None =>
        events_since w (snd r)
        = opening ++ mid
          ++ [Call_hclose_abruptly raw; Call_free; Call_hfile_destroy]
    end.
Proof.
  intros Hkey Hinit Hopen Hmalloc r opening. subst r.
  rewrite (hopen_cip_after_malloc _ _ _ _ _ _ _ _ _ _ Hkey Hinit Hopen Hmalloc).
  cbv zeta. fold opening. unfold bind.
  set (w4 := World e4 (trace w ++ opening)).
  pose proof (open_header_keeps raw
                (Z.land (hfile_oflags P mode) O_ACCMODE) w4) as K1.
  destruct (open_header P raw _ w4) as [[[iv writing]|] w5]; cbn [snd] in K1.
  - pose proof (cipher_setup_keeps key iv
                  (Z.land (hfile_oflags P mode) O_ACCMODE) w5) as K2.
    destruct (cipher_setup P key iv _ w5) as [[c|] w6]; cbn [snd] in K2;
      destruct (calls_only_trans _ _ _ _ K1 K2) as (mid & E & B);
      exists mid; (split; [exact B|]).
    + unfold ret. cbn [fst snd rawfp buffer]. unfold events_since.
      rewrite E. unfold w4. cbn [trace]. rewrite <- app_assoc.
      rewrite skipn_app, skipn_all, Nat.sub_diag. auto.
    + destruct (open_error_cleanup raw block w6) as (A1 & _ & A3).
      cbv zeta in A1, A3. rewrite A1. unfold events_since.
      rewrite A3, E. unfold w4. cbn [trace]. rewrite <- !app_assoc.
      rewrite skipn_app, skipn_all, Nat.sub_diag. reflexivity.
  - destruct K1 as (mid & E & B). exists mid. split; [exact B|].
    destruct (open_error_cleanup raw block w5) as (A1 & _ & A3).
    cbv zeta in A1, A3. rewrite A1. unfold events_since.
    rewrite A3, E. unfold w4. cbn [trace]. rewrite <- !app_assoc.
    rewrite skipn_app, skipn_all, Nat.sub_diag. reflexivity.
Qed.

(** ** Direction *)

Lemma open_header_direction (raw : H) (accmode : Z) (w w' : world S H)
    (iv : list byte) (writing : bool) :
  open_header P raw accmode w = (Some (iv, writing), w') ->
  accmode = if writing then O_WRONLY else O_RDONLY.
Proof.
  unfold open_header.
  destruct (accmode =? O_RDONLY) eqn:Hr.
  - apply Z.eqb_eq in Hr. run.
    destruct (hread P raw IV_SIZE (w_ext w)) as [[data|] e1]; simpl;
      [|discriminate].
    destruct (len data <? IV_SIZE); simpl; intros E; [discriminate|].
    now injection E as _ <- _.
  - destruct (accmode =? O_WRONLY) eqn:Hw.
    + apply Z.eqb_eq in Hw. unfold bind at 1.
      destruct (gen_random P IV_SIZE w) as [[r bytes] w1].
      destruct (r <? 0); [discriminate|]. run.
      destruct (hwrite P raw bytes (w_ext w1)) as [k e2]. simpl.
      destruct (k =? IV_SIZE); simpl; intros E; [|discriminate].
      now injection E as _ <- _.
    + run. discriminate.
Qed.

Lemma cipher_setup_last_call (key : string) (iv : list byte)
    (writing : bool) (w w' : world S H) (c : C) :
  cipher_setup P key iv (if writing then O_WRONLY else O_RDONLY) w
  = (Some c, w') ->
  exists evs,
    trace w' = trace w ++ evs ++ [Call_cipher_init writing] /\
    In Call_key_derivation evs.
Proof.
  unfold cipher_setup, ssl_errno. run.
  destruct (crypto P) as [o|cc].
  - destruct (PKCS5_PBKDF2_HMAC o key (-1) salt (len salt) 1024 16 (w_ext w))
      as [[r secret] e1].
    simpl. destruct (r =? 0); simpl.
    + destruct (ERR_get_error o e1). simpl. discriminate.
    + destruct (EVP_CIPHER_CTX_init o e1) as [c0 e2]. simpl.
      destruct (EVP_CipherInit_ex o c0 secret iv _ e2) as [[r' c1] e3].
      simpl. destruct (r' =? 0); simpl.
      * destruct (ERR_get_error o e3). simpl. discriminate.
      * intros E. injection E as _ <-. cbn [trace].
        exists [Call_key_derivation; Call_cipher_ctx_init].
        rewrite <- !app_assoc. destruct writing; simpl; auto.
  - destruct (CCKeyDerivationPBKDF cc key _ salt (len salt) 1024 16 (w_ext w))
      as [[st secret] e1].
    simpl. destruct (is_kCCSuccess st); simpl; [|discriminate].
    destruct (CCCryptorCreateWithMode cc _ iv secret 16 e1) as [[st' c1] e2].
    simpl. destruct (is_kCCSuccess st'); simpl; [|discriminate].
    intros E. injection E as _ <-. cbn [trace].
    exists [Call_key_derivation].
    rewrite <- !app_assoc. destruct writing; simpl; auto.
Qed.

(** X8.  A handle returned by [hopen_cip] writes exactly when the mode
    is write-only and reads exactly when it is read-only; its block has
    8192 cipher blocks; and the last thing the open did was to set up the
    cipher for that direction, the key having been derived before. *)
Theorem hopen_cip_direction (filename mode : string) (w w1 : world S H)
    (fp : hFILE_cip H C) :
  hopen_cip P filename mode w = (Some fp, w1) ->
  Z.land (hfile_oflags P mode) O_ACCMODE
  = (if is_write fp then O_WRONLY else O_RDONLY) /\
  bufsize fp = 8192 * BLOCKSIZE /\
  exists evs,
    events_since w w1 = evs ++ [Call_cipher_init (is_write fp)] /\
    In Call_key_derivation evs.
Proof.
  unfold hopen_cip.
  unfold bind at 1. unfold call at 1.
  destruct (getenv P "HTS_CIP_KEY" (w_ext w)) as [[key|] e1].
  2:{ unfold bind. simpl. intros E.
      pose proof (open_error_none P None
                    (World (Ext EPERM (sys e1))
                           (trace w ++ [Call_getenv "HTS_CIP_KEY"]))) as N.
      rewrite E in N. discriminate. }
  unfold bind at 1. unfold call at 1. cbn [w_ext trace].
  destruct (hfile_init P mode 0 e1) as [[|] e2]; cbn [negb].
  2:{ intros E.
      match type of E with
      | open_error P ?a ?b = _ => pose proof (open_error_none P a b) as N
      end.
      rewrite E in N. discriminate. }
  unfold bind at 1. unfold call at 1. cbn [w_ext trace].
  destruct (hopen P (strip_cip_scheme filename) mode e2) as [[raw|] e3].
  2:{ intros E.
      match type of E with
      | open_error P ?a ?b = _ => pose proof (open_error_none P a b) as N
      end.
      rewrite E in N. discriminate. }
  unfold bind at 1. unfold call at 1. cbn [w_ext trace].
  destruct (malloc P (8192 * BLOCKSIZE) e3) as [block e4].
  unfold bind at 1.
  match goal with
  | |- context [open_header P raw ?m ?w0] =>
      pose proof (open_header_direction raw m w0) as Dh;
      pose proof (open_header_keeps raw m w0) as Kh;
      destruct (open_header P raw m w0) as [[[iv writing]|] w2]
  end.
  2:{ intros E.
      match type of E with
      | open_error P ?a ?b = _ => pose proof (open_error_none P a b) as N
      end.
      rewrite E in N. discriminate. }
  specialize (Dh w2 iv writing eq_refl). cbn [snd] in Kh.
  unfold bind at 1. rewrite Dh.
  pose proof (cipher_setup_last_call key iv writing w2) as Ls.
  destruct (cipher_setup P key iv _ w2) as [[c|] w3].
  2:{ intros E.
      match type of E with
      | open_error P ?a ?b = _ => pose proof (open_error_none P a b) as N
      end.
      rewrite E in N. discriminate. }
  unfold ret. intros E. injection E as <- <-.
  destruct (Ls w3 c eq_refl) as (evs & Et & Hin).
  destruct Kh as (mid & Em & _).
  cbn [is_write bufsize]. split; [reflexivity|]. split; [reflexivity|].
  exists ([Call_getenv "HTS_CIP_KEY"; Call_hfile_init mode;
           Call_hopen (strip_cip_scheme filename) mode;
           Call_malloc (8192 * BLOCKSIZE)] ++ mid ++ evs).
  split.
  - unfold events_since. rewrite Et, Em. cbn [trace].
    rewrite <- !app_assoc. rewrite skipn_app, skipn_all, Nat.sub_diag.
    reflexivity.
  - apply in_or_app. right. apply in_or_app. now right.
Qed.

(** ** Failures of the crypto library *)

(** X9.  When key derivation or cipher creation fails, [hopen_cip]
    returns NULL with the non-zero [errno] chosen for the crypto
    library's failure and releases stream, block and handle.  On a write
    open the IV has by then been handed to the underlying stream, and
    that is all that was written; on a read open nothing is written. *)
Theorem hopen_cip_cipher_setup_fails (filename mode key : string)
    (w w5 w6 : world S H) (e1 e2 e3 e4 : ext S) (raw : H)
    (block iv : list byte) (writing : bool) :
  getenv P "HTS_CIP_KEY" (w_ext w) = (Some key, e1) ->
  hfile_init P mode 0 e1 = (true, e2) ->
  hopen P (strip_cip_scheme filename) mode e2 = (Some raw, e3) ->
  malloc P (8192 * BLOCKSIZE) e3 = (block, e4) ->
  let accmode := Z.land (hfile_oflags P mode) O_ACCMODE in
  open_header P raw accmode
    (World e4 (trace w ++ [Call_getenv "HTS_CIP_KEY"; Call_hfile_init mode;
                           Call_hopen (strip_cip_scheme filename) mode;
                           Call_malloc (8192 * BLOCKSIZE)]))
  = (Some (iv, writing), w5) ->
  cipher_setup P key iv accmode w5 = (None, w6) ->
  let r := hopen_cip P filename mode w in
  fst r = None /\
  errno (w_ext (snd r)) = errno (w_ext w6) /\
  errno (w_ext w6) <> 0 /\
  written_bytes (events_since w (snd r)) = (if writing then iv else []) /\
  trace (snd r)
  = trace w6 ++ [Call_hclose_abruptly raw; Call_free; Call_hfile_destroy].
Proof.
  intros Hkey Hinit Hopen Hmalloc accmode Hh Hs r. subst r.
  rewrite (hopen_cip_after_malloc _ _ _ _ _ _ _ _ _ _ Hkey Hinit Hopen Hmalloc).
  cbv zeta. fold accmode. unfold bind. rewrite Hh, Hs.
  destruct (open_error_cleanup raw block w6) as (A1 & A2 & A3).
  cbv zeta in A1, A2, A3.
  split; [exact A1|]. split; [exact A2|]. split; [|split; [|exact A3]].
  - clear - Hs. revert Hs. unfold cipher_setup, ssl_errno. run.
    destruct (crypto P) as [o|cc].
    + destruct (PKCS5_PBKDF2_HMAC o key (-1) salt (len salt) 1024 16
                  (w_ext w5)) as [[r secret] x1].
      simpl. destruct (r =? 0); simpl.
      * destruct (ERR_get_error o x1). simpl. intros E.
        injection E as <-. simpl. discriminate.
      * destruct (EVP_CIPHER_CTX_init o x1) as [c0 x2]. simpl.
        destruct (EVP_CipherInit_ex o c0 secret iv _ x2) as [[r' c1] x3].
        simpl. destruct (r' =? 0); simpl; [|discriminate].
        destruct (ERR_get_error o x3). simpl. intros E.
        injection E as <-. simpl. discriminate.
    + destruct (CCKeyDerivationPBKDF cc key _ salt (len salt) 1024 16
                  (w_ext w5)) as [[st secret] x1].
      simpl. destruct (is_kCCSuccess st) eqn:Hst; simpl.
      * destruct (CCCryptorCreateWithMode cc _ iv secret 16 x1)
          as [[st' c1] x2].
        simpl. destruct (is_kCCSuccess st') eqn:Hst'; simpl; [discriminate|].
        intros E. injection E as <-. simpl. now apply cc_errno_failure.
      * intros E. injection E as <-. simpl. now apply cc_errno_failure.
  - apply writes_events_since.
    destruct (open_header_writes P raw accmode _ _ _ _ Hh) as [Wh _].
    pose proof (cipher_setup_writes P key iv accmode w5) as Ws.
    rewrite Hs in Ws. cbn [snd] in Ws.
    assert (W0 : writes w
                   (World e4
                      (trace w ++ [Call_getenv "HTS_CIP_KEY";
                                   Call_hfile_init mode;
                                   Call_hopen (strip_cip_scheme filename) mode;
                                   Call_malloc (8192 * BLOCKSIZE)])) [])
      by writes_now.
    assert (W3 : writes w6
                   (snd (open_error P
                           (Some (mk_partial (Some raw) (Some block))) w6)) []).
    { exists [Call_hclose_abruptly raw; Call_free; Call_hfile_destroy].
      split; [exact A3|reflexivity]. }
    pose proof (writes_trans _ _ _ _ _
                  (writes_trans _ _ _ _ _
                     (writes_trans _ _ _ _ _ W0 Wh) Ws) W3) as W.
    simpl in W. rewrite !app_nil_r in W. exact W.
Qed.

End MoreOpenFacts2.

Section MoreTransferFacts.

Context {S H C : Type} (P : platform S H C).

(** ** Failures of the cipher during a transfer *)

(** X10.  Under either crypto library, [gen_random], [cipher_update] and
    [cipher_final] report a failure as -1 and leave a non-zero [errno],
    which is what lets their callers test [errno] for an error. *)
Theorem crypto_helpers_set_errno :
  (forall n w,
      fst (fst (gen_random P n w)) <> 0 ->
      fst (fst (gen_random P n w)) = -1 /\
      errno (w_ext (snd (gen_random P n w))) <> 0) /\
  (forall c input w,
      fst (fst (fst (cipher_update P c input w))) < 0 ->
      fst (fst (fst (cipher_update P c input w))) = -1 /\
      errno (w_ext (snd (cipher_update P c input w))) <> 0) /\
  (forall c n w,
      fst (fst (fst (cipher_final P c n w))) < 0 ->
      fst (fst (fst (cipher_final P c n w))) = -1 /\
      errno (w_ext (snd (cipher_final P c n w))) <> 0).
Proof.
  split; [|split].
  - intros n w. unfold gen_random, ssl_errno. run.
    destruct (crypto P) as [o|cc].
    + destruct (RAND_bytes o n (w_ext w)) as [[r bytes] e1]. simpl.
      destruct (r <=? 0); simpl; [|congruence].
      destruct (ERR_get_error o e1). simpl. intros _. split; [reflexivity|].
      discriminate.
    + destruct (CCRandomGenerateBytes cc n (w_ext w)) as [[st bytes] e1].
      simpl. destruct (is_kCCSuccess st) eqn:Hs; simpl; [congruence|].
      intros _. split; [reflexivity|]. now apply cc_errno_failure.
  - intros c input w. unfold cipher_update, ssl_errno. run.
    destruct (crypto P) as [o|cc].
    + destruct (EVP_CipherUpdate o c input (w_ext w)) as [[[r out] c1] e1].
      simpl. destruct (r =? 0); simpl.
      * destruct (ERR_get_error o e1). simpl. intros _.
        split; [reflexivity|]. discriminate.
      * pose proof (len_nonneg out). lia.
    + destruct (CCCryptorUpdate cc c input (len input) (w_ext w))
        as [[[st out] c1] e1].
      simpl. destruct (is_kCCSuccess st) eqn:Hs; simpl.
      * pose proof (len_nonneg out). lia.
      * intros _. split; [reflexivity|]. now apply cc_errno_failure.
  - intros c n w. unfold cipher_final, ssl_errno. run.
    destruct (crypto P) as [o|cc].
    + destruct (EVP_CipherFinal o c (w_ext w)) as [[[r out] c1] e1].
      simpl. destruct (r =? 0); simpl.
      * destruct (ERR_get_error o e1). simpl. intros _.
        split; [reflexivity|]. discriminate.
      * pose proof (len_nonneg out). lia.
    + destruct (CCCryptorFinal cc c n (w_ext w)) as [[[st out] c1] e1].
      simpl. destruct (is_kCCSuccess st) eqn:Hs; simpl.
      * pose proof (len_nonneg out). lia.
      * intros _. split; [reflexivity|]. now apply cc_errno_failure.
Qed.

(** X11.  In [cip_read], when the cipher fails on bytes just read, the
    call returns -1 whatever it had decrypted so far, so the count of
    the bytes already delivered is lost.  Those bytes stay in the
    caller's buffer, followed by whatever the failing update stored
    there; the read of the underlying stream has taken place. *)
Theorem cip_read_cipher_failure (fuel : nat) (fp : hFILE_cip H C)
    (nbytes total nout : Z) (out data produced : list byte) (c' : C)
    (w w2 : world S H) (e1 : ext S) :
  0 < nbytes ->
  let n := if nbytes <? bufsize fp then nbytes else bufsize fp in
  hread P (rawfp fp) n (w_ext w) = (Some data, e1) ->
  data <> [] ->
  cipher_update P (ctx fp) data
                (World e1 (trace w ++ [Call_hread (rawfp fp) n]))
  = (nout, produced, c', w2) ->
  nout < 0 ->
  cip_read_loop P (Datatypes.S fuel) fp nbytes total out w
  = (Some (-1, out ++ produced,
           with_ctx (with_buffer fp (store data (buffer fp))) c'), w2).
Proof.
  intros Hpos n Hread Hne Hup Hneg.
  apply Z.ltb_lt in Hpos. apply Z.ltb_lt in Hneg.
  cbn [cip_read_loop]. rewrite Hpos. unfold bind at 1. unfold call at 1.
  fold n. rewrite Hread.
  assert (Hz : (len data =? 0) = false).
  { apply Z.eqb_neq. unfold len. destruct data; [congruence|simpl; lia]. }
  rewrite Hz. cbn [ctx buffer with_buffer]. rewrite take_len_store.
  unfold bind at 1. rewrite Hup, Hneg. reflexivity.
Qed.

(** X12.  In [cip_write], when the cipher fails on a chunk, the call
    returns -1 and nothing of that chunk reaches the underlying stream:
    no [hwrite] is made in this pass. *)
Theorem cip_write_cipher_failure (fuel : nat) (fp : hFILE_cip H C)
    (data produced : list byte) (total nout : Z) (c' : C)
    (w w1 : world S H) :
  0 < len data ->
  let n := if len data <? bufsize fp then len data else bufsize fp in
  cipher_update P (ctx fp) (take n data) w = (nout, produced, c', w1) ->
  nout < 0 ->
  cip_write_loop P (Datatypes.S fuel) fp data total w
  = (Some (-1, with_ctx (with_buffer fp (store produced (buffer fp))) c'),
     w1) /\
  written_bytes (events_since w w1) = [].
Proof.
  intros Hpos n Hup Hneg. split.
  - apply Z.ltb_lt in Hpos. apply Z.ltb_lt in Hneg.
    cbn [cip_write_loop]. rewrite Hpos. unfold bind at 1. fold n.
    rewrite Hup, Hneg. reflexivity.
  - apply writes_events_since.
    pose proof (proj1 (cipher_update_writes P (ctx fp) (take n data) w)) as W.
    now rewrite Hup in W.
Qed.

(** ** How much a read delivers *)

Lemma cip_read_loop_bounded (HC : counter_mode P) (HB : bounded_reads P)
    (fuel : nat) :
  forall (fp : hFILE_cip H C) (nbytes total : Z) (out : list byte)
         (w : world S H),
    0 <= bufsize fp ->
    0 <= nbytes < SIZE_MODULUS ->
    (Z.to_nat nbytes < fuel)%nat ->
    exists r out' fp' w',
      cip_read_loop P fuel fp nbytes total out w = (Some (r, out', fp'), w') /\
      (r = -1 \/
       (total <= r <= total + nbytes /\ len out' = len out + (r - total))).
Proof.
  induction fuel as [|fuel IH]; intros fp nbytes total out w Hbuf Hn Hfuel;
    [lia|].
  cbn [cip_read_loop].
  destruct (0 <? nbytes) eqn:Hpos.
  2:{ exists total, out, fp, w. split; [reflexivity|]. right. lia. }
  apply Z.ltb_lt in Hpos.
  set (n := if nbytes <? bufsize fp then nbytes else bufsize fp).
  assert (Hn' : 0 <= n <= nbytes).
  { unfold n. destruct (nbytes <? bufsize fp) eqn:E; [lia|].
    apply Z.ltb_ge in E. lia. }
  unfold bind at 1. unfold call at 1.
  destruct (hread P (rawfp fp) n (w_ext w)) as [[data|] e1] eqn:Hread.
  2:{ eexists _, _, _, _. split; [reflexivity|]. now left. }
  pose proof (HB _ _ _ _ _ (proj1 Hn') Hread) as Hdata.
  destruct (len data =? 0) eqn:Hz.
  { eexists _, _, _, _. split; [reflexivity|]. right. lia. }
  apply Z.eqb_neq in Hz. pose proof (len_nonneg data) as Hd0.
  cbn [ctx buffer with_buffer]. rewrite take_len_store.
  unfold bind at 1.
  match goal with
  | |- context [cipher_update P (ctx fp) data ?w0] =>
      destruct (cipher_update_writes P (ctx fp) data w0) as [_ Lu];
      destruct (cipher_update P (ctx fp) data w0)
        as [[[nout produced] c'] w2] eqn:Eu
  end.
  cbn [fst snd] in Lu. specialize (Lu HC).
  destruct (nout <? 0) eqn:Hneg.
  { eexists _, _, _, _. split; [reflexivity|]. now left. }
  apply Z.ltb_ge in Hneg. specialize (Lu Hneg).
  destruct (cipher_update_result P _ _ _ _ _ _ _ Eu) as [->|Hnout]; [lia|].
  assert (Hsub : size_sub nbytes nout = nbytes - nout).
  { unfold size_sub. apply Z.mod_small. lia. }
  rewrite Hsub.
  match goal with
  | |- context [cip_read_loop P fuel ?fp2 ?nb ?t ?o w2] =>
      destruct (IH fp2 nb t o w2 Hbuf ltac:(lia) ltac:(lia))
        as (r & out' & fp' & w' & E & R)
  end.
  exists r, out', fp', w'. split; [exact E|].
  destruct R as [R|[R1 R2]]; [now left|right].
  rewrite len_app in R2. lia.
Qed.

(** X13.  Over a length-preserving cipher and an underlying stream that
    keeps to the size asked for, [cip_read] returns -1 or a count between
    0 and the size requested, and it has then stored exactly that many
    bytes for the caller. *)
Theorem cip_read_bounded (fuel : nat) (fp : hFILE_cip H C) (nbytes : Z)
    (w : world S H) :
  counter_mode P ->
  bounded_reads P ->
  0 <= bufsize fp ->
  0 <= nbytes < SIZE_MODULUS ->
  (Z.to_nat nbytes < fuel)%nat ->
  exists r out fp' w',
    cip_read P fuel fp nbytes w = (Some (r, out, fp'), w') /\
    (r = -1 \/ (0 <= r <= nbytes /\ len out = r)).
Proof.
  intros HC HB Hbuf Hn Hfuel. unfold cip_read.
  destruct (cip_read_loop_bounded HC HB fuel fp nbytes 0 [] w Hbuf Hn Hfuel)
    as (r & out & fp' & w' & E & R).
  exists r, out, fp', w'. split; [exact E|].
  destruct R as [R|[R1 R2]]; [now left|right].
  unfold len in R2 at 2. simpl in R2. lia.
Qed.

End MoreTransferFacts.

Section MoreCloseFacts.

Context {S H C : Type} (P : platform S H C).

(** ** What close always does *)

Lemma cipher_final_keeps (c : C) (n : Z) (w : world S H) :
  calls_only keeps_resources w (snd (cipher_final P c n w)).
Proof.
  unfold cipher_final, ssl_errno. run.
  destruct (crypto P) as [o|cc].
  - destruct (EVP_CipherFinal o c (w_ext w)) as [[[r out] c1] e1].
    simpl. destruct (r =? 0); simpl; [|calls_now].
    destruct (ERR_get_error o e1). simpl. calls_now.
  - destruct (CCCryptorFinal cc c n (w_ext w)) as [[[st out] c1] e1].
    simpl. destruct (is_kCCSuccess st); simpl; calls_now.
Qed.

Lemma close_flush_keeps (fp : hFILE_cip H C) (w : world S H) :
  calls_only keeps_resources w (snd (close_flush P fp w)) /\
  rawfp (snd (fst (close_flush P fp w))) = rawfp fp.
Proof.
  unfold close_flush. destruct (is_write fp).
  - unfold bind.
    pose proof (cipher_final_keeps (ctx fp) (bufsize fp) w) as K.
    destruct (cipher_final P (ctx fp) (bufsize fp) w) as [[[nout out] c'] w1].
    cbn [snd] in K.
    destruct (0 <? nout).
    + run. destruct (hwrite P _ _ (w_ext w1)) as [k e2]. simpl.
      destruct (k =? nout); simpl;
        (split; [apply (calls_only_trans _ _ _ _ K); calls_now|reflexivity]).
    + destruct (nout <? 0); run; (split; [exact K|reflexivity]).
  - run. split; [calls_now|reflexivity].
Qed.

Lemma close_release_calls (fp : hFILE_cip H C) (w : world S H) :
  exists rest,
    trace (snd (close_release P fp w))
    = trace w ++ Call_cipher_release :: rest /\
    forallb keeps_resources rest = true /\
    existsb is_flush_call rest = false.
Proof.
  unfold close_release, ssl_errno. run.
  destruct (crypto P) as [o|cc].
  - destruct (EVP_CIPHER_CTX_cleanup o (ctx fp) (w_ext w)) as [[r c] e1].
    simpl. destruct (r =? 0); simpl.
    + destruct (ERR_get_error o e1). simpl. exists [Call_error_queue].
      rewrite <- app_assoc. auto.
    + exists []. auto.
  - destruct (CCCryptorRelease cc (ctx fp) (w_ext w)) as [st e1]. simpl.
    destruct (is_kCCSuccess st); simpl; exists []; auto.
Qed.

Lemma close_raw_calls (fp : hFILE_cip H C) (w : world S H) :
  trace (snd (close_raw P fp w)) = trace w ++ [Call_hclose (rawfp fp)].
Proof.
  unfold close_raw. run.
  destruct (hclose P (rawfp fp) (w_ext w)) as [r e1]. simpl.
  destruct (r <? 0); reflexivity.
Qed.

Lemma cip_close_trace (fp : hFILE_cip H C) (w : world S H) :
  exists rest,
    trace (snd (cip_close P fp w))
    = trace (snd (close_flush P fp w))
      ++ Call_cipher_release :: rest ++ [Call_hclose (rawfp fp)] /\
    forallb keeps_resources rest = true /\
    existsb is_flush_call rest = false.
Proof.
  unfold cip_close. unfold bind.
  pose proof (proj2 (close_flush_keeps fp w)) as R.
  destruct (close_flush P fp w) as [[r1 fp1] w1]. cbn [fst snd] in *.
  destruct (close_release_calls fp1 w1) as (rest & E2 & K2 & F2).
  destruct (close_release P fp1 w1) as [r2 w2]. cbn [snd] in E2.
  pose proof (close_raw_calls fp1 w2) as E3.
  destruct (close_raw P fp1 w2) as [r3 w3]. cbn [snd] in E3.
  exists rest. split; [|auto].
  assert (E : trace w3
              = trace w1 ++ Call_cipher_release :: rest
                ++ [Call_hclose (rawfp fp)]).
  { rewrite E3, E2, R, <- app_assoc. reflexivity. }
  destruct (negb (assign r3 (assign r2 (assign r1 0)) =? 0)); run; exact E.
Qed.

(** X14.  Whatever fails on the way, [cip_close] releases the cipher
    and, as its last call, closes the underlying stream, which it does
    exactly once.  It makes no other call that gives a resource back: in
    particular it never frees the scratch block. *)
Theorem cip_close_closes_once (fp : hFILE_cip H C) (w : world S H) :
  exists evs,
    events_since w (snd (cip_close P fp w))
    = evs ++ [Call_hclose (rawfp fp)] /\
    forallb keeps_resources evs = true /\
    In Call_cipher_release evs.
Proof.
  destruct (cip_close_trace fp w) as (rest & E & K & _).
  destruct (proj1 (close_flush_keeps fp w)) as (pre & Ep & Kp).
  exists (pre ++ Call_cipher_release :: rest). split; [|split].
  - unfold events_since. rewrite E, Ep, <- !app_assoc.
    rewrite skipn_app, skipn_all, Nat.sub_diag. reflexivity.
  - rewrite forallb_app, Kp. simpl. exact K.
  - apply in_or_app. right. now left.
Qed.

(** X15.  Closing a handle opened for reading starts with the release
    of the cipher and ends with the close of the underlying stream; it
    never finalises the cipher and never writes. *)
Theorem cip_close_read_handle (fp : hFILE_cip H C) (w : world S H) :
  is_write fp = false ->
  exists rest,
    events_since w (snd (cip_close P fp w))
    = Call_cipher_release :: rest ++ [Call_hclose (rawfp fp)] /\
    existsb is_flush_call
            (events_since w (snd (cip_close P fp w))) = false.
Proof.
  intros Hr.
  destruct (cip_close_trace fp w) as (rest & E & _ & F).
  rewrite (close_flush_read_handle P fp w Hr) in E. cbn [snd] in E.
  assert (Ev : events_since w (snd (cip_close P fp w))
               = Call_cipher_release :: rest ++ [Call_hclose (rawfp fp)]).
  { unfold events_since. rewrite E.
    rewrite skipn_app, skipn_all, Nat.sub_diag. reflexivity. }
  exists rest. split; [exact Ev|].
  rewrite Ev. simpl. rewrite existsb_app, F. reflexivity.
Qed.

End MoreCloseFacts.

Section MoreMockFacts.

Variable kdf : string -> list byte -> list byte.
Variable keystream : list byte -> list byte -> nat -> byte.
Variable b : Mock.backend.

Local Abbreviation P := (Mock.mock kdf keystream b).

(** ** Pieces *)

Lemma mock_cip_write_all (fuel : nat) (pieces : list (list byte)) :
  forall (fp : hFILE_cip string Mock.cipher) (w : world Mock.state string)
         (secret : string) (content : list byte) (pos : nat),
    Mock.stores (w_ext w) secret (rawfp fp) content pos ->
    0 < bufsize fp ->
    Forall (fun piece => (List.length piece <= fuel)%nat) pieces ->
    exists fp' w',
      cip_write_all P fuel fp pieces w = (Some fp', w') /\
      Mock.stores (w_ext w') secret (rawfp fp)
                  (content
                   ++ Mock.transform keystream (ctx fp) (List.concat pieces))
                  pos /\
      rawfp fp' = rawfp fp /\
      ctx fp' = Mock.advanced (ctx fp) (List.length (List.concat pieces)).
Proof.
  induction pieces as [|piece rest IH];
    intros fp w secret content pos Hst Hbuf Hall.
  - exists fp, w. simpl. unfold ret.
    rewrite app_nil_r, advanced_0. auto.
  - inversion Hall as [|? ? Hp Hrest]; subst.
    cbn [cip_write_all]. unfold bind at 1. unfold cip_write.
    destruct (mock_cip_write_loop kdf keystream b fuel fp piece 0 w secret
                content pos Hst Hbuf Hp)
      as (fp1 & w1 & -> & Hst1 & R1 & R2 & R3 & R4).
    cbn [Z.add]. rewrite Z.eqb_refl.
    rewrite <- R1 in Hst1.
    destruct (IH fp1 w1 secret _ pos Hst1 ltac:(lia) Hrest)
      as (fp' & w' & E & Hst' & S1 & S2).
    exists fp', w'. split; [exact E|].
    cbn [List.concat]. rewrite transform_app, length_app, app_assoc.
    rewrite R4, R1 in *. rewrite advanced_advanced in S2. auto.
Qed.

(** X16.  On the reference platform, writing a sequence of pieces with
    one [cip_write] each appends to the target the encryption of their
    concatenation as one stream: the key stream carries on from call to
    call. *)
Theorem write_pieces_store_one_ciphertext (fuel : nat)
    (pieces : list (list byte)) (fp : hFILE_cip string Mock.cipher)
    (w : world Mock.state string) (secret : string) (content : list byte)
    (pos : nat) :
  Mock.stores (w_ext w) secret (rawfp fp) content pos ->
  0 < bufsize fp ->
  Forall (fun piece => (List.length piece <= fuel)%nat) pieces ->
  exists fp' w',
    cip_write_all P fuel fp pieces w = (Some fp', w') /\
    Mock.files (sys (w_ext w')) (rawfp fp)
    = Some (content
            ++ Mock.ctr (keystream (Mock.c_key (ctx fp)) (Mock.c_iv (ctx fp)))
                        (Mock.c_offset (ctx fp)) (List.concat pieces)) /\
    Mock.c_offset (ctx fp')
    = (Mock.c_offset (ctx fp) + List.length (List.concat pieces))%nat.
Proof.
  intros Hst Hbuf Hall.
  destruct (mock_cip_write_all fuel pieces fp w secret content pos Hst Hbuf
              Hall)
    as (fp' & w' & E & (_ & _ & Hf & _) & _ & Hc).
  exists fp', w'. split; [exact E|]. split; [exact Hf|].
  rewrite Hc. reflexivity.
Qed.

Lemma mock_write_session_pieces (fuel : nat) (filename secret : string)
    (pieces : list (list byte)) (w : world Mock.state string) :
  Mock.environment (sys (w_ext w)) = Some secret ->
  Mock.plan (sys (w_ext w)) = Mock.no_faults ->
  (16 <= List.length (Mock.entropy (sys (w_ext w))))%nat ->
  Forall (fun piece => (List.length piece <= fuel)%nat) pieces ->
  let iv := firstn 16 (Mock.entropy (sys (w_ext w))) in
  exists w',
    write_session_pieces P fuel filename pieces w = (Some 0, w') /\
    Mock.stores (w_ext w') secret (strip_cip_scheme filename)
                (iv ++ Mock.ctr (keystream (kdf secret salt) iv) 0
                                (List.concat pieces)) 0.
Proof.
  intros He Hp Hrnd Hall iv.
  unfold write_session_pieces. unfold bind at 1.
  destruct (mock_hopen_cip_write kdf keystream b filename secret w He Hp Hrnd)
    as (fp & w1 & -> & Hst1 & R1 & R2 & R3 & R4).
  fold iv in Hst1, R4.
  unfold bind at 1. rewrite <- R1 in Hst1.
  destruct (mock_cip_write_all fuel pieces fp w1 secret _ _ Hst1
              ltac:(rewrite R2; unfold BLOCKSIZE; lia) Hall)
    as (fp2 & w2 & -> & Hst2 & S1 & S2).
  unfold bind at 1.
  destruct (mock_cip_close kdf keystream b fp2 w2 _ _ _ _ Hst2)
    as (w3 & -> & X3).
  unfold ret. exists w3. split; [reflexivity|].
  rewrite X3, <- R1. rewrite R4 in Hst2. exact Hst2.
Qed.

(** X17.  On the reference platform, a write session that takes its data
    in several [cip_write] calls, empty ones included, closes with 0, and
    a read session on the result returns the concatenation of the
    pieces, for any size of the reads. *)
Theorem write_pieces_then_read_round_trip (secret filename : string)
    (fs : string -> option (list byte)) (rnd : list byte)
    (pieces : list (list byte)) (n : Z) (fuel rounds : nat) :
  (16 <= List.length rnd)%nat ->
  0 < n < SIZE_MODULUS ->
  (List.length (List.concat pieces) < fuel)%nat ->
  (List.length (List.concat pieces) < rounds)%nat ->
  let w0 := Mock.boot (Mock.setup (Some secret) fs rnd Mock.no_faults) in
  let written := write_session_pieces P fuel filename pieces w0 in
  fst written = Some 0 /\
  fst (read_session P rounds fuel filename n (snd written))
  = Some (List.concat pieces).
Proof.
  intros Hrnd Hn Hfuel Hrounds w0 written.
  assert (Hall : Forall (fun piece => (List.length piece <= fuel)%nat) pieces).
  { clear - Hfuel. induction pieces as [|p ps IH]; constructor.
    - simpl in Hfuel. rewrite length_app in Hfuel. lia.
    - apply IH. simpl in Hfuel. rewrite length_app in Hfuel. lia. }
  destruct (mock_write_session_pieces fuel filename secret pieces w0
              eq_refl eq_refl Hrnd Hall)
    as (w1 & E & Hst).
  subst written. rewrite E. split; [reflexivity|].
  cbn [snd]. cbv zeta in Hst.
  change (Mock.entropy (sys (w_ext w0))) with rnd in Hst.
  assert (Hiv : List.length (firstn 16 rnd) = 16%nat).
  { rewrite length_firstn. lia. }
  rewrite (mock_read_session kdf keystream b rounds fuel filename secret n
             _ _ _ w1 Hst Hiv Hn).
  - now rewrite ctr_involutive.
  - now rewrite ctr_length.
  - now rewrite ctr_length.
Qed.

(** ** One read *)

(** X18.  On the reference platform, one [cip_read] of [n] bytes returns
    the plain text of the next [n] bytes of the target, or of all that
    is left when fewer remain: a short count means the end of data. *)
Theorem cip_read_short_only_at_end (fuel : nat)
    (fp : hFILE_cip string Mock.cipher) (n : Z)
    (w : world Mock.state string) (secret : string) (content : list byte)
    (pos : nat) :
  Mock.stores (w_ext w) secret (rawfp fp) content pos ->
  0 < bufsize fp ->
  0 <= n < SIZE_MODULUS ->
  let rest := skipn pos content in
  let m := Nat.min (Z.to_nat n) (List.length rest) in
  (m < fuel)%nat ->
  exists fp' w',
    cip_read P fuel fp n w
    = (Some (Z.of_nat m,
             Mock.ctr (keystream (Mock.c_key (ctx fp)) (Mock.c_iv (ctx fp)))
                      (Mock.c_offset (ctx fp)) (firstn m rest),
             fp'), w') /\
    Mock.position (sys (w_ext w')) = (pos + m)%nat /\
    Mock.c_offset (ctx fp') = (Mock.c_offset (ctx fp) + m)%nat.
Proof.
  intros Hst Hbuf Hn rest m Hfuel. unfold cip_read.
  destruct (mock_cip_read_loop kdf keystream b fuel fp n 0 [] w secret
              content pos Hst Hbuf Hn Hfuel)
    as (fp' & w' & E & (_ & _ & _ & Hp) & _ & _ & _ & Hc).
  exists fp', w'. split; [exact E|]. split; [exact Hp|].
  rewrite Hc. reflexivity.
Qed.

End MoreMockFacts.

(** * The memory-mapped backend *)

Lemma size_sub_small (a b : Z) :
  0 <= b <= a -> a < SIZE_MODULUS -> size_sub a b = a - b.
Proof. intros Hb Ha. unfold size_sub. apply Z.mod_small. lia. Qed.

Lemma size_add_small (a b : Z) :
  0 <= a -> 0 <= b -> a + b < SIZE_MODULUS -> Mmap.size_add a b = a + b.
Proof. intros Ha Hb Hs. unfold Mmap.size_add. apply Z.mod_small. lia. Qed.

Lemma to_signed_small (x : Z) : x < 2 ^ 63 -> Mmap.to_signed x = x.
Proof.
  intros Hx. unfold Mmap.to_signed.
  destruct (x <? 2 ^ 63) eqn:E; [reflexivity|]. apply Z.ltb_ge in E. lia.
Qed.

Lemma len_take_min (n : Z) (l : list byte) :
  0 <= n -> len (take n l) = Z.min n (len l).
Proof. intros Hn. unfold len, take. rewrite length_firstn. lia. Qed.

Lemma len_drop_sub (n : Z) (l : list byte) :
  0 <= n -> len (drop n l) = Z.max 0 (len l - n).
Proof. intros Hn. unfold len, drop. rewrite length_skipn. lia. Qed.

Lemma modulus_value : SIZE_MODULUS = 2 * 2 ^ 63.
Proof. reflexivity. Qed.

(** The number of bytes a transfer of [nbytes] moves. *)
Lemma transfer_count (fp : Mmap.hFILE_mmap) (nbytes : Z) :
  Mmap.well_formed fp ->
  0 <= nbytes ->
  (if size_sub (Mmap.length fp) (Mmap.pos fp) <? nbytes
   then size_sub (Mmap.length fp) (Mmap.pos fp) else nbytes)
  = Z.min nbytes (Mmap.length fp - Mmap.pos fp).
Proof.
  intros (Hp & Hl & Hm) Hn. pose proof modulus_value.
  rewrite size_sub_small by lia.
  destruct (Mmap.length fp - Mmap.pos fp <? nbytes) eqn:E;
    [apply Z.ltb_lt in E|apply Z.ltb_ge in E]; lia.
Qed.

(** X19.  [mmap_read] never reads past the mapping: it returns the
    smaller of the size asked for and what is left, gives exactly the
    bytes at the position, advances by that count and leaves the mapping
    as it was. *)
Theorem mmap_read_within_mapping (fp : Mmap.hFILE_mmap) (nbytes : Z) :
  Mmap.well_formed fp ->
  0 <= nbytes ->
  let r := Mmap.mmap_read fp nbytes in
  let k := Z.min nbytes (Mmap.length fp - Mmap.pos fp) in
  fst (fst r) = k /\
  snd (fst r) = Mmap.region fp (Mmap.pos fp) k /\
  len (snd (fst r)) = k /\
  Mmap.pos (snd r) = Mmap.pos fp + k /\
  Mmap.buffer (snd r) = Mmap.buffer fp /\
  Mmap.well_formed (snd r).
Proof.
  intros Hwf Hn r k. subst r. unfold Mmap.mmap_read. cbn [fst snd].
  rewrite (transfer_count fp nbytes Hwf Hn). fold k.
  destruct Hwf as (Hp & Hl & Hm). pose proof modulus_value.
  assert (Hk : 0 <= k <= Mmap.length fp - Mmap.pos fp) by (unfold k; lia).
  rewrite to_signed_small by lia.
  rewrite size_add_small by lia.
  cbn [Mmap.pos Mmap.buffer].
  split; [reflexivity|]. split; [reflexivity|]. split; [|split; [|split]].
  - unfold Mmap.region. rewrite len_take_min, len_drop_sub by lia. lia.
  - reflexivity.
  - reflexivity.
  - unfold Mmap.well_formed. cbn [Mmap.pos Mmap.length Mmap.buffer]. lia.
Qed.

Lemma len_patch (block data : list byte) (at_ n : Z) :
  0 <= at_ -> 0 <= n -> n <= len data -> at_ + n <= len block ->
  len (Mmap.patch block at_ n data) = len block.
Proof.
  intros Ha Hn Hd Hb. unfold Mmap.patch.
  rewrite !len_app, !len_take_min, len_drop_sub by lia. lia.
Qed.

Lemma take_patch (block data : list byte) (at_ n : Z) :
  0 <= at_ <= len block ->
  take at_ (Mmap.patch block at_ n data) = take at_ block.
Proof.
  intros Ha. unfold Mmap.patch, take.
  rewrite firstn_app.
  rewrite length_firstn.
  replace (Z.to_nat at_ - Nat.min (Z.to_nat at_) (List.length block))%nat
    with 0%nat by (unfold len in Ha; lia).
  rewrite firstn_firstn, Nat.min_id. simpl. apply app_nil_r.
Qed.

Lemma drop_app_exact (a b : list byte) (n : Z) :
  len a = n -> drop n (a ++ b) = b.
Proof.
  intros Hl. unfold drop, len in *.
  rewrite skipn_app.
  replace (Z.to_nat n) with (List.length a) by lia.
  rewrite skipn_all, Nat.sub_diag. reflexivity.
Qed.

Lemma take_app_exact (a b : list byte) (n : Z) :
  len a = n -> take n (a ++ b) = a.
Proof.
  intros Hl. unfold take, len in *.
  rewrite firstn_app.
  replace (Z.to_nat n) with (List.length a) by lia.
  rewrite firstn_all, Nat.sub_diag. simpl. apply app_nil_r.
Qed.

Lemma patched_region (block data : list byte) (at_ n : Z) :
  0 <= at_ -> 0 <= n -> n <= len data -> at_ + n <= len block ->
  take n (drop at_ (Mmap.patch block at_ n data)) = take n data /\
  drop (at_ + n) (Mmap.patch block at_ n data) = drop (at_ + n) block.
Proof.
  intros Ha Hn Hd Hb. unfold Mmap.patch. split.
  - rewrite drop_app_exact by (rewrite len_take_min; lia).
    apply take_app_exact. rewrite len_take_min; lia.
  - rewrite app_assoc. apply drop_app_exact.
    rewrite len_app, !len_take_min by lia. lia.
Qed.

(** X20.  [mmap_write] never writes past the mapping: it stores the
    smaller of the size given and what is left at the position, advances
    by that count, changes no byte before or after the range written and
    never grows the mapping. *)
Theorem mmap_write_within_mapping (fp : Mmap.hFILE_mmap) (data : list byte) :
  Mmap.well_formed fp ->
  let r := Mmap.mmap_write fp data in
  let k := Z.min (len data) (Mmap.length fp - Mmap.pos fp) in
  fst r = k /\
  Mmap.pos (snd r) = Mmap.pos fp + k /\
  Mmap.region (snd r) (Mmap.pos fp) k = take k data /\
  take (Mmap.pos fp) (Mmap.buffer (snd r))
  = take (Mmap.pos fp) (Mmap.buffer fp) /\
  drop (Mmap.pos fp + k) (Mmap.buffer (snd r))
  = drop (Mmap.pos fp + k) (Mmap.buffer fp) /\
  len (Mmap.buffer (snd r)) = len (Mmap.buffer fp) /\
  Mmap.well_formed (snd r).
Proof.
  intros Hwf r k. subst r. unfold Mmap.mmap_write. cbn [fst snd].
  pose proof (len_nonneg data) as Hd.
  rewrite (transfer_count fp (len data) Hwf Hd). fold k.
  destruct Hwf as (Hp & Hl & Hm). pose proof modulus_value.
  assert (Hk : 0 <= k <= Mmap.length fp - Mmap.pos fp) by (unfold k; lia).
  assert (Hkd : k <= len data) by (unfold k; lia).
  rewrite to_signed_small by lia.
  rewrite size_add_small by lia.
  unfold Mmap.region. cbn [Mmap.pos Mmap.buffer Mmap.length].
  destruct (patched_region (Mmap.buffer fp) data (Mmap.pos fp) k)
    as [R1 R2]; try lia.
  pose proof (len_patch (Mmap.buffer fp) data (Mmap.pos fp) k) as L.
  split; [reflexivity|]. split; [reflexivity|]. split; [exact R1|].
  split; [apply take_patch; lia|]. split; [exact R2|].
  split; [apply L; lia|].
  unfold Mmap.well_formed. cbn [Mmap.pos Mmap.length Mmap.buffer].
  rewrite L by lia. lia.
Qed.

(** [mmap_seek] with the origin made explicit. *)
Lemma mmap_seek_from_origin (fp : Mmap.hFILE_mmap) (offset whence errno : Z)
    (origin : Z) :
  Mmap.well_formed fp ->
  - 2 ^ 63 <= offset < 2 ^ 63 ->
  (whence = Mmap.SEEK_SET /\ origin = 0) \/
  (whence = Mmap.SEEK_CUR /\ origin = Mmap.pos fp) \/
  (whence = Mmap.SEEK_END /\ origin = Mmap.length fp) ->
  Mmap.mmap_seek fp offset whence errno
  = if (0 <=? origin + offset) && (origin + offset <=? Mmap.length fp)
    then (origin + offset,
          Mmap.mk_hFILE_mmap (Mmap.buffer fp) (Mmap.length fp)
                             (origin + offset) (Mmap.fd fp),
          errno)
    else (-1, fp, EINVAL).
Proof.
  intros (Hp & Hl & Hm) Ho Hw. pose proof modulus_value as HM.
  assert (Horigin : 0 <= origin <= Mmap.length fp)
    by (destruct Hw as [[_ ->]|[[_ ->]|[_ ->]]]; lia).
  assert (Hsel : (if whence =? Mmap.SEEK_SET then Some 0
                  else if whence =? Mmap.SEEK_CUR then Some (Mmap.pos fp)
                  else if whence =? Mmap.SEEK_END then Some (Mmap.length fp)
                  else None) = Some origin)
    by (destruct Hw as [[-> ->]|[[-> ->]|[-> ->]]]; reflexivity).
  unfold Mmap.mmap_seek. rewrite Hsel.
  rewrite (size_sub_small (Mmap.length fp) origin) by lia.
  assert (Habs : (if 0 <=? offset then offset else - offset) mod SIZE_MODULUS
                 = Z.abs offset).
  { destruct (0 <=? offset) eqn:E;
      [apply Z.leb_le in E|apply Z.leb_gt in E];
      rewrite Z.mod_small by lia; lia. }
  rewrite Habs.
  destruct (0 <=? offset) eqn:Eo;
    [apply Z.leb_le in Eo|apply Z.leb_gt in Eo].
  - replace (offset <? 0) with false by (symmetry; apply Z.ltb_ge; lia).
    cbn [andb orb].
    replace (0 <=? origin + offset) with true
      by (symmetry; apply Z.leb_le; lia).
    cbn [andb].
    destruct (Mmap.length fp - origin <? Z.abs offset) eqn:E;
      [apply Z.ltb_lt in E|apply Z.ltb_ge in E].
    + replace (origin + offset <=? Mmap.length fp) with false
        by (symmetry; apply Z.leb_gt; lia).
      reflexivity.
    + replace (origin + offset <=? Mmap.length fp) with true
        by (symmetry; apply Z.leb_le; lia).
      cbn [Mmap.pos]. unfold Mmap.size_add.
      rewrite Z.add_mod_idemp_r by lia.
      rewrite Z.mod_small by lia.
      rewrite to_signed_small by lia. reflexivity.
  - replace (offset <? 0) with true by (symmetry; apply Z.ltb_lt; lia).
    replace (origin + offset <=? Mmap.length fp) with true
      by (symmetry; apply Z.leb_le; lia).
    rewrite andb_true_r. cbn [andb orb].
    rewrite orb_false_r.
    destruct (origin <? Z.abs offset) eqn:E;
      [apply Z.ltb_lt in E|apply Z.ltb_ge in E].
    + replace (0 <=? origin + offset) with false
        by (symmetry; apply Z.leb_gt; lia).
      reflexivity.
    + replace (0 <=? origin + offset) with true
        by (symmetry; apply Z.leb_le; lia).
      cbn [Mmap.pos]. unfold Mmap.size_add.
      rewrite Z.add_mod_idemp_r by lia.
      rewrite Z.mod_small by lia.
      rewrite to_signed_small by lia. reflexivity.
Qed.

(** X21.  [mmap_seek] either fails with [EINVAL], moving nothing, or
    moves the position to origin plus offset and returns it; either way
    the position is inside the mapping afterwards and the bytes are
    untouched. *)
Theorem mmap_seek_stays_inside (fp : Mmap.hFILE_mmap)
    (offset whence errno : Z) :
  Mmap.well_formed fp ->
  - 2 ^ 63 <= offset < 2 ^ 63 ->
  let r := Mmap.mmap_seek fp offset whence errno in
  Mmap.well_formed (snd (fst r)) /\
  Mmap.buffer (snd (fst r)) = Mmap.buffer fp /\
  (fst (fst r) = -1 /\ snd r = EINVAL /\ snd (fst r) = fp \/
   fst (fst r) = Mmap.pos (snd (fst r)) /\ snd r = errno /\
   (whence = Mmap.SEEK_SET /\ Mmap.pos (snd (fst r)) = offset \/
    whence = Mmap.SEEK_CUR /\ Mmap.pos (snd (fst r)) = Mmap.pos fp + offset \/
    whence = Mmap.SEEK_END /\
    Mmap.pos (snd (fst r)) = Mmap.length fp + offset)).
Proof.
  intros Hwf Ho r. subst r.
  destruct (Z.eq_dec whence Mmap.SEEK_SET) as [H0|H0];
    [|destruct (Z.eq_dec whence Mmap.SEEK_CUR) as [H1|H1];
      [|destruct (Z.eq_dec whence Mmap.SEEK_END) as [H2|H2]]].
  - rewrite (mmap_seek_from_origin fp offset whence errno 0 Hwf Ho) by auto.
    destruct ((0 <=? 0 + offset) && (0 + offset <=? Mmap.length fp)) eqn:E.
    + apply andb_true_iff in E. destruct E as [E1%Z.leb_le E2%Z.leb_le].
      destruct Hwf as (Hp & Hl & Hm). cbn [fst snd]. unfold Mmap.well_formed.
      cbn [Mmap.pos Mmap.length Mmap.buffer].
      split; [lia|]. split; [reflexivity|]. right. auto 10.
    + cbn [fst snd]. auto 10.
  - rewrite (mmap_seek_from_origin fp offset whence errno (Mmap.pos fp) Hwf Ho)
      by auto.
    destruct ((0 <=? Mmap.pos fp + offset)
              && (Mmap.pos fp + offset <=? Mmap.length fp)) eqn:E.
    + apply andb_true_iff in E. destruct E as [E1%Z.leb_le E2%Z.leb_le].
      destruct Hwf as (Hp & Hl & Hm). cbn [fst snd]. unfold Mmap.well_formed.
      cbn [Mmap.pos Mmap.length Mmap.buffer].
      split; [lia|]. split; [reflexivity|]. right. auto 10.
    + cbn [fst snd]. auto 10.
  - rewrite (mmap_seek_from_origin fp offset whence errno (Mmap.length fp)
               Hwf Ho) by auto.
    destruct ((0 <=? Mmap.length fp + offset)
              && (Mmap.length fp + offset <=? Mmap.length fp)) eqn:E.
    + apply andb_true_iff in E. destruct E as [E1%Z.leb_le E2%Z.leb_le].
      destruct Hwf as (Hp & Hl & Hm). cbn [fst snd]. unfold Mmap.well_formed.
      cbn [Mmap.pos Mmap.length Mmap.buffer].
      split; [lia|]. split; [reflexivity|]. right. auto 10.
    + cbn [fst snd]. auto 10.
  - unfold Mmap.mmap_seek.
    apply Z.eqb_neq in H0, H1, H2. rewrite H0, H1, H2. cbn [fst snd].
    auto 10.
Qed.

(** X22.  An absolute seek succeeds exactly for targets from 0 to the
    length of the mapping, its end included; and every such target can
    also be reached relative to the current position or to the end. *)
Theorem mmap_seek_accepts_exactly_the_mapping (fp : Mmap.hFILE_mmap)
    (target errno : Z) :
  Mmap.well_formed fp ->
  - 2 ^ 63 <= target < 2 ^ 63 ->
  fst (fst (Mmap.mmap_seek fp target Mmap.SEEK_SET errno))
  = (if (0 <=? target) && (target <=? Mmap.length fp) then target else -1) /\
  (0 <= target <= Mmap.length fp ->
   fst (fst (Mmap.mmap_seek fp (target - Mmap.pos fp) Mmap.SEEK_CUR errno))
   = target /\
   fst (fst (Mmap.mmap_seek fp (target - Mmap.length fp) Mmap.SEEK_END errno))
   = target).
Proof.
  intros Hwf Ht. pose proof Hwf as (Hp & Hl & Hm). split.
  - rewrite (mmap_seek_from_origin fp target _ errno 0 Hwf Ht) by auto.
    cbn [Z.add].
    destruct ((0 <=? target) && (target <=? Mmap.length fp)); reflexivity.
  - intros Hin. split.
    + rewrite (mmap_seek_from_origin fp _ _ errno (Mmap.pos fp) Hwf)
        by (auto; lia).
      replace (Mmap.pos fp + (target - Mmap.pos fp)) with target by lia.
      replace ((0 <=? target) && (target <=? Mmap.length fp)) with true.
      * reflexivity.
      * symmetry. apply andb_true_iff. split; apply Z.leb_le; lia.
    + rewrite (mmap_seek_from_origin fp _ _ errno (Mmap.length fp) Hwf)
        by (auto; lia).
      replace (Mmap.length fp + (target - Mmap.length fp)) with target by lia.
      replace ((0 <=? target) && (target <=? Mmap.length fp)) with true.
      * reflexivity.
      * symmetry. apply andb_true_iff. split; apply Z.leb_le; lia.
Qed.

(** X23.  Data that fits in what is left of the mapping, once written,
    is read back unchanged after seeking back by its length. *)
Theorem mmap_write_seek_read_round_trip (fp : Mmap.hFILE_mmap)
    (data : list byte) (errno : Z) :
  Mmap.well_formed fp ->
  len data <= Mmap.length fp - Mmap.pos fp ->
  let written := Mmap.mmap_write fp data in
  let sought := Mmap.mmap_seek (snd written) (- len data) Mmap.SEEK_CUR errno in
  let read := Mmap.mmap_read (snd (fst sought)) (len data) in
  fst written = len data /\
  fst (fst sought) = Mmap.pos fp /\
  fst (fst read) = len data /\
  snd (fst read) = data.
Proof.
  intros Hwf Hfit written sought read.
  pose proof (len_nonneg data) as Hd.
  pose proof Hwf as (Hp & Hl & Hm). pose proof modulus_value as HM.
  assert (Hk : Z.min (len data) (Mmap.length fp - Mmap.pos fp) = len data)
    by lia.
  assert (Ew : written
               = (len data,
                  Mmap.mk_hFILE_mmap
                    (Mmap.patch (Mmap.buffer fp) (Mmap.pos fp) (len data) data)
                    (Mmap.length fp) (Mmap.pos fp + len data) (Mmap.fd fp))).
  { subst written. unfold Mmap.mmap_write.
    rewrite (transfer_count fp (len data) Hwf Hd), Hk.
    rewrite to_signed_small, size_add_small by lia. reflexivity. }
  pose proof (len_patch (Mmap.buffer fp) data (Mmap.pos fp) (len data)
                ltac:(lia) Hd ltac:(lia) ltac:(lia)) as Lp.
  assert (Hwf1 : Mmap.well_formed (snd written)).
  { rewrite Ew. unfold Mmap.well_formed.
    cbn [snd Mmap.pos Mmap.length Mmap.buffer]. rewrite Lp. lia. }
  assert (Es : sought
               = (Mmap.pos fp,
                  Mmap.mk_hFILE_mmap
                    (Mmap.patch (Mmap.buffer fp) (Mmap.pos fp) (len data) data)
                    (Mmap.length fp) (Mmap.pos fp) (Mmap.fd fp), errno)).
  { subst sought.
    rewrite (mmap_seek_from_origin (snd written) (- len data) _ errno
               (Mmap.pos (snd written)) Hwf1) by (auto; lia).
    rewrite Ew. cbn [snd Mmap.pos Mmap.length Mmap.buffer Mmap.fd].
    replace (Mmap.pos fp + len data + - len data) with (Mmap.pos fp) by lia.
    replace ((0 <=? Mmap.pos fp) && (Mmap.pos fp <=? Mmap.length fp))
      with true; [reflexivity|].
    symmetry. apply andb_true_iff. split; apply Z.leb_le; lia. }
  assert (Hwf2 : Mmap.well_formed (snd (fst sought))).
  { rewrite Es. unfold Mmap.well_formed.
    cbn [fst snd Mmap.pos Mmap.length Mmap.buffer]. rewrite Lp. lia. }
  split; [now rewrite Ew|]. split; [now rewrite Es|].
  subst read. unfold Mmap.mmap_read. cbn [fst snd].
  rewrite (transfer_count _ (len data) Hwf2 Hd).
  rewrite Es. cbn [fst snd Mmap.pos Mmap.length Mmap.buffer].
  rewrite Hk. rewrite to_signed_small by lia. split; [reflexivity|].
  unfold Mmap.region. cbn [Mmap.buffer].
  destruct (patched_region (Mmap.buffer fp) data (Mmap.pos fp) (len data))
    as [R1 _]; try lia.
  rewrite R1. unfold take, len. rewrite Nat2Z.id. apply firstn_all.
Qed.

(** * The further theorems at work on concrete scenarios *)

Lemma mock_counter_mode (kdf : string -> list byte -> list byte)
    (keystream : list byte -> list byte -> nat -> byte) (b : Mock.backend) :
  counter_mode (Mock.mock kdf keystream b).
Proof.
  unfold counter_mode. destruct b; simpl; repeat split.
  - intros c input e r out c' e' E _. injection E as _ <- _ _.
    unfold len, Mock.transform. now rewrite ctr_length.
  - intros c e r out c' e' E _. now injection E as _ <- _ _.
  - intros n e r bytes e' E Hn Hr. unfold Mock.m_random in E.
    destruct (List.length (Mock.entropy (sys e)) <? Z.to_nat n)%nat eqn:Hl.
    + injection E as <- _ _. lia.
    + injection E as _ <- _. unfold len. rewrite length_firstn.
      apply Nat.ltb_ge in Hl. lia.
  - intros c input n e out c' e' E. injection E as <- _ _.
    unfold len, Mock.transform. now rewrite ctr_length.
  - intros c n e out c' e' E.
    destruct (Mock.final_fault (Mock.plan (sys e))); [discriminate|].
    now injection E as <- _ _.
  - intros n e bytes e' E Hn. unfold Mock.m_random in E.
    destruct (List.length (Mock.entropy (sys e)) <? Z.to_nat n)%nat eqn:Hl.
    + discriminate.
    + injection E as <- _. unfold len. rewrite length_firstn.
      apply Nat.ltb_ge in Hl. lia.
Qed.

Lemma mock_bounded_reads (kdf : string -> list byte -> list byte)
    (keystream : list byte -> list byte -> nat -> byte) (b : Mock.backend) :
  bounded_reads (Mock.mock kdf keystream b).
Proof.
  intros h n e data e' Hn E. simpl in E. unfold Mock.m_hread in E.
  destruct (Mock.read_fault _ _); [discriminate|].
  destruct (Mock.files _ h); [|discriminate].
  injection E as <- _. unfold len. rewrite length_firstn. lia.
Qed.

Lemma strip_cip_scheme_other_names_witness :
  strip_cip_scheme "data/cip:reads.bam" = "data/cip:reads.bam"%string.
Proof.
  apply (strip_cip_scheme_other_names "data/cip:reads.bam"). reflexivity.
Defined.

Lemma strip_cip_scheme_bare_exact_witness :
  strip_cip_scheme ("cip:" ++ "//example.org/reads.bam")
  = "//example.org/reads.bam"%string.
Proof.
  apply (strip_cip_scheme_bare_exact "//example.org/reads.bam");
    reflexivity.
Defined.

Lemma cip_isremote_looks_through_scheme_witness :
  cip_isremote MoreExamples.is_http "reads.bam" = 0 /\
  cip_isremote MoreExamples.is_http ("cip:" ++ "http://example.org/reads.bam")
  = 1.
Proof.
  destruct (cip_isremote_looks_through_scheme MoreExamples.is_http)
    as (A & B & _).
  split.
  - rewrite (A "reads.bam"%string eq_refl). reflexivity.
  - rewrite (B "http://example.org/reads.bam"%string eq_refl eq_refl).
    reflexivity.
Defined.

Lemma hopen_cip_allocation_fails_witness :
  let r := hopen_cip MoreExamples.no_memory "cip:reads.bam" "r"
                     MoreExamples.five_bytes in
  fst r = None /\ errno (w_ext (snd r)) = ENOMEM /\
  existsb is_stream_call (events_since MoreExamples.five_bytes (snd r))
  = false.
Proof.
  pose proof (hopen_cip_allocation_fails MoreExamples.no_memory
                "cip:reads.bam" "r" "secret" MoreExamples.five_bytes
                (w_ext MoreExamples.five_bytes)
                (Ext ENOMEM (sys (w_ext MoreExamples.five_bytes)))
                eq_refl eq_refl) as T.
  cbv zeta in T. destruct T as (T1 & T2 & T3). cbv zeta.
  split; [exact T1|]. split; [now rewrite T2|]. now rewrite T3.
Defined.

Lemma hopen_cip_underlying_open_fails_witness :
  let r := hopen_cip (Examples.reference Mock.OpenSSL) "cip:reads.bam" "r"
                     Examples.fresh in
  fst r = None /\ errno (w_ext (snd r)) = Mock.ENOENT /\
  existsb is_release_call (events_since Examples.fresh (snd r)) = true /\
  In Call_hfile_destroy (events_since Examples.fresh (snd r)).
Proof.
  pose proof (hopen_cip_underlying_open_fails
                (Examples.reference Mock.OpenSSL)
                "cip:reads.bam" "r" "secret" Examples.fresh
                (w_ext Examples.fresh) (w_ext Examples.fresh)
                (Ext Mock.ENOENT (sys (w_ext Examples.fresh)))
                eq_refl eq_refl eq_refl) as T.
  cbv zeta in T. destruct T as (T1 & T2 & T3). cbv zeta.
  split; [exact T1|]. split; [exact T2|]. rewrite T3.
  split; [reflexivity|]. simpl. auto.
Defined.

Lemma hopen_cip_header_read_error_witness :
  let r := hopen_cip (Examples.reference Mock.CommonCrypto) "cip:reads.bam"
                     "r" Examples.failing_read in
  fst r = None /\ errno (w_ext (snd r)) = Mock.EIO.
Proof.
  pose proof (hopen_cip_header_read_error
                (Examples.reference Mock.CommonCrypto)
                "cip:reads.bam" "r" "secret" Examples.failing_read
                (w_ext Examples.failing_read)
                (w_ext Examples.failing_read)
                (snd (Mock.m_hopen "reads.bam" "r"
                        (w_ext Examples.failing_read)))
                (snd (Mock.m_hopen "reads.bam" "r"
                        (w_ext Examples.failing_read)))
                (Ext Mock.EIO
                     (sys (snd (Mock.m_hopen "reads.bam" "r"
                                  (w_ext Examples.failing_read)))))
                "reads.bam"%string (Mock.zeros (8192 * BLOCKSIZE))
                eq_refl eq_refl eq_refl eq_refl eq_refl eq_refl) as T.
  cbv zeta in T. cbv zeta. tauto.
Defined.

Lemma hopen_cip_releases_or_returns_witness :
  exists mid,
    events_since Examples.short_target
      (snd (hopen_cip (Examples.reference Mock.OpenSSL) "cip:reads.bam" "r"
                      Examples.short_target))
    = [Call_getenv "HTS_CIP_KEY"; Call_hfile_init "r";
       Call_hopen "reads.bam" "r"; Call_malloc (8192 * BLOCKSIZE)]
      ++ mid
      ++ [Call_hclose_abruptly "reads.bam"%string; Call_free;
          Call_hfile_destroy].
Proof.
  set (P := Examples.reference Mock.OpenSSL).
  set (w := Examples.short_target).
  set (e3 := snd (Mock.m_hopen "reads.bam" "r" (w_ext w))).
  destruct (hopen_cip_releases_or_returns P "cip:reads.bam" "r" "secret" w
              (w_ext w) (w_ext w) e3 e3 "reads.bam"%string
              (Mock.zeros (8192 * BLOCKSIZE))
              eq_refl eq_refl eq_refl eq_refl)
    as (mid & _ & T).
  assert (N : fst (hopen_cip P "cip:reads.bam" "r" w) = None)
    by (lazy -[Mock.zeros]; reflexivity).
  rewrite N in T. exists mid. exact T.
Defined.

Lemma hopen_cip_direction_witness :
  let P := Examples.reference Mock.CommonCrypto in
  let opened := hopen_cip P "cip:reads.bam" "w" Examples.fresh in
  exists fp evs,
    fst opened = Some fp /\ is_write fp = true /\
    events_since Examples.fresh (snd opened)
    = evs ++ [Call_cipher_init true].
Proof.
  intros P opened.
  set (fp := mk_hFILE_cip true (Mock.zeros (8192 * BLOCKSIZE))
                          (8192 * BLOCKSIZE) "reads.bam"%string
                          (Mock.mk_cipher (Examples.kdf "secret" salt)
                                          (firstn 16 Examples.entropy) 0 true)).
  assert (Hopen : hopen_cip P "cip:reads.bam" "w" Examples.fresh
                  = (Some fp, snd opened))
    by (lazy -[Mock.zeros]; reflexivity).
  destruct (hopen_cip_direction P "cip:reads.bam" "w" Examples.fresh
              (snd opened) fp Hopen)
    as (_ & _ & evs & E & _).
  exists fp, evs. split; [unfold opened; now rewrite Hopen|].
  split; [reflexivity|exact E].
Defined.

Lemma hopen_cip_cipher_setup_fails_witness :
  let r := hopen_cip MoreExamples.broken_cipher "cip:reads.bam" "w"
                     Examples.fresh in
  fst r = None /\ errno (w_ext (snd r)) = EINVAL /\
  written_bytes (events_since Examples.fresh (snd r))
  = firstn 16 Examples.entropy.
Proof.
  set (P := MoreExamples.broken_cipher).
  set (w := Examples.fresh).
  set (e3 := snd (hopen P "reads.bam" "w" (w_ext w))).
  set (w4 := World e3 (trace w ++ [Call_getenv "HTS_CIP_KEY";
                                   Call_hfile_init "w";
                                   Call_hopen "reads.bam" "w";
                                   Call_malloc (8192 * BLOCKSIZE)])).
  set (w5 := snd (open_header P "reads.bam"%string O_WRONLY w4)).
  set (w6 := snd (cipher_setup P "secret" (firstn 16 Examples.entropy)
                    O_WRONLY w5)).
  assert (Hh : open_header P "reads.bam"%string
                 (Z.land (hfile_oflags P "w") O_ACCMODE) w4
               = (Some (firstn 16 Examples.entropy, true), w5))
    by (lazy -[Mock.zeros]; reflexivity).
  assert (Hs : cipher_setup P "secret" (firstn 16 Examples.entropy)
                 (Z.land (hfile_oflags P "w") O_ACCMODE) w5
               = (None, w6))
    by (lazy -[Mock.zeros]; reflexivity).
  pose proof (hopen_cip_cipher_setup_fails P "cip:reads.bam" "w" "secret"
                w w5 w6 (w_ext w) (w_ext w) e3 e3 "reads.bam"%string
                (Mock.zeros (8192 * BLOCKSIZE)) (firstn 16 Examples.entropy)
                true eq_refl eq_refl eq_refl eq_refl Hh Hs) as T.
  cbv zeta in T. destruct T as (T1 & T2 & _ & T4 & _). cbv zeta.
  split; [exact T1|]. split; [|exact T4].
  rewrite T2. lazy -[Mock.zeros]. reflexivity.
Defined.

Lemma crypto_helpers_set_errno_witness :
  errno (w_ext (snd (gen_random (Examples.reference Mock.OpenSSL) 64
                                Examples.fresh))) <> 0 /\
  errno (w_ext (snd (cipher_update MoreExamples.broken_cipher
                                   (ctx (Examples.handle true)) [1; 2]
                                   Examples.fresh))) <> 0 /\
  errno (w_ext (snd (cipher_final (Examples.reference Mock.CommonCrypto)
                                  (ctx (Examples.handle true)) 4
                                  Examples.failing_close))) <> 0.
Proof.
  split; [|split].
  - apply (proj1 (crypto_helpers_set_errno (Examples.reference Mock.OpenSSL))
                 64 Examples.fresh).
    vm_compute. discriminate.
  - apply (proj1 (proj2 (crypto_helpers_set_errno MoreExamples.broken_cipher))
                 (ctx (Examples.handle true)) [1; 2] Examples.fresh).
    reflexivity.
  - apply (proj2 (proj2 (crypto_helpers_set_errno
                           (Examples.reference Mock.CommonCrypto)))
                 (ctx (Examples.handle true)) 4 Examples.failing_close).
    reflexivity.
Defined.

Lemma cip_read_cipher_failure_witness :
  fst (cip_read_loop MoreExamples.storing_cipher 1 (Examples.handle false)
                     4 3 [7; 8; 9] MoreExamples.five_bytes)
  = Some (-1, [7; 8; 9; 99; 98],
          with_ctx (with_buffer (Examples.handle false)
                      (store [1; 2; 3; 4] (buffer (Examples.handle false))))
                   (ctx (Examples.handle false))).
Proof.
  set (P := MoreExamples.storing_cipher).
  set (w := MoreExamples.five_bytes).
  set (e1 := snd (hread P "reads.bam"%string 4 (w_ext w))).
  set (w2 := snd (cipher_update P (ctx (Examples.handle false)) [1; 2; 3; 4]
                    (World e1 (trace w ++ [Call_hread "reads.bam"%string 4])))).
  rewrite (cip_read_cipher_failure P 0 (Examples.handle false) 4 3 (-1)
             [7; 8; 9] [1; 2; 3; 4] [99; 98] (ctx (Examples.handle false))
             w w2 e1 eq_refl eq_refl ltac:(discriminate) eq_refl eq_refl).
  reflexivity.
Defined.

Lemma cip_write_cipher_failure_witness :
  fst (cip_write_loop MoreExamples.broken_cipher 1 (Examples.handle true)
                      [7; 8] 0 MoreExamples.five_bytes)
  = Some (-1, with_ctx (with_buffer (Examples.handle true)
                          (store [] (buffer (Examples.handle true))))
                       (ctx (Examples.handle true))) /\
  Mock.files (sys (w_ext (snd (cip_write_loop MoreExamples.broken_cipher 1
                                 (Examples.handle true) [7; 8] 0
                                 MoreExamples.five_bytes))))
             "reads.bam"%string
  = Some [1; 2; 3; 4; 5].
Proof.
  set (P := MoreExamples.broken_cipher).
  set (w := MoreExamples.five_bytes).
  set (w1 := snd (cipher_update P (ctx (Examples.handle true)) [7; 8] w)).
  destruct (cip_write_cipher_failure P 0 (Examples.handle true) [7; 8] []
              0 (-1) (ctx (Examples.handle true)) w w1
              eq_refl eq_refl eq_refl)
    as [T _].
  rewrite T. split; reflexivity.
Defined.

Lemma cip_read_bounded_witness :
  exists r out fp' w',
    cip_read (Examples.reference Mock.OpenSSL) 8 (Examples.handle false) 7
             MoreExamples.five_bytes
    = (Some (r, out, fp'), w') /\
    (r = -1 \/ (0 <= r <= 7 /\ len out = r)).
Proof.
  apply (cip_read_bounded (Examples.reference Mock.OpenSSL) 8
           (Examples.handle false) 7 MoreExamples.five_bytes).
  - apply mock_counter_mode.
  - apply mock_bounded_reads.
  - discriminate.
  - split; [discriminate|reflexivity].
  - simpl. lia.
Defined.

Lemma cip_close_read_handle_witness :
  existsb is_flush_call
          (events_since MoreExamples.five_bytes
             (snd (cip_close (Examples.reference Mock.OpenSSL)
                             (Examples.handle false)
                             MoreExamples.five_bytes)))
  = false.
Proof.
  destruct (cip_close_read_handle (Examples.reference Mock.OpenSSL)
              (Examples.handle false) MoreExamples.five_bytes eq_refl)
    as (rest & _ & T).
  exact T.
Defined.

Lemma five_bytes_stores :
  Mock.stores (w_ext MoreExamples.five_bytes) "secret" "reads.bam"
              [1; 2; 3; 4; 5] 0.
Proof. repeat split. Qed.

Lemma write_pieces_store_one_ciphertext_witness :
  exists fp' w',
    cip_write_all (Examples.reference Mock.OpenSSL) 3 (Examples.handle true)
                  [[7]; [8; 9]] MoreExamples.five_bytes
    = (Some fp', w') /\
    Mock.files (sys (w_ext w')) "reads.bam"%string
    = Some ([1; 2; 3; 4; 5]
            ++ Mock.ctr (Examples.keystream [1; 2] [3; 4]) 0 [7; 8; 9]).
Proof.
  destruct (write_pieces_store_one_ciphertext Examples.kdf Examples.keystream
              Mock.OpenSSL 3 [[7]; [8; 9]] (Examples.handle true)
              MoreExamples.five_bytes "secret" [1; 2; 3; 4; 5] 0
              five_bytes_stores eq_refl)
    as (fp' & w' & E & F & _).
  - repeat constructor.
  - exists fp', w'. split; [exact E|exact F].
Defined.

Lemma write_pieces_then_read_round_trip_witness :
  let P := Examples.reference Mock.OpenSSL in
  let written := write_session_pieces P 5 "cip:///tmp/reads.bam"
                                      [[1; 2]; []; [3; 4]] Examples.fresh in
  fst written = Some 0 /\
  fst (read_session P 5 5 "cip:///tmp/reads.bam" 3 (snd written))
  = Some [1; 2; 3; 4].
Proof.
  apply (write_pieces_then_read_round_trip Examples.kdf Examples.keystream
           Mock.OpenSSL "secret" "cip:///tmp/reads.bam" Examples.no_file
           Examples.entropy [[1; 2]; []; [3; 4]] 3 5 5).
  - simpl. lia.
  - split; reflexivity.
  - simpl. lia.
  - simpl. lia.
Defined.

Lemma cip_read_short_only_at_end_witness :
  exists fp' w',
    cip_read (Examples.reference Mock.CommonCrypto) 8 (Examples.handle false)
             7 MoreExamples.five_bytes
    = (Some (5, Mock.ctr (Examples.keystream [1; 2] [3; 4]) 0 [1; 2; 3; 4; 5],
             fp'), w') /\
    Mock.position (sys (w_ext w')) = 5%nat.
Proof.
  destruct (cip_read_short_only_at_end Examples.kdf Examples.keystream
              Mock.CommonCrypto 8 (Examples.handle false) 7
              MoreExamples.five_bytes "secret" [1; 2; 3; 4; 5] 0
              five_bytes_stores eq_refl)
    as (fp' & w' & E & Hp & _).
  - split; [discriminate|reflexivity].
  - simpl. lia.
  - exists fp', w'. split; [exact E|exact Hp].
Defined.

Lemma mapping_well_formed : Mmap.well_formed MoreExamples.mapping.
Proof.
  unfold Mmap.well_formed. simpl. repeat split; try discriminate.
Qed.

Lemma mmap_read_within_mapping_witness :
  Mmap.mmap_read MoreExamples.mapping 10
  = (3, [30; 40; 50], Mmap.mk_hFILE_mmap [10; 20; 30; 40; 50] 5 5 3) /\
  Mmap.well_formed (snd (Mmap.mmap_read MoreExamples.mapping 10)).
Proof.
  split; [reflexivity|].
  apply (mmap_read_within_mapping MoreExamples.mapping 10
           mapping_well_formed).
  discriminate.
Defined.

Lemma mmap_write_within_mapping_witness :
  fst (Mmap.mmap_write MoreExamples.mapping [7; 8; 9; 6]) = 3 /\
  len (Mmap.buffer (snd (Mmap.mmap_write MoreExamples.mapping [7; 8; 9; 6])))
  = 5.
Proof.
  destruct (mmap_write_within_mapping MoreExamples.mapping [7; 8; 9; 6]
              mapping_well_formed)
    as (T1 & _ & _ & _ & _ & T6 & _).
  split; [exact T1|exact T6].
Defined.

Lemma mmap_seek_stays_inside_witness :
  Mmap.well_formed
    (snd (fst (Mmap.mmap_seek MoreExamples.mapping (-3) Mmap.SEEK_CUR 0))) /\
  Mmap.well_formed
    (snd (fst (Mmap.mmap_seek MoreExamples.mapping (-1) Mmap.SEEK_END 0))).
Proof.
  split.
  - apply (mmap_seek_stays_inside MoreExamples.mapping (-3) Mmap.SEEK_CUR 0
             mapping_well_formed).
    split; [discriminate|reflexivity].
  - apply (mmap_seek_stays_inside MoreExamples.mapping (-1) Mmap.SEEK_END 0
             mapping_well_formed).
    split; [discriminate|reflexivity].
Defined.

Lemma mmap_seek_accepts_exactly_the_mapping_witness :
  fst (fst (Mmap.mmap_seek MoreExamples.mapping 6 Mmap.SEEK_SET 0)) = -1 /\
  fst (fst (Mmap.mmap_seek MoreExamples.mapping (4 - 2) Mmap.SEEK_CUR 0)) = 4 /\
  fst (fst (Mmap.mmap_seek MoreExamples.mapping (4 - 5) Mmap.SEEK_END 0)) = 4.
Proof.
  assert (R6 : - 2 ^ 63 <= 6 < 2 ^ 63) by (split; [discriminate|reflexivity]).
  assert (R4 : - 2 ^ 63 <= 4 < 2 ^ 63) by (split; [discriminate|reflexivity]).
  destruct (mmap_seek_accepts_exactly_the_mapping MoreExamples.mapping 6 0
              mapping_well_formed R6) as [T6 _].
  destruct (mmap_seek_accepts_exactly_the_mapping MoreExamples.mapping 4 0
              mapping_well_formed R4) as [_ T4].
  split; [exact T6|].
  apply T4. split; discriminate.
Defined.
Lemma mmap_write_seek_read_round_trip_witness :
  let written := Mmap.mmap_write MoreExamples.mapping [7; 8] in
  let sought := Mmap.mmap_seek (snd written) (- len [7; 8]) Mmap.SEEK_CUR 0 in
  snd (fst (Mmap.mmap_read (snd (fst sought)) (len [7; 8]))) = [7; 8].
Proof.
  apply (mmap_write_seek_read_round_trip MoreExamples.mapping [7; 8] 0
           mapping_well_formed).
  discriminate.
Defined.
